(** * The MCP connection engine of aider: [McpClient] and [McpServerManager]

    A shallow embedding of [aider/mcp_server.py].  Python objects that the
    code shares between owners (the pending futures, the tool descriptors)
    live in explicit stores and are named by address; everything the
    outside world decides (what the server answers, whether a write to the
    pipe goes through, how a child process reacts to a signal) is an
    explicit argument of the function that depends on it. *)

From Stdlib Require Import ZArith.
From stdpp Require Import gmap strings list fin_maps.

Open Scope string_scope.
Open Scope list_scope.
Open Scope nat_scope.
Set Warnings "-register-all".

(** ** Python values and the few Python operations the code relies on *)

Module Py.

(** Values produced by [json.loads].  Floating point numbers are left out. *)
Inductive Json :=
| JNull
| JBool (b : bool)
| JInt (z : Z)
| JStr (s : string)
| JList (l : list Json)
| JDict (kv : list (string * Json)).

(** The exceptions that occur in the module. *)
Inductive Exn :=
| TimeoutError (method : string)
| McpError (payload : Json)          (* Exception(f"MCP error: ...") *)
| NotInitialized                     (* Exception("MCP client not initialized") *)
| ServerNotFound (name : string)
| ToolNotFound (name : string)
| OSError                            (* broken pipe, failed spawn *)
| TimeoutExpired                     (* Popen.wait(timeout=...) *)
| TypeError
| AttributeError
| KeyError.

Inductive Result (A : Type) :=
| Ok (a : A)
| Raise (e : Exn).
Arguments Ok {A} a.
Arguments Raise {A} e.

(** Truth value of an object, as tested by [if x:] and [not x]. *)
Definition truthy (j : Json) : bool :=
  match j with
  | JNull => false
  | JBool b => b
  | JInt z => negb (z =? 0)%Z
  | JStr s => negb (String.eqb s "")
  | JList l => match l with [] => false | _ => true end
  | JDict kv => match kv with [] => false | _ => true end
  end.

(** Insertion-ordered dictionaries ([dict]): lookup, assignment (an existing
    key keeps its position, a new key goes last) and deletion.  The code
    only deletes keys that are present, so [dict_del] needs no error case. *)
Section Dict.
Context {K V : Type} `{EqDecision K}.

Fixpoint dict_get (k : K) (d : list (K * V)) : option V :=
  match d with
  | [] => None
  | (k', v) :: d' => if decide (k = k') then Some v else dict_get k d'
  end.

Definition dict_has (k : K) (d : list (K * V)) : bool :=
  match dict_get k d with Some _ => true | None => false end.

Fixpoint dict_set (k : K) (v : V) (d : list (K * V)) : list (K * V) :=
  match d with
  | [] => [(k, v)]
  | (k', v') :: d' =>
      if decide (k = k') then (k, v) :: d' else (k', v') :: dict_set k v d'
  end.

Fixpoint dict_del (k : K) (d : list (K * V)) : list (K * V) :=
  match d with
  | [] => []
  | (k', v') :: d' =>
      if decide (k = k') then dict_del k d' else (k', v') :: dict_del k d'
  end.

Definition dict_keys (d : list (K * V)) : list K := d.*1.
End Dict.

(** [x == s] for a string [s]. *)
Definition eq_str (x : Json) (s : string) : bool :=
  match x with JStr s' => String.eqb s' s | _ => false end.

Fixpoint str_contains (needle hay : string) : bool :=
  String.prefix needle hay
  || match hay with
     | EmptyString => false
     | String _ rest => str_contains needle rest
     end.

(** [k in x] for a string [k]. *)
Definition contains (k : string) (x : Json) : Result bool :=
  match x with
  | JDict kv => Ok (dict_has k kv)
  | JList l => Ok (existsb (fun e => eq_str e k) l)
  | JStr s => Ok (str_contains k s)
  | JNull | JBool _ | JInt _ => Raise TypeError
  end.

(** [x[k]] for a string [k]. *)
Definition getitem (x : Json) (k : string) : Result Json :=
  match x with
  | JDict kv => match dict_get k kv with Some v => Ok v | None => Raise KeyError end
  | _ => Raise TypeError
  end.

(** [x.get(k, dflt)]. *)
Definition get (x : Json) (k : string) (dflt : Json) : Result Json :=
  match x with
  | JDict kv => Ok (default dflt (dict_get k kv))
  | _ => Raise AttributeError
  end.

End Py.

(** ** Child processes ([subprocess.Popen]) *)

Module Proc.
Import Py.

(** A process handle together with what is known of the child behind it.
    The last three fields say how the child reacts; they are fixed when it is
    spawned.  [terminate] and [kill] only post a signal: they have no failure
    outcome. *)
Record Popen := {
  exited : bool;              (* poll() is not None *)
  stdin_closed : bool;
  sigterm : bool;             (* terminate() was called *)
  sigkill : bool;             (* kill() was called *)
  exits_on_eof : bool;        (* leaves once its input is closed *)
  exits_on_sigterm : bool;    (* leaves on the termination signal *)
  close_raises : bool         (* closing the pipe reports an error *)
}.

Definition spawned (on_eof on_term close_err : bool) : Popen :=
  {| exited := false; stdin_closed := false; sigterm := false; sigkill := false;
     exits_on_eof := on_eof; exits_on_sigterm := on_term;
     close_raises := close_err |}.

Definition poll (p : Popen) : bool := exited p.

Definition stdin_close (p : Popen) : Popen * Result unit :=
  let p' := {| exited := exited p || exits_on_eof p; stdin_closed := true;
               sigterm := sigterm p; sigkill := sigkill p;
               exits_on_eof := exits_on_eof p;
               exits_on_sigterm := exits_on_sigterm p;
               close_raises := close_raises p |} in
  (p', if close_raises p then Raise OSError else Ok ()).

(** [wait(timeout=5)]: returns once the child is gone, raises otherwise. *)
Definition wait (p : Popen) : Result unit :=
  if exited p then Ok () else Raise TimeoutExpired.

Definition terminate (p : Popen) : Popen :=
  {| exited := exited p || exits_on_sigterm p; stdin_closed := stdin_closed p;
     sigterm := true; sigkill := sigkill p;
     exits_on_eof := exits_on_eof p; exits_on_sigterm := exits_on_sigterm p;
     close_raises := close_raises p |}.

Definition kill (p : Popen) : Popen :=
  {| exited := true; stdin_closed := stdin_closed p;
     sigterm := sigterm p; sigkill := true;
     exits_on_eof := exits_on_eof p; exits_on_sigterm := exits_on_sigterm p;
     close_raises := close_raises p |}.

(** The child leaves on its own; nothing in the program causes it. *)
Definition gone (p : Popen) : Popen :=
  {| exited := true; stdin_closed := stdin_closed p;
     sigterm := sigterm p; sigkill := sigkill p;
     exits_on_eof := exits_on_eof p; exits_on_sigterm := exits_on_sigterm p;
     close_raises := close_raises p |}.

End Proc.

(** ** [class McpClient]: one connection *)

Module Client.
Import Py.

(** A line written to the child's standard input: a request carries an id,
    a notification does not; [params] is present when it was truthy. *)
Record OutMsg := {
  out_id : option Z;
  out_method : string;
  out_params : option Json
}.

(** The [future] dictionary of [_send_request]. *)
Record Future := {
  done : bool;
  result : Json;
  error : Json
}.

Definition new_future : Future :=
  {| done := false; result := JNull; error := JNull |}.

(** [self.tools]: a list whose elements, the descriptor objects, are held by
    address in the connection's object store; or whatever else the server
    sent in place of a list. *)
Inductive Tools :=
| ToolList (refs : list nat)
| ToolDict (kv : list (string * Json))
| ToolStr (s : string)
| ToolInt (z : Z)
| ToolBool (b : bool)
| ToolNull.

(** Modelled from the spec: the diagnostics sink [io], whose class
    ([aider.io.InputOutput]) is not among the sources; the spec describes it
    as "a diagnostics sink with info(message) / error(message) operations".
    A call is recorded with its message, without the interpolated details,
    and does not fail.  An [io] that is [None] is not a sink: see [report]
    in each class. *)
Inductive Diag :=
| tool_output (msg : string)
| tool_error (msg : string).

Record McpClient := {
  process : nat;                       (* handle of the child process *)
  io : bool;                           (* a sink is attached *)
  request_id : Z;
  pending_requests : gmap Z nat;       (* id -> address of the future *)
  capabilities : Json;
  server_info : Json;
  tools : Tools;
  initialized : bool;
  futures : list Future;               (* store of the future objects *)
  objects : list Json;                 (* store of the descriptor objects *)
  stdin : list OutMsg;                 (* lines written so far *)
  log : list Diag                      (* what the sink was told *)
}.

Definition protocol_version : string := "2025-03-26".

Definition __init__ (process : nat) (io : bool) : McpClient :=
  {| process := process; io := io; request_id := 0; pending_requests := ∅;
     capabilities := JDict []; server_info := JDict [];
     tools := ToolList []; initialized := false;
     futures := []; objects := []; stdin := []; log := [] |}.

(** *** Field updates *)

Definition set_request_id (v : Z) (c : McpClient) : McpClient :=
  {| process := process c; io := io c; request_id := v;
     pending_requests := pending_requests c; capabilities := capabilities c;
     server_info := server_info c; tools := tools c;
     initialized := initialized c; futures := futures c;
     objects := objects c; stdin := stdin c; log := log c |}.

Definition set_pending_requests (v : gmap Z nat) (c : McpClient) : McpClient :=
  {| process := process c; io := io c; request_id := request_id c;
     pending_requests := v; capabilities := capabilities c;
     server_info := server_info c; tools := tools c;
     initialized := initialized c; futures := futures c;
     objects := objects c; stdin := stdin c; log := log c |}.

Definition set_capabilities (v : Json) (c : McpClient) : McpClient :=
  {| process := process c; io := io c; request_id := request_id c;
     pending_requests := pending_requests c; capabilities := v;
     server_info := server_info c; tools := tools c;
     initialized := initialized c; futures := futures c;
     objects := objects c; stdin := stdin c; log := log c |}.

Definition set_server_info (v : Json) (c : McpClient) : McpClient :=
  {| process := process c; io := io c; request_id := request_id c;
     pending_requests := pending_requests c; capabilities := capabilities c;
     server_info := v; tools := tools c;
     initialized := initialized c; futures := futures c;
     objects := objects c; stdin := stdin c; log := log c |}.

Definition set_tools (v : Tools) (objs : list Json) (c : McpClient) : McpClient :=
  {| process := process c; io := io c; request_id := request_id c;
     pending_requests := pending_requests c; capabilities := capabilities c;
     server_info := server_info c; tools := v;
     initialized := initialized c; futures := futures c;
     objects := objs; stdin := stdin c; log := log c |}.

Definition set_initialized (v : bool) (c : McpClient) : McpClient :=
  {| process := process c; io := io c; request_id := request_id c;
     pending_requests := pending_requests c; capabilities := capabilities c;
     server_info := server_info c; tools := tools c;
     initialized := v; futures := futures c;
     objects := objects c; stdin := stdin c; log := log c |}.

Definition set_futures (v : list Future) (c : McpClient) : McpClient :=
  {| process := process c; io := io c; request_id := request_id c;
     pending_requests := pending_requests c; capabilities := capabilities c;
     server_info := server_info c; tools := tools c;
     initialized := initialized c; futures := v;
     objects := objects c; stdin := stdin c; log := log c |}.

Definition set_objects (v : list Json) (c : McpClient) : McpClient :=
  set_tools (tools c) v c.

Definition set_stdin (v : list OutMsg) (c : McpClient) : McpClient :=
  {| process := process c; io := io c; request_id := request_id c;
     pending_requests := pending_requests c; capabilities := capabilities c;
     server_info := server_info c; tools := tools c;
     initialized := initialized c; futures := futures c;
     objects := objects c; stdin := v; log := log c |}.

Definition set_log (v : list Diag) (c : McpClient) : McpClient :=
  {| process := process c; io := io c; request_id := request_id c;
     pending_requests := pending_requests c; capabilities := capabilities c;
     server_info := server_info c; tools := tools c;
     initialized := initialized c; futures := futures c;
     objects := objects c; stdin := stdin c; log := v |}.

(** [if self.io: self.io.tool_...(...)] *)
Definition report (d : Diag) (c : McpClient) : McpClient :=
  if io c then set_log (log c ++ [d]) c else c.

(** *** The sections guarded by [self._lock], and the pipe *)

(** [self.request_id += 1; request_id = self.request_id] *)
Definition next_request_id (c : McpClient) : McpClient * Z :=
  let c' := set_request_id (request_id c + 1) c in
  (c', request_id c').

(** [future = {...}] followed by
    [self.pending_requests[request_id] = future]; the address of the new
    future is what the caller keeps in its local variable. *)
Definition add_pending (rid : Z) (c : McpClient) : McpClient * nat :=
  let fut := length (futures c) in
  let c' := set_futures (futures c ++ [new_future]) c in
  (set_pending_requests (<[rid := fut]> (pending_requests c')) c', fut).

(** [self.pending_requests.pop(request_id, None)] *)
Definition pop_pending (rid : Z) (c : McpClient) : McpClient :=
  set_pending_requests (delete rid (pending_requests c)) c.

(** Reading through a reference to a future. *)
Definition future_at (fut : nat) (c : McpClient) : Future :=
  default new_future (futures c !! fut).

(** [self.process.stdin.write(line); self.process.stdin.flush()]: [ok] tells
    whether the pipe took the line. *)
Definition write (m : OutMsg) (ok : bool) (c : McpClient)
  : McpClient * Result unit :=
  if ok then (set_stdin (stdin c ++ [m]) c, Ok ()) else (c, Raise OSError).

Definition params_field (params : Json) : option Json :=
  if truthy params then Some params else None.

(** What an object amounts to as a key of [pending_requests], whose keys
    are integers: [True] and [False] hash and compare as 1 and 0, lists and
    dictionaries cannot be hashed, anything else equals no integer. *)
Inductive Key :=
| KeyInt (z : Z)
| KeyOther.

Definition hash_key (j : Json) : Result Key :=
  match j with
  | JInt z => Ok (KeyInt z)
  | JBool b => Ok (KeyInt (if b then 1 else 0))
  | JNull | JStr _ => Ok KeyOther
  | JList _ | JDict _ => Raise TypeError
  end.

(** The calling thread's view of the pipe during one [_send_request]:
    whether its write goes through, and what the rest of the program does to
    the connection while the caller polls its future. *)
Record Wire := {
  write_ok : bool;
  meanwhile : McpClient -> McpClient
}.

(** *** [_send_request] and [_send_notification] *)

Definition _send_request (method : string) (params : Json) (w : Wire)
    (c : McpClient) : McpClient * Result Json :=
  let '(c, rid) := next_request_id c in
  let request := {| out_id := Some rid; out_method := method;
                    out_params := params_field params |} in
  let '(c, fut) := add_pending rid c in
  match write request (write_ok w) c with
  | (c, Raise e) => (pop_pending rid c, Raise e)
  | (c, Ok _) =>
      let c := meanwhile w c in
      let future := future_at fut c in
      if negb (done future) then
        let c := pop_pending rid c in
        (pop_pending rid c, Raise (TimeoutError method))
      else if truthy (error future) then
        (pop_pending rid c, Raise (McpError (error future)))
      else (c, Ok (result future))
  end.

Definition _send_notification (method : string) (params : Json) (ok : bool)
    (c : McpClient) : McpClient * Result unit :=
  write {| out_id := None; out_method := method;
           out_params := params_field params |} ok c.

(** *** The cached tool list *)

(** [self.tools = v]: the elements of a decoded list are fresh objects. *)
Definition assign_tools (v : Json) (c : McpClient) : McpClient :=
  match v with
  | JList l =>
      set_tools (ToolList (seq (length (objects c)) (length l)))
                (objects c ++ l) c
  | JDict kv => set_tools (ToolDict kv) (objects c) c
  | JStr s => set_tools (ToolStr s) (objects c) c
  | JInt z => set_tools (ToolInt z) (objects c) c
  | JBool b => set_tools (ToolBool b) (objects c) c
  | JNull => set_tools ToolNull (objects c) c
  end.

(** What a [for tool in ...] loop ranges over: the descriptor objects of a
    list, the keys of a dictionary, the characters of a string. *)
Inductive Item :=
| ItemRef (addr : nat)
| ItemStr (s : string).

Fixpoint chars (s : string) : list string :=
  match s with
  | EmptyString => []
  | String a rest => String a EmptyString :: chars rest
  end.

Definition iterate (t : Tools) : Result (list Item) :=
  match t with
  | ToolList refs => Ok (ItemRef <$> refs)
  | ToolDict kv => Ok (ItemStr <$> kv.*1)
  | ToolStr s => Ok (ItemStr <$> chars s)
  | ToolInt _ | ToolBool _ | ToolNull => Raise TypeError
  end.

Definition item_value (objs : list Json) (i : Item) : Json :=
  match i with
  | ItemRef a => default JNull (objs !! a)
  | ItemStr s => JStr s
  end.

(** [', '.join([tool["name"] for tool in self.tools])], up to the separator:
    every element must be subscriptable by ["name"] and every name a
    string. *)
Fixpoint names_of (objs : list Json) (items : list Item)
  : Result (list Json) :=
  match items with
  | [] => Ok []
  | i :: rest =>
      match getitem (item_value objs i) "name" with
      | Raise e => Raise e
      | Ok n =>
          match names_of objs rest with
          | Raise e => Raise e
          | Ok ns => Ok (n :: ns)
          end
      end
  end.

Definition join (names : list Json) : Result unit :=
  if forallb (fun n => match n with JStr _ => true | _ => false end) names
  then Ok () else Raise TypeError.

Definition tool_names (c : McpClient) : Result unit :=
  match iterate (tools c) with
  | Raise e => Raise e
  | Ok items =>
      match names_of (objects c) items with
      | Raise e => Raise e
      | Ok names => join names
      end
  end.

Definition _refresh_tools (w : Wire) (c : McpClient) : McpClient :=
  if negb (initialized c) then c
  else
    let failed := report (tool_error "Failed to refresh MCP tools") in
    match contains "tools" (capabilities c) with
    | Raise _ => failed c
    | Ok false => c
    | Ok true =>
        match _send_request "tools/list" JNull w c with
        | (c, Raise _) => failed c
        | (c, Ok result) =>
            match get result "tools" (JList []) with
            | Raise _ => failed c
            | Ok v =>
                let c := assign_tools v c in
                if io c then
                  match tool_names c with
                  | Raise _ => failed c
                  | Ok _ => report (tool_output "MCP tools available") c
                  end
                else c
            end
        end
    end.

(** [self.tools.copy()]: a new list of the same objects.  Lists and
    dictionaries can be copied, the other values have no such method. *)
Definition get_tools (c : McpClient) : Result Tools :=
  match tools c with
  | ToolList refs => Ok (ToolList refs)
  | ToolDict kv => Ok (ToolDict kv)
  | ToolStr _ | ToolInt _ | ToolBool _ | ToolNull => Raise AttributeError
  end.

Definition call_tool (name : string) (arguments : Json) (w : Wire)
    (c : McpClient) : McpClient * Result Json :=
  if negb (initialized c) then (c, Raise NotInitialized)
  else
    let params := JDict [("name", JStr name); ("arguments", arguments)] in
    _send_request "tools/call" params w c.

(** *** The receive loop *)

(** [relay_ok] is the outcome of the write that the loop itself attempts when
    a notification makes it refresh the tool list.  That request is sent from
    the loop's own thread, so nothing is read from the pipe while it waits. *)
Definition _handle_message (relay_ok : bool) (message : Json)
    (c : McpClient) : McpClient * Result unit :=
  match contains "id" message with
  | Raise e => (c, Raise e)
  | Ok true =>
      match getitem message "id" with
      | Raise e => (c, Raise e)
      | Ok request_id =>
          match hash_key request_id with
          | Raise e => (c, Raise e)
          | Ok KeyOther => (c, Ok ())
          | Ok (KeyInt rid) =>
              match pending_requests c !! rid with
              | None => (c, Ok ())
              | Some fut =>
                  let c := pop_pending rid c in
                  let future := future_at fut c in
                  match contains "error" message with
                  | Raise e => (c, Raise e)
                  | Ok true =>
                      match getitem message "error" with
                      | Raise e => (c, Raise e)
                      | Ok v =>
                          let future := {| done := true;
                                           result := result future;
                                           error := v |} in
                          (set_futures (<[fut := future]> (futures c)) c,
                           Ok ())
                      end
                  | Ok false =>
                      match get message "result" JNull with
                      | Raise e => (c, Raise e)
                      | Ok v =>
                          let future := {| done := true; result := v;
                                           error := error future |} in
                          (set_futures (<[fut := future]> (futures c)) c,
                           Ok ())
                      end
                  end
              end
          end
      end
  | Ok false =>
      match get message "method" (JStr "") with
      | Raise e => (c, Raise e)
      | Ok method =>
          if eq_str method "notifications/tools/list_changed"
          then (_refresh_tools {| write_ok := relay_ok; meanwhile := id |} c,
                Ok ())
          else (c, Ok ())
      end
  end.

(** A line read from the child: text that [json.loads] rejects, or the
    decoded value. *)
Inductive Line :=
| Garbled
| Decoded (message : Json).

(** One turn of the [while] loop of [_read_responses]. *)
Definition on_line (l : Line * bool) (c : McpClient) : McpClient :=
  match l.1 with
  | Garbled => report (tool_error "Invalid JSON from MCP server") c
  | Decoded message =>
      match _handle_message l.2 message c with
      | (c, Ok _) => c
      | (c, Raise _) =>
          report (tool_error "Error processing MCP message") c
      end
  end.

(** The loop over the lines the child produces before its output ends. *)
Definition _read_responses (lines : list (Line * bool)) (c : McpClient)
  : McpClient :=
  foldl (fun c l => on_line l c) c lines.

(** What the world does around one request of a calling thread: whether the
    write goes through and which lines the receive loop handles while the
    caller waits.  The wait ends with the future completed by one of these
    lines, or else by the timeout. *)
Record Env := {
  sent : bool;
  inbox : list (Line * bool)
}.

Definition wire (e : Env) : Wire :=
  {| write_ok := sent e; meanwhile := _read_responses (inbox e) |}.

(** *** [initialize] and [close] *)

Definition init_params : Json :=
  JDict [("protocolVersion", JStr protocol_version);
         ("capabilities", JDict [("roots", JDict [("listChanged", JBool true)]);
                                 ("sampling", JDict [])]);
         ("clientInfo", JDict [("name", JStr "aider");
                               ("version", JStr "0.1.0")])].

Definition initialize (w1 : Wire) (notified : bool) (w2 : Wire)
    (c : McpClient) : McpClient * bool :=
  let failed c :=
    (report (tool_error "Failed to initialize MCP server") c, false) in
  match _send_request "initialize" init_params w1 c with
  | (c, Raise _) => failed c
  | (c, Ok result) =>
      match get result "capabilities" (JDict []) with
      | Raise _ => failed c
      | Ok caps =>
          let c := set_capabilities caps c in
          match get result "serverInfo" (JDict []) with
          | Raise _ => failed c
          | Ok info =>
              let c := set_server_info info c in
              match _send_notification "notifications/initialized" JNull
                      notified c with
              | (c, Raise _) => failed c
              | (c, Ok _) =>
                  let c := _refresh_tools w2 c in
                  let c := set_initialized true c in
                  if io c then
                    match get (server_info c) "name" (JStr "Unknown") with
                    | Raise _ => failed c
                    | Ok _ =>
                        (report (tool_output "MCP server initialized") c, true)
                    end
                  else (c, true)
              end
          end
      end
  end.

(** [close], on the process the connection holds. *)
Definition escalate (p : Proc.Popen) : Proc.Popen :=
  let p := Proc.terminate p in
  match Proc.wait p with
  | Ok _ => p
  | Raise _ => Proc.kill p
  end.

Definition close (p : Proc.Popen) : Proc.Popen :=
  if negb (Proc.poll p) then
    match Proc.stdin_close p with
    | (p, Ok _) =>
        match Proc.wait p with
        | Ok _ => p
        | Raise _ => escalate p
        end
    | (p, Raise _) => escalate p
    end
  else p.

End Client.

(** ** [class McpServerManager] *)

Module Manager.
Import Py.

(** The two registrations are insertion-ordered dictionaries.  Process
    objects are shared between [active_processes] and the connection built
    over them, so they are kept in a table and named by handle.  The unused
    attribute [servers] is left out. *)
Record McpServerManager := {
  io : bool;                                     (* a sink was given *)
  active_processes : list (string * nat);
  mcp_clients : list (string * Client.McpClient);
  procs : list Proc.Popen;                       (* every process spawned *)
  log : list Client.Diag                         (* what the sink was told *)
}.

Definition __init__ (io : bool) : McpServerManager :=
  {| io := io; active_processes := []; mcp_clients := [];
     procs := []; log := [] |}.

Definition set_active_processes (v : list (string * nat))
    (m : McpServerManager) : McpServerManager :=
  {| io := io m; active_processes := v; mcp_clients := mcp_clients m;
     procs := procs m; log := log m |}.

Definition set_mcp_clients (v : list (string * Client.McpClient))
    (m : McpServerManager) : McpServerManager :=
  {| io := io m; active_processes := active_processes m; mcp_clients := v;
     procs := procs m; log := log m |}.

Definition set_procs (v : list Proc.Popen) (m : McpServerManager)
  : McpServerManager :=
  {| io := io m; active_processes := active_processes m;
     mcp_clients := mcp_clients m; procs := v; log := log m |}.

Definition set_log (v : list Client.Diag) (m : McpServerManager)
  : McpServerManager :=
  {| io := io m; active_processes := active_processes m;
     mcp_clients := mcp_clients m; procs := procs m; log := v |}.

(** [self.io.tool_...(...)]: the manager does not test [self.io] first, so
    without a sink the call is an attribute lookup on [None]. *)
Definition report (d : Client.Diag) (m : McpServerManager)
  : McpServerManager * Result unit :=
  if io m then (set_log (log m ++ [d]) m, Ok ())
  else (m, Raise AttributeError).

(** Acting on a process through its handle. *)
Definition proc_at (pid : nat) (m : McpServerManager) : Proc.Popen :=
  default (Proc.spawned false false false) (procs m !! pid).

Definition on_proc (f : Proc.Popen -> Proc.Popen) (pid : nat)
    (m : McpServerManager) : McpServerManager :=
  set_procs (alter f pid (procs m)) m.

(** A launch spec: [config.get("command")], [config.get("args", [])] and
    [config.get("env", {})]. *)
Record Config := {
  command : option string;
  args : list string;
  env : list (string * string)
}.

(** What the world decides during one [start_server]: the outcome of
    [subprocess.Popen] (the child, or the error raised) and the course of
    the handshake. *)
Record StartEnv := {
  child : Result Proc.Popen;
  hello : Client.Env;               (* around the initialize request *)
  notified : bool;                  (* the notification is written *)
  listing : Client.Env              (* around the tools/list request *)
}.

Definition start_server (server_name : string) (config : Config)
    (e : StartEnv) (m : McpServerManager) : McpServerManager * Result bool :=
  if dict_has server_name (active_processes m) then
    match report (Client.tool_output "MCP server is already running") m with
    | (m, Raise e) => (m, Raise e)
    | (m, Ok _) => (m, Ok true)
    end
  else
    if negb (truthy (from_option JStr JNull (command config))) then
      match report (Client.tool_error "Invalid MCP server configuration") m
      with
      | (m, Raise e) => (m, Raise e)
      | (m, Ok _) => (m, Ok false)
      end
    else
      let handler m :=
        match report (Client.tool_error "Failed to start MCP server") m with
        | (m, Raise e) => (m, Raise e)
        | (m, Ok _) => (m, Ok false)
        end in
      match child e with
      | Raise _ => handler m
      | Ok p =>
          let process := length (procs m) in
          let m := set_procs (procs m ++ [p]) m in
          let m := set_active_processes
                     (dict_set server_name process (active_processes m)) m in
          let mcp_client := Client.__init__ process (io m) in
          match Client.initialize (Client.wire (hello e)) (notified e)
                  (Client.wire (listing e)) mcp_client with
          | (mcp_client, true) =>
              let m := set_mcp_clients
                         (dict_set server_name mcp_client (mcp_clients m)) m in
              match report
                      (Client.tool_output "Started and initialized MCP server")
                      m with
              | (m, Raise _) => handler m
              | (m, Ok _) => (m, Ok true)
              end
          | (_, false) =>
              let m := on_proc Proc.terminate process m in
              let m := set_active_processes
                         (dict_del server_name (active_processes m)) m in
              (m, Ok false)
          end
      end.

Definition stop_server (server_name : string) (m : McpServerManager)
  : McpServerManager * Result bool :=
  if negb (dict_has server_name (active_processes m)) then (m, Ok false)
  else
    (* [close] has no failing outcome, so the deletion always follows it *)
    let m :=
      match dict_get server_name (mcp_clients m) with
      | Some client =>
          let m := on_proc Client.close (Client.process client) m in
          set_mcp_clients (dict_del server_name (mcp_clients m)) m
      | None => m
      end in
    let process := default 0 (dict_get server_name (active_processes m)) in
    let handler m :=
      match report (Client.tool_error "Error stopping MCP server") m with
      | (m, Raise e) => (m, Raise e)
      | (m, Ok _) =>
          let m := on_proc Proc.kill process m in
          let m := set_active_processes
                     (dict_del server_name (active_processes m)) m in
          (m, Ok false)
      end in
    let m := on_proc Proc.terminate process m in
    match Proc.wait (proc_at process m) with
    | Raise _ => handler m
    | Ok _ =>
        let m := set_active_processes
                   (dict_del server_name (active_processes m)) m in
        match report (Client.tool_output "Stopped MCP server") m with
        | (m, Raise _) => handler m
        | (m, Ok _) => (m, Ok true)
        end
    end.

Fixpoint stop_each (server_names : list string) (m : McpServerManager)
  : McpServerManager * Result unit :=
  match server_names with
  | [] => (m, Ok ())
  | server_name :: rest =>
      match stop_server server_name m with
      | (m, Raise e) => (m, Raise e)
      | (m, Ok _) => stop_each rest m
      end
  end.

Definition stop_all_servers (m : McpServerManager)
  : McpServerManager * Result unit :=
  stop_each (dict_keys (active_processes m)) m.

(** [tool["_mcp_server"] = server_name], on an element of the copied list:
    the element is the very object the connection caches. *)
Definition tag (server_name : string) (i : Client.Item)
    (c : Client.McpClient) : Client.McpClient * Result unit :=
  match i with
  | Client.ItemRef a =>
      match Client.objects c !! a with
      | Some (JDict kv) =>
          let tagged := JDict (dict_set "_mcp_server" (JStr server_name) kv) in
          (Client.set_objects (<[a := tagged]> (Client.objects c)) c, Ok ())
      | _ => (c, Raise TypeError)
      end
  | Client.ItemStr _ => (c, Raise TypeError)
  end.

Fixpoint tag_each (server_name : string) (items : list Client.Item)
    (c : Client.McpClient) : Client.McpClient * Result unit :=
  match items with
  | [] => (c, Ok ())
  | tool :: rest =>
      match tag server_name tool c with
      | (c, Raise e) => (c, Raise e)
      | (c, Ok _) => tag_each server_name rest c
      end
  end.

(** The body of the [try] of [get_all_tools] for one connection. *)
Definition tagged_tools (server_name : string) (c : Client.McpClient)
  : Client.McpClient * Result (list Client.Item) :=
  match Client.get_tools c with
  | Raise e => (c, Raise e)
  | Ok tools =>
      match Client.iterate tools with
      | Raise e => (c, Raise e)
      | Ok items =>
          match tag_each server_name items c with
          | (c, Raise e) => (c, Raise e)
          | (c, Ok _) => (c, Ok items)
          end
      end
  end.

(** The loop of [get_all_tools] over [self.mcp_clients.items()].  An element
    of the result names an object of the connection registered under the
    given server name.  The connections are updated in place. *)
Fixpoint gather (entries : list (string * Client.McpClient))
    (all_tools : list (string * Client.Item)) (m : McpServerManager)
  : list (string * Client.McpClient) * McpServerManager
    * Result (list (string * Client.Item)) :=
  match entries with
  | [] => ([], m, Ok all_tools)
  | (server_name, client) :: rest =>
      match tagged_tools server_name client with
      | (client, Ok tools) =>
          let '(rest, m, r) :=
            gather rest (all_tools ++ (pair server_name <$> tools)) m in
          ((server_name, client) :: rest, m, r)
      | (client, Raise _) =>
          match report (Client.tool_error "Error getting tools from MCP server")
                  m with
          | (m, Raise e) => ((server_name, client) :: rest, m, Raise e)
          | (m, Ok _) =>
              let '(rest, m, r) := gather rest all_tools m in
              ((server_name, client) :: rest, m, r)
          end
      end
  end.

Definition get_all_tools (m : McpServerManager)
  : McpServerManager * Result (list (string * Client.Item)) :=
  let '(clients, m, r) := gather (mcp_clients m) [] m in
  (set_mcp_clients clients m, r).

(** [any(tool["name"] == tool_name for tool in tools)] *)
Fixpoint any_named (tool_name : string) (objs : list Json)
    (items : list Client.Item) : Result bool :=
  match items with
  | [] => Ok false
  | tool :: rest =>
      match getitem (Client.item_value objs tool) "name" with
      | Raise e => Raise e
      | Ok n =>
          if eq_str n tool_name then Ok true
          else any_named tool_name objs rest
      end
  end.

Definition has_tool (tool_name : string) (c : Client.McpClient)
  : Result bool :=
  match Client.get_tools c with
  | Raise e => Raise e
  | Ok tools =>
      match Client.iterate tools with
      | Raise e => Raise e
      | Ok items => any_named tool_name (Client.objects c) items
      end
  end.

(** The search loop of [call_tool]. *)
Fixpoint search (tool_name : string) (arguments : Json) (w : Client.Wire)
    (entries : list (string * Client.McpClient))
  : list (string * Client.McpClient) * Result Json :=
  match entries with
  | [] => ([], Raise (ToolNotFound tool_name))
  | (name, client) :: rest =>
      match has_tool tool_name client with
      | Raise e => (entries, Raise e)
      | Ok true =>
          let '(client, r) := Client.call_tool tool_name arguments w client in
          ((name, client) :: rest, r)
      | Ok false =>
          let '(rest, r) := search tool_name arguments w rest in
          ((name, client) :: rest, r)
      end
  end.

Definition call_tool (tool_name : string) (arguments : Json)
    (server_name : option string) (w : Client.Wire) (m : McpServerManager)
  : McpServerManager * Result Json :=
  if truthy (from_option JStr JNull server_name) then
    let server_name := default "" server_name in
    match dict_get server_name (mcp_clients m) with
    | None => (m, Raise (ServerNotFound server_name))
    | Some client =>
        let '(client, r) := Client.call_tool tool_name arguments w client in
        (set_mcp_clients (dict_set server_name client (mcp_clients m)) m, r)
    end
  else
    let '(clients, r) := search tool_name arguments w (mcp_clients m) in
    (set_mcp_clients clients m, r).

(** What [open(config_path)] and [json.load] make of the file: it cannot be
    opened, its text is not JSON, or the decoded value. *)
Inductive ConfigFile :=
| Unreadable
| Malformed
| Parsed (config : Json).

Definition load_config_from_file (file : ConfigFile) (m : McpServerManager)
  : McpServerManager * Result Json :=
  let handler m :=
    match report (Client.tool_error "Error loading MCP server config") m with
    | (m, Raise e) => (m, Raise e)
    | (m, Ok _) => (m, Ok (JDict []))
    end in
  match file with
  | Unreadable | Malformed => handler m
  | Parsed config =>
      match get config "mcpServers" (JDict []) with
      | Raise _ => handler m
      | Ok servers => (m, Ok servers)
      end
  end.

End Manager.

(** ** [class McpToolsIntegration] ([aider/mcp_tools.py])

    The integration holds the manager it was given and threads it through
    every call it makes on it.  An f-string that interpolates a decoded value
    applies Python's [str] to it; that function is the parameter [format] of
    the definitions that build such text, and nothing is assumed of it. *)

Module Integration.
Import Py.

Record McpToolsIntegration := {
  mcp_server_manager : option Manager.McpServerManager;
  io : bool;                                     (* a sink was given *)
  _tools_cache : list Json;
  _tools_cache_valid : bool;
  log : list Client.Diag                         (* what the sink was told *)
}.

Definition __init__ (mcp_server_manager : option Manager.McpServerManager)
    (io : bool) : McpToolsIntegration :=
  {| mcp_server_manager := mcp_server_manager; io := io;
     _tools_cache := []; _tools_cache_valid := false; log := [] |}.

Definition set_manager (v : option Manager.McpServerManager)
    (t : McpToolsIntegration) : McpToolsIntegration :=
  {| mcp_server_manager := v; io := io t; _tools_cache := _tools_cache t;
     _tools_cache_valid := _tools_cache_valid t; log := log t |}.

Definition set_cache (v : list Json) (valid : bool) (t : McpToolsIntegration)
  : McpToolsIntegration :=
  {| mcp_server_manager := mcp_server_manager t; io := io t;
     _tools_cache := v; _tools_cache_valid := valid; log := log t |}.

Definition set_log (v : list Client.Diag) (t : McpToolsIntegration)
  : McpToolsIntegration :=
  {| mcp_server_manager := mcp_server_manager t; io := io t;
     _tools_cache := _tools_cache t;
     _tools_cache_valid := _tools_cache_valid t; log := v |}.

(** [if self.io: self.io.tool_...(...)] *)
Definition report (d : Client.Diag) (t : McpToolsIntegration)
  : McpToolsIntegration :=
  if io t then set_log (log t ++ [d]) t else t.

(** *** The cache of converted tools *)

(** An element of the list [get_all_tools] returned, read through its
    reference: the descriptor object lives in the connection registered under
    the server name. *)
Definition deref (m : Manager.McpServerManager) (tool : string * Client.Item)
  : Json :=
  match dict_get tool.1 (Manager.mcp_clients m) with
  | Some c => Client.item_value (Client.objects c) tool.2
  | None => JNull
  end.

Definition default_schema : Json :=
  JDict [("type", JStr "object"); ("properties", JDict []);
         ("required", JList [])].

Definition _convert_mcp_tool_to_llm_format (mcp_tool : Json) : Result Json :=
  match getitem mcp_tool "name" with
  | Raise e => Raise e
  | Ok name =>
      match get mcp_tool "description" (JStr "") with
      | Raise e => Raise e
      | Ok description =>
          match get mcp_tool "inputSchema" default_schema with
          | Raise e => Raise e
          | Ok parameters =>
              match get mcp_tool "_mcp_server" JNull with
              | Raise e => Raise e
              | Ok server =>
                  Ok (JDict [("type", JStr "function");
                             ("function",
                              JDict [("name", name);
                                     ("description", description);
                                     ("parameters", parameters)]);
                             ("_mcp_server", server)])
              end
          end
      end
  end.

(** The loop of [_refresh_tools_cache] that converts and appends. *)
Fixpoint convert_each (mcp_tools : list Json) : Result (list Json) :=
  match mcp_tools with
  | [] => Ok []
  | tool :: rest =>
      match _convert_mcp_tool_to_llm_format tool with
      | Raise e => Raise e
      | Ok llm_tool =>
          match convert_each rest with
          | Raise e => Raise e
          | Ok cache => Ok (llm_tool :: cache)
          end
      end
  end.

(** [[tool["function"]["name"] for tool in self._tools_cache]] *)
Fixpoint function_names (cache : list Json) : Result (list Json) :=
  match cache with
  | [] => Ok []
  | tool :: rest =>
      match getitem tool "function" with
      | Raise e => Raise e
      | Ok func =>
          match getitem func "name" with
          | Raise e => Raise e
          | Ok name =>
              match function_names rest with
              | Raise e => Raise e
              | Ok names => Ok (name :: names)
              end
          end
      end
  end.

Definition _refresh_tools_cache (t : McpToolsIntegration)
  : McpToolsIntegration :=
  let failed t :=
    set_cache [] false
      (report (Client.tool_error "Error refreshing MCP tools cache") t) in
  match mcp_server_manager t with
  | None => failed t
  | Some m =>
      match Manager.get_all_tools m with
      | (m, Raise _) => failed (set_manager (Some m) t)
      | (m, Ok mcp_tools) =>
          let t := set_manager (Some m) t in
          match convert_each (deref m <$> mcp_tools) with
          | Raise _ => failed t
          | Ok cache =>
              let t := set_cache cache true t in
              if io t && truthy (JList cache) then
                match function_names cache with
                | Raise _ => failed t
                | Ok tool_names =>
                    match Client.join tool_names with
                    | Raise _ => failed t
                    | Ok _ =>
                        report
                          (Client.tool_output "MCP tools available for LLM") t
                    end
                end
              else t
          end
      end
  end.

Definition get_tools_for_llm (t : McpToolsIntegration)
  : McpToolsIntegration * list Json :=
  match mcp_server_manager t with
  | None => (t, [])
  | Some _ =>
      let t := if negb (_tools_cache_valid t) then _refresh_tools_cache t
               else t in
      (t, _tools_cache t)
  end.

Definition invalidate_cache (t : McpToolsIntegration) : McpToolsIntegration :=
  set_cache (_tools_cache t) false t.

Definition has_tools (t : McpToolsIntegration) : McpToolsIntegration * bool :=
  match mcp_server_manager t with
  | None => (t, false)
  | Some _ =>
      let t := if negb (_tools_cache_valid t) then _refresh_tools_cache t
               else t in
      (t, bool_decide (0 < length (_tools_cache t)))
  end.

(** *** Text *)

Definition newline : string := String (Ascii.ascii_of_nat 10) EmptyString.

(** What a [for item in x] loop ranges over. *)
Definition iter (x : Json) : Result (list Json) :=
  match x with
  | JList l => Ok l
  | JDict kv => Ok (JStr <$> kv.*1)
  | JStr s => Ok (JStr <$> Client.chars s)
  | JNull | JBool _ | JInt _ => Raise TypeError
  end.

(** [sep.join(parts)]: every part must be a string. *)
Fixpoint strings (parts : list Json) : Result (list string) :=
  match parts with
  | [] => Ok []
  | JStr s :: rest =>
      match strings rest with
      | Raise e => Raise e
      | Ok ss => Ok (s :: ss)
      end
  | _ :: _ => Raise TypeError
  end.

Definition join (sep : string) (parts : list Json) : Result string :=
  match strings parts with
  | Raise e => Raise e
  | Ok ss => Ok (String.concat sep ss)
  end.

(** The loop of [_extract_content_text]. *)
Fixpoint first_text (items : list Json) : Result Json :=
  match items with
  | [] => Ok (JStr "Unknown error")
  | item :: rest =>
      match get item "type" JNull with
      | Raise e => Raise e
      | Ok type =>
          if eq_str type "text" then get item "text" (JStr "Unknown error")
          else first_text rest
      end
  end.

Definition _extract_content_text (result : Json) : Result Json :=
  match get result "content" (JList []) with
  | Raise e => Raise e
  | Ok content =>
      match iter content with
      | Raise e => Raise e
      | Ok items => first_text items
      end
  end.

(** [content += text]: a string is extended by the text, a list by the
    characters of the text, one element each; nothing else can be added to. *)
Definition iadd (content : Json) (text : string) : Result Json :=
  match content with
  | JStr s => Ok (JStr (s +:+ text))
  | JList l => Ok (JList (l ++ (JStr <$> Client.chars text)))
  | JNull | JBool _ | JInt _ | JDict _ => Raise TypeError
  end.

Section Text.
Context (format : Json -> string).

(** The loop of [_format_tool_result] that collects [text_parts]. *)
Fixpoint parts_of (content : list Json) : Result (list Json) :=
  match content with
  | [] => Ok []
  | item :: rest =>
      let append (parts : list Json) :=
        match parts_of rest with
        | Raise e => Raise e
        | Ok others => Ok (parts ++ others)
        end in
      match get item "type" JNull with
      | Raise e => Raise e
      | Ok type =>
          if eq_str type "text" then
            match get item "text" (JStr "") with
            | Raise e => Raise e
            | Ok text => append [text]
            end
          else if eq_str type "image" then
            match get item "mimeType" (JStr "unknown") with
            | Raise e => Raise e
            | Ok mime => append [JStr ("[Image: " +:+ format mime +:+ "]")]
            end
          else if eq_str type "audio" then
            match get item "mimeType" (JStr "unknown") with
            | Raise e => Raise e
            | Ok mime => append [JStr ("[Audio: " +:+ format mime +:+ "]")]
            end
          else if eq_str type "resource" then
            match get item "resource" (JDict []) with
            | Raise e => Raise e
            | Ok resource =>
                match get resource "uri" (JStr "unknown") with
                | Raise e => Raise e
                | Ok uri =>
                    let label :=
                      JStr ("[Resource: " +:+ format uri +:+ "]") in
                    match get resource "text" JNull with
                    | Raise e => Raise e
                    | Ok text =>
                        if truthy text then
                          match getitem resource "text" with
                          | Raise e => Raise e
                          | Ok text => append [label; text]
                          end
                        else append [label]
                    end
                end
            end
          else append []
      end
  end.

Definition _format_tool_result (result : Json) : Result string :=
  match get result "isError" (JBool false) with
  | Raise e => Raise e
  | Ok is_error =>
      if truthy is_error then
        match _extract_content_text result with
        | Raise e => Raise e
        | Ok text => Ok ("Tool execution error: " +:+ format text)
        end
      else
        match get result "content" (JList []) with
        | Raise e => Raise e
        | Ok content =>
            if negb (truthy content) then
              Ok "Tool executed successfully (no output)"
            else
              match iter content with
              | Raise e => Raise e
              | Ok items =>
                  match parts_of items with
                  | Raise e => Raise e
                  | Ok [] => Ok "Tool executed successfully"
                  | Ok text_parts => join newline text_parts
                  end
              end
        end
  end.

(** *** Calling a tool *)

(** The string [call_mcp_tool] returns.  The message built in its [except]
    clause, [f"Error calling MCP tool '{tool_name}': {str(e)}"], is kept as
    the two values it interpolates: the text of [str(e)] is the
    interpreter's. *)
Inductive Reply :=
| Text (s : string)
| ErrorCalling (tool_name : string) (e : Exn).

(** The search of the cache for the server of [tool_name]; [None] when the
    loop ends without a match. *)
Fixpoint find_server (tool_name : string) (cache : list Json) : Result Json :=
  match cache with
  | [] => Ok JNull
  | tool :: rest =>
      match getitem tool "function" with
      | Raise e => Raise e
      | Ok func =>
          match getitem func "name" with
          | Raise e => Raise e
          | Ok name =>
              if eq_str name tool_name then get tool "_mcp_server" JNull
              else find_server tool_name rest
          end
      end
  end.

(** [self.mcp_server_manager.call_tool(tool_name, arguments, server_name)]
    for the value [server_name] found in the cache.  A string names a server
    (the empty one counts as none).  Of the other values, a falsy one counts
    as no server name; a truthy number or [True] is a key of no connection;
    a truthy list or dictionary cannot be looked up in a dictionary. *)
Definition manager_call_tool (tool_name : string) (arguments server_name : Json)
    (w : Client.Wire) (m : Manager.McpServerManager)
  : Manager.McpServerManager * Result Json :=
  match server_name with
  | JStr s => Manager.call_tool tool_name arguments (Some s) w m
  | JNull => Manager.call_tool tool_name arguments None w m
  | JBool _ | JInt _ =>
      if truthy server_name then
        (m, Raise (ServerNotFound (format server_name)))
      else Manager.call_tool tool_name arguments None w m
  | JList _ | JDict _ =>
      if truthy server_name then (m, Raise TypeError)
      else Manager.call_tool tool_name arguments None w m
  end.

Definition call_mcp_tool (tool_name : string) (arguments : Json)
    (w : Client.Wire) (t : McpToolsIntegration)
  : McpToolsIntegration * Reply :=
  match mcp_server_manager t with
  | None => (t, Text "Error: No MCP server manager available")
  | Some m =>
      let handler e t :=
        (report (Client.tool_error "Error calling MCP tool") t,
         ErrorCalling tool_name e) in
      match find_server tool_name (_tools_cache t) with
      | Raise e => handler e t
      | Ok server_name =>
          if negb (truthy server_name) then
            (t, Text ("Error: Tool '" +:+ tool_name +:+ "' not found"))
          else
            match manager_call_tool tool_name arguments server_name w m with
            | (m, Raise e) => handler e (set_manager (Some m) t)
            | (m, Ok result) =>
                let t := set_manager (Some m) t in
                match _format_tool_result result with
                | Raise e => handler e t
                | Ok formatted => (t, Text formatted)
                end
            end
      end
  end.

(** The handler [create_mcp_function_call_handler] returns: it calls
    [call_mcp_tool] on the integration it was made for. *)
Definition create_mcp_function_call_handler
    (function_name : string) (function_args : Json) (w : Client.Wire)
    (mcp_tools_integration : McpToolsIntegration)
  : McpToolsIntegration * Reply :=
  call_mcp_tool function_name function_args w mcp_tools_integration.

(** *** [add_mcp_tools_to_messages] *)

(** The lines [f"- {func['name']}: {func['description']}\n"], one for each
    tool. *)
Fixpoint tool_lines (tools : list Json) : Result string :=
  match tools with
  | [] => Ok ""
  | tool :: rest =>
      match getitem tool "function" with
      | Raise e => Raise e
      | Ok func =>
          match getitem func "name" with
          | Raise e => Raise e
          | Ok name =>
              match getitem func "description" with
              | Raise e => Raise e
              | Ok description =>
                  match tool_lines rest with
                  | Raise e => Raise e
                  | Ok lines =>
                      Ok ("- " +:+ format name +:+ ": "
                          +:+ format description +:+ newline +:+ lines)
                  end
              end
          end
      end
  end.

Definition tools_description (lines : string) : string :=
  "You have access to the following tools from MCP servers:"
  +:+ newline +:+ newline +:+ lines +:+ newline
  +:+ "You can call these tools by using function calls in your response.".

(** [d = message.copy(); d[k] = v] *)
Definition assigned (k : string) (v : Json) (message : Json) : Json :=
  match message with
  | JDict kv => JDict (dict_set k v kv)
  | _ => message
  end.

(** The loop over [messages].  The first component is the list the caller
    passed, as the loop leaves it: [+=] on a content that is a list extends
    the list object the message itself holds.  The second is
    [modified_messages] with [system_message_found]. *)
Fixpoint amend (text : string) (system_message_found : bool)
    (messages : list Json) : list Json * Result (list Json * bool) :=
  match messages with
  | [] => ([], Ok ([], system_message_found))
  | message :: rest =>
      match get message "role" JNull with
      | Raise e => (messages, Raise e)
      | Ok role =>
          if eq_str role "system" && negb system_message_found then
            match get message "content" (JStr "") with
            | Raise e => (messages, Raise e)
            | Ok content =>
                match iadd content text with
                | Raise e => (messages, Raise e)
                | Ok content' =>
                    let modified_message :=
                      assigned "content" content' message in
                    let message :=
                      match content with
                      | JList _ => modified_message
                      | _ => message
                      end in
                    let '(rest, r) := amend text true rest in
                    (message :: rest,
                     match r with
                     | Raise e => Raise e
                     | Ok (modified_messages, found) =>
                         Ok (modified_message :: modified_messages, found)
                     end)
                end
            end
          else
            let '(rest, r) := amend text system_message_found rest in
            (message :: rest,
             match r with
             | Raise e => Raise e
             | Ok (modified_messages, found) =>
                 Ok (message :: modified_messages, found)
             end)
      end
  end.

Definition add_mcp_tools_to_messages (messages : list Json)
    (mcp_tools_integration : option McpToolsIntegration)
  : option McpToolsIntegration * list Json * Result (list Json) :=
  match mcp_tools_integration with
  | None => (None, messages, Ok messages)
  | Some t =>
      let '(t, has) := has_tools t in
      if negb has then (Some t, messages, Ok messages)
      else
        let '(t, tools) := get_tools_for_llm t in
        if negb (truthy (JList tools)) then (Some t, messages, Ok messages)
        else
          match tool_lines tools with
          | Raise e => (Some t, messages, Raise e)
          | Ok lines =>
              let description := tools_description lines in
              let '(messages, r) :=
                amend (newline +:+ newline +:+ description) false messages in
              match r with
              | Raise e => (Some t, messages, Raise e)
              | Ok (modified_messages, true) =>
                  (Some t, messages, Ok modified_messages)
              | Ok (modified_messages, false) =>
                  let system_message :=
                    JDict [("role", JStr "system");
                           ("content", JStr description)] in
                  (Some t, messages, Ok (system_message :: modified_messages))
              end
          end
  end.

End Text.

End Integration.

(** ** Several callers and the receive loop on one connection

    [_send_request] holds the lock only around the allocation of the id,
    around the insertion of the slot and around its removal, so calls made
    from several threads interleave between these sections, with each other
    and with the receive loop.  A thread inside the call is at one of the
    points below; the trace records the allocations, insertions and writes
    in the order in which they happen. *)

Module Threads.
Import Py Client.

Inductive Pc :=
| Allocated (rid : Z) (method : string) (params : Json)
| Inserted (rid : Z) (fut : nat) (method : string) (params : Json)
| Waiting (rid : Z) (fut : nat) (method : string)
| Expired (rid : Z) (method : string)      (* saw the future not done *)
| Unwinding (rid : Z) (e : Exn)            (* in the [except] clause *)
| Finished (rid : Z) (r : Result Json).

Inductive Event :=
| EvAlloc (rid : Z)
| EvInsert (rid : Z) (fut : nat)
| EvWrite (rid : Z).

Record Sys := {
  conn : McpClient;
  threads : gmap nat Pc;
  trace : list Event
}.

Definition boot (process : nat) (io : bool) : Sys :=
  {| conn := Client.__init__ process io; threads := ∅; trace := [] |}.

(** One step of a thread inside [_send_request].  [flag] is the part the
    world decides: whether the write goes through, whether the time allowed
    for the wait has run out. *)
Definition advance (flag : bool) (pc : Pc) (c : McpClient)
  : McpClient * Pc * list Event :=
  match pc with
  | Allocated rid method params =>
      let '(c, fut) := add_pending rid c in
      (c, Inserted rid fut method params, [EvInsert rid fut])
  | Inserted rid fut method params =>
      let request := {| out_id := Some rid; out_method := method;
                        out_params := params_field params |} in
      match write request flag c with
      | (c, Ok _) => (c, Waiting rid fut method, [EvWrite rid])
      | (c, Raise e) => (c, Unwinding rid e, [])
      end
  | Waiting rid fut method =>
      let future := future_at fut c in
      if negb (done future) then
        if flag then (c, Expired rid method, [])
        else (c, Waiting rid fut method, [])
      else if truthy (error future) then
        (c, Unwinding rid (McpError (error future)), [])
      else (c, Finished rid (Ok (result future)), [])
  | Expired rid method =>
      (pop_pending rid c, Unwinding rid (TimeoutError method), [])
  | Unwinding rid e =>
      (pop_pending rid c, Finished rid (Raise e), [])
  | Finished rid r => (c, Finished rid r, [])
  end.

Inductive Action :=
| Call (tid : nat) (method : string) (params : Json)
| Step (tid : nat) (flag : bool)
| Receive (message : Json).

Definition in_call (s : Sys) (tid : nat) : bool :=
  match threads s !! tid with
  | None | Some (Finished _ _) => false
  | Some _ => true
  end.

(** [Call]: a thread that is not inside [_send_request] enters it and takes
    the next id.  [Receive]: one turn of the receive loop on a line that
    carries an id; a refresh started by the loop on a notification is a call
    like any other, made by the loop's thread.  An action that is not
    possible leaves the system as it is. *)
Definition exec (s : Sys) (a : Action) : Sys :=
  match a with
  | Call tid method params =>
      if in_call s tid then s
      else
        let '(c, rid) := next_request_id (conn s) in
        {| conn := c;
           threads := <[tid := Allocated rid method params]> (threads s);
           trace := trace s ++ [EvAlloc rid] |}
  | Step tid flag =>
      match threads s !! tid with
      | None => s
      | Some pc =>
          let '(c, pc, evs) := advance flag pc (conn s) in
          {| conn := c; threads := <[tid := pc]> (threads s);
             trace := trace s ++ evs |}
      end
  | Receive message =>
      match contains "id" message with
      | Ok true =>
          {| conn := on_line (Decoded message, true) (conn s);
             threads := threads s; trace := trace s |}
      | _ => s
      end
  end.

Definition run (acts : list Action) (s : Sys) : Sys := foldl exec s acts.

Definition allocs (t : list Event) : list Z :=
  omap (fun ev => match ev with EvAlloc rid => Some rid | _ => None end) t.

Definition inserts (t : list Event) : list (Z * nat) :=
  omap (fun ev => match ev with
                  | EvInsert rid fut => Some (rid, fut)
                  | _ => None
                  end) t.


End Threads.

(** ** Vocabulary of the properties *)

Module Spec.
Import Py Client.

(** The part of a connection that only [initialize] and a successful
    refresh write to. *)
Definition same_cache (c c' : McpClient) : Prop :=
  tools c' = tools c ∧ objects c' = objects c
  ∧ initialized c' = initialized c ∧ capabilities c' = capabilities c
  ∧ server_info c' = server_info c ∧ io c' = io c
  ∧ process c' = process c.

(** The cached tool list read through its references. *)
Definition descriptors (c : McpClient) : option (list Json) :=
  match tools c with
  | ToolList refs => Some ((fun a => default JNull (objects c !! a)) <$> refs)
  | _ => None
  end.

(** From [c] to [c'], only handshake lines were written and the cached
    tools were not touched. *)
Definition handshake_only (c c' : McpClient) : Prop :=
  ∃ lines,
    stdin c' = stdin c ++ lines
    ∧ Forall (fun m => out_method m = "initialize"
                       ∨ out_method m = "notifications/initialized") lines
    ∧ tools c' = tools c ∧ objects c' = objects c.

(** The request line [_send_request] writes for the id after [c]'s. *)
Definition request_line (method : string) (params : Json) (c : McpClient)
  : OutMsg :=
  {| out_id := Some (request_id c + 1)%Z; out_method := method;
     out_params := params_field params |}.

(** The pending table is in order: every slot refers to a future that
    exists and is not completed, under an id the counter has reached, and no
    two ids share a future. *)
Definition sound (c : McpClient) : Prop :=
  (∀ rid fut, pending_requests c !! rid = Some fut →
     fut < length (futures c)
     ∧ done (future_at fut c) = false
     ∧ (rid ≤ request_id c)%Z)
  ∧ (∀ rid1 rid2 fut,
       pending_requests c !! rid1 = Some fut →
       pending_requests c !! rid2 = Some fut → rid1 = rid2).

(** From [c] to [c']: the same slots, a counter that did not go back, and
    futures added at the end. *)
Definition grown (c c' : McpClient) : Prop :=
  pending_requests c' = pending_requests c
  ∧ (request_id c ≤ request_id c')%Z
  ∧ ∃ extra, futures c' = futures c ++ extra.

(** From [c] to [c']: the slot of [rid] was removed and its future [fut]
    completed. *)
Definition delivered (rid : Z) (fut : nat) (c c' : McpClient) : Prop :=
  pending_requests c !! rid = Some fut
  ∧ pending_requests c' = delete rid (pending_requests c)
  ∧ request_id c' = request_id c
  ∧ ∃ f, done f = true ∧ futures c' = <[fut := f]> (futures c).

(** The request [rid] of a caller that holds the future [fut]: if a slot
    is there for [rid], it is the caller's. *)
Definition tracks (rid : Z) (fut : nat) (c : McpClient) : Prop :=
  sound c
  ∧ (rid ≤ request_id c)%Z
  ∧ fut < length (futures c)
  ∧ ∀ fut', pending_requests c !! rid = Some fut' → fut' = fut.

(** No line of the inbox is a response to request [rid]. *)
Definition unanswered (rid : Z) (lines : list (Line * bool)) : Prop :=
  ∀ message relay j,
    (Decoded message, relay) ∈ lines →
    getitem message "id" = Ok j → hash_key j ≠ Ok (KeyInt rid).

(** The request a thread is busy with. *)
Definition rid_of (pc : Threads.Pc) : Z :=
  match pc with
  | Threads.Allocated rid _ _ | Threads.Inserted rid _ _ _
  | Threads.Waiting rid _ _ | Threads.Expired rid _
  | Threads.Unwinding rid _ | Threads.Finished rid _ => rid
  end.

(** What holds of a thread at each point of [_send_request]. *)
Definition pc_ok (s : Threads.Sys) (pc : Threads.Pc) : Prop :=
  match pc with
  | Threads.Allocated rid _ _ =>
      rid ∉ (Threads.inserts (Threads.trace s)).*1
  | Threads.Inserted rid fut _ _ | Threads.Waiting rid fut _ =>
      (rid, fut) ∈ Threads.inserts (Threads.trace s)
  | Threads.Expired rid _ | Threads.Unwinding rid _ =>
      rid ∈ (Threads.inserts (Threads.trace s)).*1
  | Threads.Finished rid _ =>
      rid ∈ (Threads.inserts (Threads.trace s)).*1
      ∧ pending_requests (Threads.conn s) !! rid = None
  end.

(** [n] steps in a row of one thread, its time being up. *)
Fixpoint settle (n : nat) (c : McpClient) (pc : Threads.Pc)
  : McpClient * Threads.Pc :=
  match n with
  | 0 => (c, pc)
  | S n =>
      let r := Threads.advance true pc c in
      settle n r.1.1 r.1.2
  end.

(** Every write of a request comes after the insertion of its slot. *)
Definition ordered (t : list Threads.Event) : Prop :=
  ∀ i rid, t !! i = Some (Threads.EvWrite rid) →
    ∃ j fut, j < i ∧ t !! j = Some (Threads.EvInsert rid fut).

(** The invariant of the interleaved executions. *)
Record inv (s : Threads.Sys) : Prop := {
  inv_sound : sound (Threads.conn s);
  inv_counter : (0 ≤ request_id (Threads.conn s))%Z;
  inv_allocs :
    Threads.allocs (Threads.trace s) = seqZ 1 (request_id (Threads.conn s));
  inv_futures :
    (Threads.inserts (Threads.trace s)).*2
    = seq 0 (length (futures (Threads.conn s)));
  inv_rids : NoDup (Threads.inserts (Threads.trace s)).*1;
  inv_inserted :
    ∀ rid, rid ∈ (Threads.inserts (Threads.trace s)).*1 →
           (1 ≤ rid ≤ request_id (Threads.conn s))%Z;
  inv_pending :
    ∀ rid fut, pending_requests (Threads.conn s) !! rid = Some fut →
               (rid, fut) ∈ Threads.inserts (Threads.trace s);
  inv_threads :
    ∀ tid pc, Threads.threads s !! tid = Some pc →
              pc_ok s pc ∧ (1 ≤ rid_of pc ≤ request_id (Threads.conn s))%Z;
  inv_owner :
    ∀ tid1 tid2 pc1 pc2,
      Threads.threads s !! tid1 = Some pc1 →
      Threads.threads s !! tid2 = Some pc2 →
      rid_of pc1 = rid_of pc2 → tid1 = tid2;
  inv_ordered : ordered (Threads.trace s)
}.

(** The descriptor objects of a connection are dictionaries with a name. *)
Definition well_formed (c : McpClient) : Prop :=
  ∃ refs, tools c = ToolList refs
    ∧ ∀ a, a ∈ refs →
        ∃ kv n, objects c !! a = Some (JDict kv) ∧ dict_get "name" kv = Some n.

(** The cached tool list of [c] contains a descriptor named [tool_name]. *)
Definition exposes (tool_name : string) (c : McpClient) : Prop :=
  ∃ refs a kv, tools c = ToolList refs ∧ a ∈ refs
    ∧ objects c !! a = Some (JDict kv)
    ∧ dict_get "name" kv = Some (JStr tool_name).

(** [start_server] returned success and changed neither the registrations
    nor the processes. *)
Definition noop_success (name : string) (config : Manager.Config)
    (e : Manager.StartEnv) (m : Manager.McpServerManager) : Prop :=
  ∃ m', Manager.start_server name config e m = (m', Ok true)
    ∧ Manager.active_processes m' = Manager.active_processes m
    ∧ Manager.mcp_clients m' = Manager.mcp_clients m
    ∧ Manager.procs m' = Manager.procs m.

(** A connection is registered under [name] and its process has not
    exited. *)
Definition live_connection (name : string) (m : Manager.McpServerManager)
  : Prop :=
  ∃ c, dict_get name (Manager.mcp_clients m) = Some c
    ∧ Proc.poll (Manager.proc_at (process c) m) = false.

(** The outcome of handing a tool call to the connection registered under
    [name]. *)
Definition routed (name tool_name : string) (arguments : Json) (w : Wire)
    (m : Manager.McpServerManager) (c : McpClient)
  : Manager.McpServerManager * Result Json :=
  let r := Client.call_tool tool_name arguments w c in
  (Manager.set_mcp_clients (dict_set name r.1 (Manager.mcp_clients m)) m, r.2).

(** From [c] to [c'], descriptor objects only gained or had overwritten
    the key ["_mcp_server"], and those tagged with [name] still are. *)
Definition retagged (name : string) (c c' : McpClient) : Prop :=
  tools c' = tools c
  ∧ length (objects c') = length (objects c)
  ∧ ∀ a kv, objects c !! a = Some (JDict kv) →
      ∃ kv', objects c' !! a = Some (JDict kv')
        ∧ (∀ k, k ≠ "_mcp_server" → dict_get k kv' = dict_get k kv)
        ∧ (dict_get "_mcp_server" kv = Some (JStr name) →
           dict_get "_mcp_server" kv' = Some (JStr name)).

(** The descriptors cached by the connection registered under [name]. *)
Definition cached (name : string) (m : Manager.McpServerManager)
  : option (list Json) :=
  match dict_get name (Manager.mcp_clients m) with
  | Some c => descriptors c
  | None => None
  end.

(** Every connection registered has its process registered. *)
Definition consistent (m : Manager.McpServerManager) : Prop :=
  ∀ name, dict_has name (Manager.mcp_clients m) = true →
          dict_has name (Manager.active_processes m) = true.

(** The cached tool list of [c] is a list whose elements are
    dictionaries. *)
Definition listed (c : McpClient) : Prop :=
  ∃ refs, tools c = ToolList refs
    ∧ ∀ a, a ∈ refs → ∃ kv, objects c !! a = Some (JDict kv).

(** The references held by the cached list. *)
Definition refs_of (c : McpClient) : list nat :=
  match tools c with
  | ToolList refs => refs
  | _ => []
  end.

(** The object at [a] is a dictionary that carries the tag [name]. *)
Definition tagged (name : string) (a : nat) (c : McpClient) : Prop :=
  ∃ kv, objects c !! a = Some (JDict kv)
    ∧ dict_get "_mcp_server" kv = Some (JStr name).

(** Every cached descriptor of every connection, by reference, in the order
    of the dictionary and of each list. *)
Definition all_refs (entries : list (string * McpClient))
  : list (string * Item) :=
  entries ≫= (fun p => (fun a => (p.1, ItemRef a)) <$> refs_of p.2).

(** What [get_all_tools] has done to one entry of [mcp_clients]. *)
Definition collected (p p' : string * McpClient) : Prop :=
  p'.1 = p.1 ∧ retagged p.1 p.2 p'.2
  ∧ ∀ a, a ∈ refs_of p.2 → tagged p.1 a p'.2.

(** The descriptor dictionary at [a]. *)
Definition dict_at (c : McpClient) (a : nat) : list (string * Json) :=
  match objects c !! a with
  | Some (JDict kv) => kv
  | _ => []
  end.

(** The tool in the format of the language model made from the descriptor
    [kv] of the server [server_name]. *)
Definition llm_tool (server_name : string) (kv : list (string * Json))
  : Json :=
  JDict [("type", JStr "function");
         ("function",
          JDict [("name", default JNull (dict_get "name" kv));
                 ("description",
                  default (JStr "") (dict_get "description" kv));
                 ("parameters",
                  default Integration.default_schema
                    (dict_get "inputSchema" kv))]);
         ("_mcp_server", JStr server_name)].

(** One such tool for every cached descriptor of every connection, in the
    order of the dictionary and of each list. *)
Definition llm_tools (entries : list (string * McpClient)) : list Json :=
  entries ≫= (fun p => (fun a => llm_tool p.1 (dict_at p.2 a)) <$> refs_of p.2).

(** The names of all cached descriptors, in the same order. *)
Definition names_in (entries : list (string * McpClient)) : list Json :=
  entries
  ≫= (fun p =>
        (fun a => default JNull (dict_get "name" (dict_at p.2 a)))
        <$> refs_of p.2).

Definition is_str (j : Json) : bool :=
  match j with
  | JStr _ => true
  | _ => false
  end.

(** What one item of a tool result's content contributes to the formatted
    text, for the items the code knows how to read: a text, an image, an
    audio clip, a resource with or without text of its own, and an item of
    any other type, which contributes nothing. *)
Inductive rendered (format : Json -> string) : Json -> list string -> Prop :=
| rendered_text kv s :
    dict_get "type" kv = Some (JStr "text") →
    default (JStr "") (dict_get "text" kv) = JStr s →
    rendered format (JDict kv) [s]
| rendered_image kv :
    dict_get "type" kv = Some (JStr "image") →
    rendered format (JDict kv)
      ["[Image: "
       +:+ format (default (JStr "unknown") (dict_get "mimeType" kv))
       +:+ "]"]
| rendered_audio kv :
    dict_get "type" kv = Some (JStr "audio") →
    rendered format (JDict kv)
      ["[Audio: "
       +:+ format (default (JStr "unknown") (dict_get "mimeType" kv))
       +:+ "]"]
| rendered_resource kv resource :
    dict_get "type" kv = Some (JStr "resource") →
    default (JDict []) (dict_get "resource" kv) = JDict resource →
    truthy (default JNull (dict_get "text" resource)) = false →
    rendered format (JDict kv)
      ["[Resource: "
       +:+ format (default (JStr "unknown") (dict_get "uri" resource))
       +:+ "]"]
| rendered_resource_text kv resource s :
    dict_get "type" kv = Some (JStr "resource") →
    default (JDict []) (dict_get "resource" kv) = JDict resource →
    dict_get "text" resource = Some (JStr s) → s ≠ "" →
    rendered format (JDict kv)
      ["[Resource: "
       +:+ format (default (JStr "unknown") (dict_get "uri" resource))
       +:+ "]"; s]
| rendered_other kv :
    (∀ s, dict_get "type" kv = Some (JStr s) →
          s ∉ ["text"; "image"; "audio"; "resource"]) →
    rendered format (JDict kv) [].

(** A content item that is not of type text. *)
Definition not_text (item : Json) : Prop :=
  ∃ kv, item = JDict kv ∧ dict_get "type" kv ≠ Some (JStr "text").

(** A message that is a dictionary. *)
Definition is_message (message : Json) : Prop := ∃ kv, message = JDict kv.

(** A message whose role is not ["system"]. *)
Definition plain_message (message : Json) : Prop :=
  ∃ kv, message = JDict kv ∧ dict_get "role" kv ≠ Some (JStr "system").

(** No slot of the table refers to the future [fut]. *)
Definition settled (fut : nat) (c : McpClient) : Prop :=
  fut < length (futures c) ∧ ∀ rid, pending_requests c !! rid ≠ Some fut.

(** Something happens to the connection registered under [name]. *)
Definition on_client (f : McpClient -> McpClient) (name : string)
    (m : Manager.McpServerManager) : Manager.McpServerManager :=
  match dict_get name (Manager.mcp_clients m) with
  | Some c =>
      Manager.set_mcp_clients (dict_set name (f c) (Manager.mcp_clients m)) m
  | None => m
  end.

(** The states of a manager: a new one, and the state after any of its
    operations, after the receive loop of a connection has handled some
    lines, after some caller has refreshed the tools of a connection, and
    after a child has exited on its own. *)
Inductive reachable : Manager.McpServerManager -> Prop :=
| reach_init io : reachable (Manager.__init__ io)
| reach_start name config e m :
    reachable m → reachable (Manager.start_server name config e m).1
| reach_stop name m : reachable m → reachable (Manager.stop_server name m).1
| reach_stop_all m : reachable m → reachable (Manager.stop_all_servers m).1
| reach_get_all_tools m :
    reachable m → reachable (Manager.get_all_tools m).1
| reach_call_tool tool_name arguments server_name e m :
    reachable m →
    reachable (Manager.call_tool tool_name arguments server_name (wire e) m).1
| reach_load_config file m :
    reachable m → reachable (Manager.load_config_from_file file m).1
| reach_receive name lines m :
    reachable m → reachable (on_client (_read_responses lines) name m)
| reach_refresh name e m :
    reachable m → reachable (on_client (_refresh_tools (wire e)) name m)
| reach_exit pid m : reachable m → reachable (Manager.on_proc Proc.gone pid m).

(** A registered connection is initialized, its pending table is in order,
    and it talks to the process registered under the same name. *)
Definition registered_ok (m : Manager.McpServerManager)
    (p : string * McpClient) : Prop :=
  initialized p.2 = true ∧ sound p.2
  ∧ dict_get p.1 (Manager.active_processes m) = Some (process p.2).

(** The registered handles name processes of the table, each one once. *)
Definition handles_ok (m : Manager.McpServerManager) : Prop :=
  NoDup (Manager.active_processes m).*2
  ∧ Forall (fun p => p.2 < length (Manager.procs m))
      (Manager.active_processes m).

(** From [c] to [c'], a connection is as initialized as it was, keeps its
    process, and its pending table stays in order. *)
Definition kept (c c' : McpClient) : Prop :=
  initialized c' = initialized c ∧ process c' = process c
  ∧ (sound c → sound c').

(** What holds of every state of a manager. *)
Record managed (m : Manager.McpServerManager) : Prop := {
  managed_consistent : consistent m;
  managed_clients : NoDup (dict_keys (Manager.mcp_clients m));
  managed_processes : NoDup (dict_keys (Manager.active_processes m));
  managed_registered : Forall (registered_ok m) (Manager.mcp_clients m);
  managed_handles : handles_ok m
}.

(** [tool["name"] == tool_name], of a descriptor that has a name. *)
Definition named (tool_name : string) (d : Json) : bool :=
  match d with
  | JDict kv =>
      match dict_get "name" kv with
      | Some n => eq_str n tool_name
      | None => false
      end
  | _ => false
  end.

(** The descriptors that [any(tool["name"] == tool_name for tool in tools)]
    looks at: [any] stops at the first one of that name. *)
Fixpoint examined (tool_name : string) (ds : list Json) : list Json :=
  match ds with
  | [] => []
  | d :: rest =>
      d :: (if named tool_name d then [] else examined tool_name rest)
  end.

Definition has_name (d : Json) : Prop :=
  ∃ kv n, d = JDict kv ∧ dict_get "name" kv = Some n.

(** The cache of [c] is a list, and the descriptors that the search for
    [tool_name] looks at in it are dictionaries with a name.  Nothing is said
    of the descriptors after the first one of that name. *)
Definition searchable (tool_name : string) (c : McpClient) : Prop :=
  ∃ ds, descriptors c = Some ds ∧ Forall has_name (examined tool_name ds).

End Spec.

(** ** Concrete runs *)

Module Scenario.
Import Py Client.

(** A response line carrying a result. *)
Definition answer (rid : Z) (result : Json) : Line * bool :=
  (Decoded (JDict [("jsonrpc", JStr "2.0"); ("id", JInt rid);
                   ("result", result)]), true).

(** A server that declares tool support and answers everything. *)
Definition hello_result : Json :=
  JDict [("capabilities", JDict [("tools", JDict [])]);
         ("serverInfo", JDict [("name", JStr "srv")])].

Definition tool_x : Json := JDict [("name", JStr "x")].

Definition hello_env : Env :=
  {| sent := true; inbox := [answer 1 hello_result] |}.

Definition listing_env (rid : Z) : Env :=
  {| sent := true;
     inbox := [answer rid (JDict [("tools", JList [tool_x])])] |}.

Definition silent_env : Env := {| sent := true; inbox := [] |}.

(** Only a response to some other request comes in. *)
Definition stray_env : Env := {| sent := true; inbox := [answer 9 JNull] |}.

Definition fresh : McpClient := Client.__init__ 0 true.

(** The connection after a handshake with that server. *)
Definition ready : McpClient :=
  (initialize (wire hello_env) true (wire (listing_env 2)) fresh).1.

(** The same connection once a later refresh has filled the cache. *)
Definition stocked : McpClient := _refresh_tools (wire (listing_env 2)) ready.

(** A connection to a server that declares no tool support. *)
Definition plain : McpClient :=
  (initialize
     (wire {| sent := true;
              inbox := [answer 1 (JDict [("capabilities", JDict [])])] |})
     true (wire silent_env) fresh).1.

(** Two callers on one connection.  Thread 0 and thread 1 take their ids,
    thread 1 inserts and writes first, the response to thread 0 overtakes
    the one to thread 1, which is never sent: thread 0 returns its result and
    thread 1 times out. *)
Definition two_callers : list Threads.Action :=
  [Threads.Call 0 "tools/call" (JDict [("name", JStr "x")]);
   Threads.Call 1 "tools/list" JNull;
   Threads.Step 1 true;                  (* thread 1 inserts its slot *)
   Threads.Step 1 true;                  (* thread 1 writes *)
   Threads.Step 0 true;                  (* thread 0 inserts its slot *)
   Threads.Step 0 true;                  (* thread 0 writes *)
   Threads.Receive (JDict [("id", JInt 1); ("result", JStr "done")]);
   Threads.Step 0 false;                 (* thread 0 sees its future done *)
   Threads.Step 1 true;                  (* thread 1: time is up *)
   Threads.Step 1 true;                  (* thread 1 removes its slot *)
   Threads.Step 1 true;                  (* and again, in the handler *)
   Threads.Receive (JDict [("id", JInt 2); ("result", JStr "late")])].

(** A manager with a sink, a launch spec, and a start that goes well. *)
Definition config : Manager.Config :=
  {| Manager.command := Some "srv"; Manager.args := []; Manager.env := [] |}.

Definition good_start : Manager.StartEnv :=
  {| Manager.child := Ok (Proc.spawned true true false);
     Manager.hello := hello_env; Manager.notified := true;
     Manager.listing := listing_env 2 |}.

Definition started (name : string) (m : Manager.McpServerManager)
  : Manager.McpServerManager :=
  (Manager.start_server name config good_start m).1.

(** A child that ignores the end of its input and the termination signal. *)
Definition stubborn_start : Manager.StartEnv :=
  {| Manager.child := Ok (Proc.spawned false false false);
     Manager.hello := hello_env; Manager.notified := true;
     Manager.listing := listing_env 2 |}.

(** The server does not answer the handshake. *)
Definition mute_start : Manager.StartEnv :=
  {| Manager.child := Ok (Proc.spawned true true false);
     Manager.hello := silent_env; Manager.notified := true;
     Manager.listing := silent_env |}.

(** Some caller refreshes the tool list of the connection registered under
    [name]. *)
Definition refreshed (name : string) (e : Env) (m : Manager.McpServerManager)
  : Manager.McpServerManager :=
  match dict_get name (Manager.mcp_clients m) with
  | Some c =>
      Manager.set_mcp_clients
        (dict_set name (_refresh_tools (wire e) c) (Manager.mcp_clients m)) m
  | None => m
  end.

(** One server ["A"], whose tool list has been fetched. *)
Definition serving : Manager.McpServerManager :=
  refreshed "A" (listing_env 2) (started "A" (Manager.__init__ true)).

(** The same manager after the child of ["A"] has exited on its own. *)
Definition bereft : Manager.McpServerManager :=
  Manager.on_proc Proc.gone 0 serving.

(** A server registered under the empty name, besides ["A"]. *)
Definition unnamed : Manager.McpServerManager := started "" serving.

(** ["A"] as above and ["B"], whose child hangs on shutdown. *)
Definition hanging : Manager.McpServerManager :=
  (Manager.start_server "B" config stubborn_start serving).1.

(** The server answers the next tool call of a connection that has made
    [rid - 1] requests. *)
Definition call_env (rid : Z) : Env :=
  {| sent := true; inbox := [answer rid (JDict [("content", JList [])])] |}.

(** Other traffic, then the response to request [rid], then a second
    response to the same request. *)
Definition busy_env (rid : Z) : Env :=
  {| sent := true;
     inbox := [(Garbled, true); answer 9 JNull; answer rid (JStr "pong");
               answer rid (JStr "late")] |}.

(** A response that carries an error member. *)
Definition refusal (rid : Z) (error : Json) : Env :=
  {| sent := true;
     inbox := [(Decoded (JDict [("jsonrpc", JStr "2.0"); ("id", JInt rid);
                                ("error", error)]), true)] |}.

(** The pipe does not take the line. *)
Definition broken_env : Env := {| sent := false; inbox := [] |}.

(** The notification that the server's tool list changed. *)
Definition list_changed : list (string * Json) :=
  [("jsonrpc", JStr "2.0");
   ("method", JStr "notifications/tools/list_changed")].

(** The server of ["A"] lists the tool [x] and, after it, a number; a
    second server is registered under the empty name. *)
Definition ragged_env (rid : Z) : Env :=
  {| sent := true;
     inbox := [answer rid (JDict [("tools", JList [tool_x; JInt 5])])] |}.

Definition ragged : Manager.McpServerManager :=
  started ""
    (refreshed "A" (ragged_env 2) (started "A" (Manager.__init__ true))).

(** A manager made without a sink, [McpServerManager()], on which
    [start_server] was called for ["A"] and for ["B"]; both servers answered
    the handshake. *)
Definition unheard : Manager.McpServerManager :=
  started "B" (started "A" (Manager.__init__ false)).

(** An integration over [serving], before and after its first query; and
    one over a manager whose server ["A"] has been stopped since. *)
Definition assistant : Integration.McpToolsIntegration :=
  Integration.__init__ (Some serving) true.

Definition informed : Integration.McpToolsIntegration :=
  (Integration.get_tools_for_llm assistant).1.

(** A stand-in for [str]: exact on strings, which are all that the runs
    below interpolate. *)
Definition str (j : Json) : string :=
  match j with
  | JStr s => s
  | _ => "?"
  end.

(** A tool result with one item of each kind. *)
Definition mixed_content : list Json :=
  [JDict [("type", JStr "text"); ("text", JStr "Text content")];
   JDict [("type", JStr "image"); ("mimeType", JStr "image/png")];
   JDict [("type", JStr "audio"); ("mimeType", JStr "audio/wav")];
   JDict [("type", JStr "resource");
          ("resource", JDict [("uri", JStr "file://test.txt");
                              ("text", JStr "Resource content")])];
   JDict [("type", JStr "video")]].

(** A conversation with a system message in second place. *)
Definition user_message (text : string) : Json :=
  JDict [("role", JStr "user"); ("content", JStr text)].

Definition system_message : list (string * Json) :=
  [("role", JStr "system"); ("content", JStr "Be brief.")].

End Scenario.

(** * Properties *)

Import Py Spec.

Arguments Client._send_request : simpl never.
Arguments Client._refresh_tools : simpl never.
Arguments Client._handle_message : simpl never.
Arguments Client._read_responses : simpl never.
Arguments Client.on_line : simpl never.
Arguments Client.report : simpl never.
Arguments Client.initialize : simpl never.
Arguments Client.call_tool : simpl never.

(** ** Dictionaries *)

Section DictFacts.
Context {K V : Type} `{EqDecision K}.
Implicit Types (k : K) (v : V) (d : list (K * V)).

Lemma dict_has_false k d : dict_has k d = false ↔ dict_get k d = None.
Proof. unfold dict_has. destruct (dict_get k d); naive_solver. Qed.

Lemma dict_has_true k d : dict_has k d = true ↔ is_Some (dict_get k d).
Proof.
  unfold dict_has. destruct (dict_get k d); split; try done.
Qed.

Lemma dict_get_del k d : dict_get k (dict_del k d) = None.
Proof.
  induction d as [|[k' v'] d IH]; cbn; [done|].
  destruct (decide (k = k')) as [->|Hne]; [done|].
  cbn. by rewrite decide_False.
Qed.

Lemma dict_get_del_ne k k' d :
  k ≠ k' → dict_get k (dict_del k' d) = dict_get k d.
Proof.
  intros Hne. induction d as [|[k0 v0] d IH]; cbn; [done|].
  destruct (decide (k' = k0)) as [->|Hne'].
  - by rewrite decide_False.
  - cbn. by rewrite IH.
Qed.

Lemma dict_del_absent k d : dict_get k d = None → dict_del k d = d.
Proof.
  induction d as [|[k' v'] d IH]; cbn; [done|].
  destruct (decide (k = k')); [done|]. intros H. by rewrite IH.
Qed.

Lemma dict_del_set_absent k v d :
  dict_get k d = None → dict_del k (dict_set k v d) = d.
Proof.
  induction d as [|[k' v'] d IH]; cbn.
  - by rewrite decide_True.
  - destruct (decide (k = k')); [done|]. intros H. cbn.
    rewrite decide_False by done. by rewrite IH.
Qed.

Lemma dict_get_set k v d : dict_get k (dict_set k v d) = Some v.
Proof.
  induction d as [|[k' v'] d IH]; cbn.
  - by rewrite decide_True.
  - destruct (decide (k = k')) as [->|Hne]; cbn.
    + by rewrite decide_True.
    + by rewrite decide_False.
Qed.

Lemma dict_get_set_ne k k' v d :
  k ≠ k' → dict_get k (dict_set k' v d) = dict_get k d.
Proof.
  intros Hne. induction d as [|[k0 v0] d IH]; cbn.
  - by rewrite decide_False.
  - destruct (decide (k' = k0)) as [->|Hne']; cbn.
    + by rewrite !decide_False.
    + by rewrite IH.
Qed.

Lemma elem_of_dict_del p k d : p ∈ dict_del k d → p ∈ d ∧ p.1 ≠ k.
Proof.
  induction d as [|[k' v'] d IH]; cbn; [by intros ?%elem_of_nil|].
  destruct (decide (k = k')) as [->|Hne].
  - intros [? ?]%IH. split; [by right|done].
  - intros [->|[? ?]%IH]%elem_of_cons; [split; [by left|]|split; [by right|done]].
    cbn. congruence.
Qed.

(** Deleting every key empties the dictionary. *)
Lemma dict_del_all (names : list K) d :
  (∀ p, p ∈ d → p.1 ∈ names) →
  foldl (fun d k => dict_del k d) d names = [].
Proof.
  revert d. induction names as [|k names IH]; intros d Hd; cbn.
  - destruct d as [|p d]; [done|]. exfalso.
    by eapply elem_of_nil, (Hd p); left.
  - apply IH. intros p [Hp Hne]%elem_of_dict_del.
    specialize (Hd p Hp). apply elem_of_cons in Hd as [?|?]; done.
Qed.

Lemma dict_get_elem k d : is_Some (dict_get k d) ↔ k ∈ dict_keys d.
Proof.
  unfold dict_keys. induction d as [|[k' v'] d IH]; cbn.
  - split; [by intros [? [=]]|by intros ?%elem_of_nil].
  - destruct (decide (k = k')) as [->|Hne].
    + split; [by left|by eexists].
    + rewrite IH. split; [by right|].
      by intros [?|?]%elem_of_cons.
Qed.
End DictFacts.

(** ** What the receive loop and a request leave alone *)

Section Frame.
Import Client.

Lemma same_cache_refl c : same_cache c c.
Proof. by repeat split. Qed.

Lemma same_cache_trans c1 c2 c3 :
  same_cache c1 c2 → same_cache c2 c3 → same_cache c1 c3.
Proof.
  intros (?&?&?&?&?&?&?) (?&?&?&?&?&?&?).
  repeat split; congruence.
Qed.

Lemma same_cache_report d c : same_cache c (report d c).
Proof. unfold report. destruct (io c); by repeat split. Qed.

Lemma same_cache_pop rid c : same_cache c (pop_pending rid c).
Proof. by repeat split. Qed.

Lemma same_cache_write m ok c : same_cache c (write m ok c).1.
Proof. unfold write. destruct ok; by repeat split. Qed.

Lemma same_cache_add_pending rid c : same_cache c (add_pending rid c).1.
Proof. by repeat split. Qed.

Lemma same_cache_next c : same_cache c (next_request_id c).1.
Proof. by repeat split. Qed.

(** A request leaves the cache alone as soon as whatever happens during
    its wait does. *)
Lemma same_cache_send_request method params w c :
  (∀ c0, same_cache c0 (meanwhile w c0)) →
  same_cache c (_send_request method params w c).1.
Proof.
  intros Hw. unfold _send_request.
  destruct (next_request_id c) as [c1 rid] eqn:E1.
  destruct (add_pending rid c1) as [c2 fut] eqn:E2.
  assert (H2 : same_cache c c2).
  { eapply same_cache_trans; [apply (same_cache_next c)|].
    rewrite E1. cbn. replace c2 with (add_pending rid c1).1 by by rewrite E2.
    apply same_cache_add_pending. }
  destruct (write_ok w); cbn.
  - set (c3 := set_stdin _ c2).
    assert (H3 : same_cache c (meanwhile w c3)).
    { eapply same_cache_trans; [exact H2|].
      eapply same_cache_trans; [|apply Hw]. by repeat split. }
    destruct (done _); cbn.
    + destruct (truthy _); cbn; [|done].
      eapply same_cache_trans; [exact H3|apply same_cache_pop].
    + eapply same_cache_trans; [exact H3|].
      eapply same_cache_trans; apply same_cache_pop.
  - eapply same_cache_trans; [exact H2|apply same_cache_pop].
Qed.

(** A request sent from the receive loop's own thread is never answered:
    nobody reads the pipe while the loop waits. *)
Lemma send_request_unattended method params ok c :
  ∃ e, (_send_request method params
          {| write_ok := ok; meanwhile := id |} c).2 = Raise e.
Proof.
  unfold _send_request, next_request_id, add_pending, write. cbn.
  destruct ok; cbn; [|by eexists].
  unfold future_at. cbn.
  rewrite lookup_app_r by done. rewrite Nat.sub_diag. cbn. by eexists.
Qed.

Lemma same_cache_refresh_unattended ok c :
  same_cache c (_refresh_tools {| write_ok := ok; meanwhile := id |} c).
Proof.
  unfold _refresh_tools.
  destruct (initialized c); cbn; [|apply same_cache_refl].
  destruct (contains "tools" (capabilities c)) as [[]|];
    [|apply same_cache_refl|apply same_cache_report].
  pose proof (send_request_unattended "tools/list" JNull ok c) as [e He].
  pose proof (same_cache_send_request "tools/list" JNull
                {| write_ok := ok; meanwhile := id |} c) as Hs.
  destruct (_send_request _ _ _ c) as [c1 r]. cbn in He, Hs. subst r.
  eapply same_cache_trans; [apply Hs; intros; apply same_cache_refl|].
  apply same_cache_report.
Qed.

Lemma same_cache_handle_message relay message c :
  same_cache c (_handle_message relay message c).1.
Proof.
  unfold _handle_message.
  destruct (contains "id" message) as [[]|]; cbn;
    [| |apply same_cache_refl].
  - destruct (getitem message "id") as [j|]; [|apply same_cache_refl].
    destruct (hash_key j) as [[rid|]|]; try apply same_cache_refl.
    destruct (pending_requests c !! rid) as [fut|];
      [|apply same_cache_refl].
    destruct (contains "error" message) as [[]|]; cbn;
      [| |by repeat split].
    + destruct (getitem message "error"); by repeat split.
    + destruct (get message "result" JNull); by repeat split.
  - destruct (get message "method" (JStr "")) as [method|];
      [|apply same_cache_refl].
    destruct (eq_str method _); cbn; [|apply same_cache_refl].
    apply same_cache_refresh_unattended.
Qed.

Lemma same_cache_on_line l c : same_cache c (on_line l c).
Proof.
  unfold on_line. destruct l.1 as [|message].
  - apply same_cache_report.
  - pose proof (same_cache_handle_message l.2 message c) as H.
    destruct (_handle_message _ _ _) as [c1 [|]]; cbn in *; [done|].
    eapply same_cache_trans; [exact H|apply same_cache_report].
Qed.

Lemma same_cache_read_responses lines c :
  same_cache c (_read_responses lines c).
Proof.
  unfold _read_responses. revert c.
  induction lines as [|l lines IH]; intros c; cbn.
  - apply same_cache_refl.
  - eapply same_cache_trans; [apply same_cache_on_line|apply IH].
Qed.

Lemma same_cache_send_request_wire method params e c :
  same_cache c (_send_request method params (wire e) c).1.
Proof.
  apply same_cache_send_request. intros c0.
  apply same_cache_read_responses.
Qed.
End Frame.

(** ** The handshake *)

Section Handshake.
Import Client.

Lemma refresh_uninitialized w c :
  initialized c = false → _refresh_tools w c = c.
Proof. intros H. unfold _refresh_tools. by rewrite H. Qed.

Lemma handle_message_stdin_uninit relay message c :
  initialized c = false →
  stdin (_handle_message relay message c).1 = stdin c.
Proof.
  intros Hi. unfold _handle_message.
  destruct (contains "id" message) as [[]|]; cbn; [| |done].
  - destruct (getitem message "id") as [j|]; [|done].
    destruct (hash_key j) as [[rid|]|]; try done.
    destruct (pending_requests c !! rid) as [fut|]; [|done].
    destruct (contains "error" message) as [[]|]; cbn; [| |done].
    + by destruct (getitem message "error").
    + by destruct (get message "result" JNull).
  - destruct (get message "method" (JStr "")) as [method|]; [|done].
    destruct (eq_str method _); cbn; [|done].
    by rewrite refresh_uninitialized.
Qed.

Lemma report_stdin d c : stdin (report d c) = stdin c.
Proof. unfold report. by destruct (io c). Qed.

Lemma read_responses_stdin_uninit lines c :
  initialized c = false → stdin (_read_responses lines c) = stdin c.
Proof.
  unfold _read_responses. revert c.
  induction lines as [|l lines IH]; intros c Hi; cbn; [done|].
  assert (Hl : initialized (on_line l c) = false).
  { pose proof (same_cache_on_line l c) as (_&_&->&_). done. }
  rewrite (IH _ Hl). unfold on_line. destruct l.1 as [|message].
  - apply report_stdin.
  - pose proof (handle_message_stdin_uninit l.2 message c Hi) as H.
    destruct (_handle_message _ _ _) as [c1 [|]]; cbn in H; [done|].
    by rewrite report_stdin.
Qed.

Lemma send_request_stdin_uninit method params e c :
  initialized c = false →
  stdin (_send_request method params (wire e) c).1
  = stdin c ++ (if sent e then [request_line method params c] else []).
Proof.
  intros Hi. unfold _send_request, next_request_id, add_pending, write.
  cbn. destruct (sent e); cbn; [|by rewrite app_nil_r].
  set (c3 := set_stdin _ _).
  assert (H3 : stdin (_read_responses (inbox e) c3)
               = stdin c ++ [request_line method params c]).
  { by rewrite read_responses_stdin_uninit. }
  destruct (done _); cbn; [|done].
  by destruct (truthy _).
Qed.

Lemma handshake_only_same c c1 c2 :
  handshake_only c c1 →
  stdin c2 = stdin c1 → tools c2 = tools c1 → objects c2 = objects c1 →
  handshake_only c c2.
Proof.
  intros (lines & Hs & Hl & Ht & Ho) E1 E2 E3. exists lines.
  split; [congruence|]. split; [done|]. split; congruence.
Qed.

Lemma handshake_only_report d c c1 :
  handshake_only c c1 → handshake_only c (report d c1).
Proof.
  intros H. eapply handshake_only_same; [exact H|..];
    unfold report; by destruct (io c1).
Qed.

Lemma handshake_only_write m c c1 :
  out_method m = "initialize" ∨ out_method m = "notifications/initialized" →
  handshake_only c c1 →
  handshake_only c (set_stdin (stdin c1 ++ [m]) c1).
Proof.
  intros Hm (lines & Hs & Hl & Ht & Ho). exists (lines ++ [m]).
  split; [cbn; by rewrite Hs, app_assoc|].
  split; [|done].
  apply Forall_app. split; [done|]. by constructor.
Qed.

(** The lines [initialize] writes on a connection that is not yet
    initialized: the request, then the notification, and nothing else.
    The cached tools are what they were. *)
Lemma initialize_lines e1 notified e2 c :
  initialized c = false →
  handshake_only c (initialize (wire e1) notified (wire e2) c).1.
Proof.
  intros Hi. unfold initialize.
  pose proof (send_request_stdin_uninit "initialize" init_params e1 c Hi)
    as Hs.
  pose proof (same_cache_send_request_wire "initialize" init_params e1 c)
    as (Ht & Ho & Hini & _).
  destruct (_send_request _ _ _ c) as [c1 r]. cbn in Hs, Ht, Ho, Hini.
  assert (H1 : handshake_only c c1).
  { eexists. split; [exact Hs|]. split; [|done].
    destruct (sent e1); constructor; [by left|constructor]. }
  destruct r as [result|]; [|by apply handshake_only_report].
  destruct (get result "capabilities" (JDict [])) as [caps|];
    [|by apply handshake_only_report].
  assert (H2 : ∀ info, handshake_only c
                 (set_server_info info (set_capabilities caps c1))).
  { intros info. by eapply handshake_only_same. }
  destruct (get result "serverInfo" (JDict [])) as [info|].
  2:{ apply handshake_only_report. by eapply handshake_only_same. }
  unfold _send_notification, write.
  destruct notified; [|by apply handshake_only_report].
  rewrite refresh_uninitialized by (cbn; congruence).
  set (c2 := set_stdin _ _).
  assert (H3 : handshake_only c (set_initialized true c2)).
  { eapply handshake_only_same; [apply handshake_only_write|..];
      [|apply (H2 info)|done..]. by right. }
  destruct (io _); [|done].
  destruct (get _ "name" _); cbn; by apply handshake_only_report.
Qed.
End Handshake.

(** C1, as the code has it.  On a connection that is not yet initialized,
    [initialize] writes the initialize request and the initialized
    notification and nothing else: no [tools/list] request is issued and the
    cached tool list is what it was, whatever the server declared and
    answered.  The refresh it calls returns at once, because [initialized]
    is set only after that call. *)
Theorem initialize_skips_tool_fetch
    (e1 : Client.Env) (notified : bool) (e2 : Client.Env)
    (c : Client.McpClient) :
  Client.initialized c = false →
  let c' := (Client.initialize (Client.wire e1) notified (Client.wire e2) c).1
  in
  Forall (fun m => Client.out_method m ≠ "tools/list")
    (drop (length (Client.stdin c)) (Client.stdin c'))
  ∧ Client.tools c' = Client.tools c
  ∧ Client.objects c' = Client.objects c.
Proof.
  intros Hi. cbn zeta.
  destruct (initialize_lines e1 notified e2 c Hi) as (lines & Hs & Hl & Ht & Ho).
  split; [|done]. rewrite Hs, drop_app_length.
  eapply Forall_impl; [exact Hl|]. intros m [-> | ->]; discriminate.
Qed.

(** The handshake with a server that declares tool support succeeds and
    leaves the cache empty, with two lines written. *)
Lemma initialize_skips_tool_fetch_witness :
  let r := Client.initialize (Client.wire Scenario.hello_env) true
             (Client.wire (Scenario.listing_env 2)) Scenario.fresh in
  r.2 = true
  ∧ Client.initialized r.1 = true
  ∧ contains "tools" (Client.capabilities r.1) = Ok true
  ∧ Client.out_method <$> Client.stdin r.1
    = ["initialize"; "notifications/initialized"]
  ∧ Client.tools r.1 = Client.ToolList []
  ∧ Client.objects r.1 = [].
Proof.
  cbn zeta. do 4 (split; [vm_compute; reflexivity|]).
  apply (initialize_skips_tool_fetch Scenario.hello_env true
           (Scenario.listing_env 2) Scenario.fresh).
  reflexivity.
Defined.

(** With a sink attached, a [serverInfo] that is not a dictionary makes the
    report of success fail after [initialized] was set: [initialize] returns
    [False] on a connection that says it is initialized. *)
Example initialize_false_yet_initialized :
  let e := {| Client.sent := true;
              Client.inbox :=
                [Scenario.answer 1 (JDict [("serverInfo", JNull)])] |} in
  let r := Client.initialize (Client.wire e) true
             (Client.wire Scenario.silent_env) Scenario.fresh in
  r.2 = false ∧ Client.initialized r.1 = true.
Proof. vm_compute. done. Qed.

(** ** The connection's tool operations *)

(** C7.  On a connection whose [initialized] is false, [call_tool] raises at
    once and the connection is exactly what it was: no request id has been
    taken, no slot inserted and nothing written to the process. *)
Theorem call_tool_uninitialized
    (name : string) (arguments : Json) (w : Client.Wire)
    (c : Client.McpClient) :
  Client.initialized c = false →
  let r := Client.call_tool name arguments w c in
  r.2 = Raise NotInitialized
  ∧ r.1 = c
  ∧ Client.request_id r.1 = Client.request_id c
  ∧ Client.pending_requests r.1 = Client.pending_requests c
  ∧ Client.stdin r.1 = Client.stdin c.
Proof.
  intros Hi. unfold Client.call_tool. rewrite Hi. cbn. done.
Qed.

Lemma call_tool_uninitialized_witness :
  let r := Client.call_tool "x" (JDict []) (Client.wire Scenario.silent_env)
             Scenario.fresh in
  r.2 = Raise NotInitialized
  ∧ r.1 = Scenario.fresh
  ∧ Client.request_id r.1 = 0%Z
  ∧ Client.pending_requests r.1 = ∅
  ∧ Client.stdin r.1 = [].
Proof.
  apply (call_tool_uninitialized "x" (JDict [])
           (Client.wire Scenario.silent_env) Scenario.fresh).
  reflexivity.
Defined.

Section Refresh.
Import Client.

Lemma descriptors_assign_list l c :
  descriptors (assign_tools (JList l) c) = Some l.
Proof.
  unfold descriptors. cbn. f_equal.
  generalize (objects c) as objs. induction l as [|x l IH]; intros objs.
  - done.
  - cbn. rewrite lookup_app_r by done. rewrite Nat.sub_diag. cbn. f_equal.
    specialize (IH (objs ++ [x])).
    rewrite length_app in IH. cbn in IH.
    rewrite Nat.add_1_r, <- app_assoc in IH. exact IH.
Qed.

(** The references of a newly assigned list are new ones. *)
Lemma assign_list_fresh l c a :
  tools (assign_tools (JList l) c) = ToolList (seq (length (objects c))
                                                   (length l))
  ∧ (a ∈ seq (length (objects c)) (length l) → objects c !! a = None).
Proof.
  split; [done|]. intros [Ha _]%elem_of_seq.
  by apply lookup_ge_None.
Qed.

Lemma assign_tools_cache v c1 c :
  objects c1 = objects c →
  tools (assign_tools v c1) = tools (assign_tools v c)
  ∧ objects (assign_tools v c1) = objects (assign_tools v c).
Proof. intros H. destruct v; cbn; by rewrite ?H. Qed.

Lemma report_cache d c :
  tools (report d c) = tools c ∧ objects (report d c) = objects c.
Proof. by pose proof (same_cache_report d c) as (-> & -> & _). Qed.
End Refresh.

(** C8.  [_refresh_tools] leaves the connection as it is when it is not
    initialized; it sends nothing and keeps the cached list when the
    capabilities do not contain ["tools"]; it keeps the cached list when the
    [tools/list] request raises, and when the result is not a dictionary.
    When the request returns a dictionary, the cache becomes what the
    response holds under ["tools"] (the empty list when the key is absent),
    whatever it held before: for a list [l], the cached descriptors are
    exactly [l]. *)
Theorem refresh_tools_frame (e : Client.Env) (c : Client.McpClient) :
  let c' := Client._refresh_tools (Client.wire e) c in
  let sent := Client._send_request "tools/list" JNull (Client.wire e) c in
  (Client.initialized c = false → c' = c)
  ∧ (contains "tools" (Client.capabilities c) ≠ Ok true →
     Client.tools c' = Client.tools c
     ∧ Client.objects c' = Client.objects c
     ∧ Client.stdin c' = Client.stdin c)
  ∧ (∀ x, sent.2 = Raise x →
     Client.tools c' = Client.tools c
     ∧ Client.objects c' = Client.objects c)
  ∧ (∀ result,
       Client.initialized c = true →
       contains "tools" (Client.capabilities c) = Ok true →
       sent.2 = Ok result →
       match get result "tools" (JList []) with
       | Raise _ =>
           Client.tools c' = Client.tools c
           ∧ Client.objects c' = Client.objects c
       | Ok v =>
           Client.tools c' = Client.tools (Client.assign_tools v c)
           ∧ Client.objects c' = Client.objects (Client.assign_tools v c)
           ∧ ∀ l, v = JList l → descriptors c' = Some l
       end).
Proof.
  cbn zeta.
  pose proof (same_cache_send_request_wire "tools/list" JNull e c)
    as (Ht & Ho & _).
  split; [apply refresh_uninitialized|].
  unfold Client._refresh_tools.
  destruct (Client.initialized c) eqn:Hi; cbn [negb].
  2:{ split; [done|]. split; [done|]. intros result [=]. }
  split.
  { intros Hc. destruct (contains "tools" (Client.capabilities c)) as [[]|];
      [done|done|].
    rewrite report_stdin.
    by destruct (report_cache (Client.tool_error "Failed to refresh MCP tools")
                   c) as [-> ->]. }
  destruct (contains "tools" (Client.capabilities c)) as [[]|].
  - destruct (Client._send_request _ _ _ c) as [c1 r]. cbn in Ht, Ho |- *.
    split.
    + intros x ->.
      destruct (report_cache (Client.tool_error "Failed to refresh MCP tools")
                  c1) as [-> ->]. done.
    + intros result _ _ ->.
      destruct (get result "tools" (JList [])) as [v|].
      * destruct (assign_tools_cache v c1 c Ho) as [Et Eo].
        assert (Hd : ∀ c2, Client.tools c2 = Client.tools (Client.assign_tools v c1) →
                     Client.objects c2 = Client.objects (Client.assign_tools v c1) →
                     Client.tools c2 = Client.tools (Client.assign_tools v c)
                     ∧ Client.objects c2 = Client.objects (Client.assign_tools v c)
                     ∧ ∀ l, v = JList l → descriptors c2 = Some l).
        { intros c2 E1 E2. split; [congruence|]. split; [congruence|].
          intros l ->. rewrite <- (descriptors_assign_list l c1).
          unfold descriptors. by rewrite E1, E2. }
        destruct (Client.io _); [|by apply Hd].
        destruct (Client.tool_names _); apply Hd; apply report_cache.
      * destruct (report_cache (Client.tool_error "Failed to refresh MCP tools")
                    c1) as [-> ->]. done.
  - split; [done|]. intros result _ [=].
  - split; [|intros result _ [=]].
    intros x _.
    by destruct (report_cache (Client.tool_error "Failed to refresh MCP tools")
                   c) as [-> ->].
Qed.

Lemma refresh_tools_frame_witness :
  Client._refresh_tools (Client.wire (Scenario.listing_env 1)) Scenario.fresh
  = Scenario.fresh
  ∧ Client.tools (Client._refresh_tools
                    (Client.wire (Scenario.listing_env 2)) Scenario.plain)
    = Client.ToolList []
  ∧ Client.tools (Client._refresh_tools (Client.wire Scenario.silent_env)
                    Scenario.stocked)
    = Client.ToolList [0]
  ∧ descriptors (Client._refresh_tools
                   (Client.wire (Scenario.listing_env 3)) Scenario.stocked)
    = Some [Scenario.tool_x].
Proof.
  split.
  { destruct (refresh_tools_frame (Scenario.listing_env 1) Scenario.fresh)
      as (H & _). apply H. reflexivity. }
  split.
  { destruct (refresh_tools_frame (Scenario.listing_env 2) Scenario.plain)
      as (_ & H & _). apply H. vm_compute. discriminate. }
  split.
  { destruct (refresh_tools_frame Scenario.silent_env Scenario.stocked)
      as (_ & _ & H & _).
    apply (H (TimeoutError "tools/list")). vm_compute. reflexivity. }
  destruct (refresh_tools_frame (Scenario.listing_env 3) Scenario.stocked)
    as (_ & _ & _ & H).
  specialize (H (JDict [("tools", JList [Scenario.tool_x])])).
  cbn [get dict_get default] in H. rewrite decide_True in H by done.
  eapply H; [vm_compute; reflexivity..|reflexivity].
Defined.

(** ** Correlation of requests and responses on one connection *)

Section Correlation.
Import Client.

Lemma grown_refl c : grown c c.
Proof. split; [done|]. split; [lia|]. exists []. by rewrite app_nil_r. Qed.

Lemma grown_trans c1 c2 c3 : grown c1 c2 → grown c2 c3 → grown c1 c3.
Proof.
  intros (Hp & Hr & x & Hf) (Hp' & Hr' & x' & Hf').
  split; [congruence|]. split; [lia|].
  exists (x ++ x'). by rewrite Hf', Hf, app_assoc.
Qed.

Lemma grown_slots c c' :
  pending_requests c' = pending_requests c →
  request_id c' = request_id c →
  futures c' = futures c →
  grown c c'.
Proof.
  intros Hp Hr Hf. split; [done|]. split; [lia|].
  exists []. by rewrite app_nil_r.
Qed.

Lemma grown_report d c : grown c (report d c).
Proof. unfold report. destruct (io c); by apply grown_slots. Qed.

Lemma future_at_grown c c' fut :
  grown c c' → fut < length (futures c) → future_at fut c' = future_at fut c.
Proof.
  intros (_ & _ & x & Hf) Hlt. unfold future_at.
  by rewrite Hf, lookup_app_l.
Qed.

Lemma length_grown c c' : grown c c' → length (futures c) ≤ length (futures c').
Proof. intros (_ & _ & x & ->). rewrite length_app. lia. Qed.

Lemma sound_grown c c' : sound c → grown c c' → sound c'.
Proof.
  intros [H1 H2] Hg. pose proof (length_grown _ _ Hg) as Hl.
  pose proof Hg as (Hp & Hr & _). split.
  - intros rid fut Hpf. rewrite Hp in Hpf.
    destruct (H1 rid fut Hpf) as (Hlt & Hd & Hle).
    split; [lia|]. split; [|lia]. by rewrite (future_at_grown c).
  - intros rid1 rid2 fut. rewrite Hp. apply H2.
Qed.

Lemma sound_delivered rid fut c c' :
  sound c → delivered rid fut c c' → sound c'.
Proof.
  intros [H1 H2] (Hpf & Hp & Hr & f & Hf & Hfs). split.
  - intros rid' fut' Hpf'. rewrite Hp in Hpf'.
    apply lookup_delete_Some in Hpf' as [Hne Hpf'].
    destruct (H1 rid' fut' Hpf') as (Hlt & Hd & Hle).
    rewrite Hfs, length_insert, Hr. split; [done|]. split; [|done].
    unfold future_at in *. rewrite Hfs, list_lookup_insert_ne; [done|].
    intros ->. by apply Hne, (H2 rid rid' fut').
  - intros rid1 rid2 fut'. rewrite Hp.
    intros [_ ?]%lookup_delete_Some [_ ?]%lookup_delete_Some.
    by eapply H2.
Qed.

Lemma sound_init process io : sound (Client.__init__ process io).
Proof. split; intros *; cbn; by rewrite lookup_empty. Qed.

(** A request sent while nobody reads the pipe leaves the slots as they
    were. *)
Lemma send_request_unattended_grown method params ok c :
  sound c →
  grown c (_send_request method params {| write_ok := ok; meanwhile := id |}
             c).1.
Proof.
  intros [H1 _].
  assert (Hn : pending_requests c !! (request_id c + 1)%Z = None).
  { destruct (pending_requests c !! _) as [fut|] eqn:E; [|done].
    apply H1 in E as (_ & _ & ?). lia. }
  unfold _send_request, next_request_id, add_pending, write. cbn.
  destruct ok; cbn.
  - unfold future_at. cbn. rewrite lookup_app_r by done.
    rewrite Nat.sub_diag. cbn.
    split; [cbn; by rewrite delete_insert_id, delete_id|].
    split; [cbn; lia|]. by eexists.
  - split; [cbn; by rewrite delete_insert_id|].
    split; [cbn; lia|]. by eexists.
Qed.

Lemma refresh_unattended_grown ok c :
  sound c →
  grown c (_refresh_tools {| write_ok := ok; meanwhile := id |} c).
Proof.
  intros Hs. unfold _refresh_tools.
  destruct (initialized c); cbn [negb]; [|apply grown_refl].
  destruct (contains "tools" (capabilities c)) as [[]|];
    [|apply grown_refl|apply grown_report].
  pose proof (send_request_unattended "tools/list" JNull ok c) as [x Hx].
  pose proof (send_request_unattended_grown "tools/list" JNull ok c Hs) as Hg.
  destruct (_send_request _ _ _ c) as [c1 r]. cbn in Hx, Hg. subst r.
  eapply grown_trans; [exact Hg|apply grown_report].
Qed.

(** What handling one message does to the slots: nothing that matters, or
    the delivery of the response to the request it names. *)
Lemma handle_message_cases relay message c :
  sound c →
  let c' := (_handle_message relay message c).1 in
  grown c c'
  ∨ ∃ rid fut j,
      getitem message "id" = Ok j ∧ hash_key j = Ok (KeyInt rid)
      ∧ delivered rid fut c c'.
Proof.
  intros Hs. cbn zeta. unfold _handle_message.
  destruct (contains "id" message) as [[]|]; cbn; [| |left; apply grown_refl].
  - destruct (getitem message "id") as [j|] eqn:Ej; [|left; apply grown_refl].
    destruct (hash_key j) as [[rid|]|] eqn:Ek; try (left; apply grown_refl).
    destruct (pending_requests c !! rid) as [fut|] eqn:Ep;
      [|left; apply grown_refl].
    assert (Hd : ∀ f, done f = true →
              delivered rid fut c
                (set_futures (<[fut := f]> (futures (pop_pending rid c)))
                   (pop_pending rid c))).
    { intros f Hf. split; [done|]. split; [done|]. split; [done|].
      by exists f. }
    destruct message as [| | | | |kv]; try discriminate.
    cbn [contains getitem get]. unfold dict_has.
    destruct (dict_get "error" kv) as [v|]; cbn;
      right; exists rid, fut, j; (split; [done|]); (split; [done|]);
      by apply Hd.
  - destruct (get message "method" (JStr "")) as [method|];
      [|left; apply grown_refl].
    destruct (eq_str method _); cbn; [|left; apply grown_refl].
    left. by apply refresh_unattended_grown.
Qed.
End Correlation.

Section Tracking.
Import Client.

Lemma tracks_grown rid fut c c' :
  tracks rid fut c → grown c c' → tracks rid fut c'.
Proof.
  intros (Hs & Hr & Hf & Hp) Hg.
  pose proof (length_grown _ _ Hg). pose proof Hg as (Hp' & Hr' & _).
  split; [by eapply sound_grown|]. split; [lia|]. split; [lia|].
  by rewrite Hp'.
Qed.

Lemma tracks_delivered rid fut rid' fut' c c' :
  tracks rid fut c → delivered rid' fut' c c' → tracks rid fut c'.
Proof.
  intros (Hs & Hr & Hf & Hp) Hd.
  pose proof Hd as (_ & Hp' & Hr' & f & _ & Hfs).
  split; [by eapply sound_delivered|]. split; [lia|].
  split; [by rewrite Hfs, length_insert|].
  intros x. rewrite Hp'. intros [_ ?]%lookup_delete_Some. by apply Hp.
Qed.

(** Once the caller's future is completed, the table has no slot for its
    request. *)
Lemma tracks_done rid fut c :
  tracks rid fut c → done (future_at fut c) = true →
  pending_requests c !! rid = None.
Proof.
  intros ([H1 _] & _ & _ & Hp) Hd.
  destruct (pending_requests c !! rid) as [fut'|] eqn:E; [|done].
  rewrite (Hp fut' eq_refl) in E. apply H1 in E as (_ & E & _). congruence.
Qed.

Lemma delivered_report d rid fut c c1 :
  delivered rid fut c c1 → delivered rid fut c (report d c1).
Proof. unfold report. by destruct (io c1). Qed.

Lemma on_line_cases l c :
  sound c →
  grown c (on_line l c)
  ∨ ∃ message rid fut j,
      l.1 = Decoded message
      ∧ getitem message "id" = Ok j ∧ hash_key j = Ok (KeyInt rid)
      ∧ delivered rid fut c (on_line l c).
Proof.
  intros Hs. unfold on_line. destruct l.1 as [|message] eqn:El.
  - left. apply grown_report.
  - pose proof (handle_message_cases l.2 message c Hs) as H. cbn zeta in H.
    destruct (_handle_message _ _ _) as [c1 [|x]]; cbn in H.
    + destruct H as [?|(rid & fut & j & ? & ? & ?)]; [by left|].
      right. by exists message, rid, fut, j.
    + destruct H as [?|(rid & fut & j & ? & ? & ?)].
      * left. eapply grown_trans; [done|apply grown_report].
      * right. exists message, rid, fut, j.
        do 3 (split; [done|]). by apply delivered_report.
Qed.

Lemma sound_on_line l c : sound c → sound (on_line l c).
Proof.
  intros Hs. destruct (on_line_cases l c Hs) as [?|(?&?&?&?&?&?&?&?)].
  - by eapply sound_grown.
  - by eapply sound_delivered.
Qed.

Lemma tracks_read_responses rid fut lines c :
  tracks rid fut c → tracks rid fut (_read_responses lines c).
Proof.
  unfold _read_responses. revert c.
  induction lines as [|l lines IH]; intros c Ht; cbn; [done|].
  apply IH. pose proof Ht as (Hs & _).
  destruct (on_line_cases l c Hs) as [?|(?&?&?&?&?&?&?&?)].
  - by eapply tracks_grown.
  - by eapply tracks_delivered.
Qed.

Lemma sound_read_responses lines c :
  sound c → sound (_read_responses lines c).
Proof.
  unfold _read_responses. revert c.
  induction lines as [|l lines IH]; intros c Hs; cbn; [done|].
  by apply IH, sound_on_line.
Qed.

(** While no response for [rid] is handled, its slot stays. *)
Lemma unanswered_read_responses rid fut lines c :
  sound c → unanswered rid lines →
  pending_requests c !! rid = Some fut →
  pending_requests (_read_responses lines c) !! rid = Some fut.
Proof.
  unfold _read_responses. revert c.
  induction lines as [|l lines IH]; intros c Hs Hu Hp; cbn; [done|].
  apply IH.
  - by apply sound_on_line.
  - intros message relay j Hin. apply (Hu message relay j). by right.
  - destruct (on_line_cases l c Hs)
      as [(-> & _)|(message & rid' & fut' & j & El & Ej & Ek & Hd)]; [done|].
    destruct Hd as (_ & -> & _). rewrite lookup_delete_ne; [done|].
    intros ->. destruct l as [l1 relay]. cbn in El. subst l1.
    eapply (Hu message relay j); [by left|done..].
Qed.
End Tracking.

Section Request.
Import Client.

Lemma sound_pop rid c : sound c → sound (pop_pending rid c).
Proof.
  intros [H1 H2]. split; cbn.
  - intros rid' fut [_ Hp]%lookup_delete_Some. by apply H1.
  - intros rid1 rid2 fut [_ ?]%lookup_delete_Some [_ ?]%lookup_delete_Some.
    by eapply H2.
Qed.

Lemma sound_fresh c : sound c → pending_requests c !! (request_id c + 1)%Z = None.
Proof.
  intros [H1 _]. destruct (pending_requests c !! _) as [fut|] eqn:E; [|done].
  apply H1 in E as (_ & _ & ?). lia.
Qed.

Lemma sound_add_pending rid c :
  sound c → pending_requests c !! rid = None → (rid ≤ request_id c)%Z →
  sound (add_pending rid c).1.
Proof.
  intros [H1 H2] Hn Hle. unfold add_pending. split; cbn.
  - intros rid' fut [[<- <-]|[Hne Hp]]%lookup_insert_Some.
    + rewrite length_app. cbn. split; [lia|]. split; [|done].
      unfold future_at. cbn. rewrite lookup_app_r by done.
      by rewrite Nat.sub_diag.
    + destruct (H1 rid' fut Hp) as (Hlt & Hd & ?).
      rewrite length_app. split; [lia|]. split; [|done].
      unfold future_at in *. cbn. by rewrite lookup_app_l.
  - intros rid1 rid2 fut
      [[<- <-]|[Hne1 Hp1]]%lookup_insert_Some
      [[<- Hf]|[Hne2 Hp2]]%lookup_insert_Some; try done.
    + apply H1 in Hp2 as (? & _). lia.
    + apply H1 in Hp1 as (? & _). lia.
    + by eapply H2.
Qed.

(** The slots around a request of a calling thread.  Whatever the outcome,
    the table has no slot for the request when [_send_request] returns; the
    table is in order again; and a request that was written and to which no
    response is handled during the wait raises the timeout error. *)
Lemma send_request_slot method params e c :
  sound c →
  let rid := (request_id c + 1)%Z in
  let r := _send_request method params (wire e) c in
  pending_requests r.1 !! rid = None
  ∧ sound r.1
  ∧ (sent e = true → unanswered rid (inbox e) →
     r.2 = Raise (TimeoutError method))
  ∧ (sent e = false → r.2 = Raise OSError).
Proof.
  intros Hs. cbn zeta.
  pose proof (sound_fresh c Hs) as Hn.
  unfold _send_request.
  destruct (next_request_id c) as [c1 rid] eqn:E1.
  injection E1 as <- <-.
  set (c1 := set_request_id (request_id c + 1) c).
  assert (Hs1 : sound c1) by (eapply sound_grown; [exact Hs|];
    split; [done|]; split; [cbn; lia|]; exists []; by rewrite app_nil_r).
  change (request_id c1) with (request_id c + 1)%Z.
  pose proof (sound_add_pending (request_id c + 1)%Z c1 Hs1 Hn) as Hs2.
  destruct (add_pending (request_id c + 1) c1) as [c2 fut] eqn:E2.
  injection E2 as <- <-. cbn [fst] in Hs2. specialize (Hs2 ltac:(cbn; lia)).
  set (c2 := set_pending_requests _ _) in *.
  unfold write. cbn [wire write_ok meanwhile]. destruct (sent e) eqn:Esent.
  - cbn beta iota. set (c3 := set_stdin _ c2).
    assert (Ht3 : tracks (request_id c + 1)%Z (length (futures c)) c3).
    { split; [|split; [cbn; lia|]].
      { eapply sound_grown; [exact Hs2|]. by apply grown_slots. }
      split; [cbn; rewrite length_app; cbn; lia|].
      intros fut'. cbn. rewrite lookup_insert_eq. congruence. }
    pose proof (tracks_read_responses _ _ (inbox e) c3 Ht3) as Ht4.
    assert (Hu : unanswered (request_id c + 1)%Z (inbox e) →
                 done (future_at (length (futures c))
                         (_read_responses (inbox e) c3)) = false).
    { intros Hu.
      pose proof (unanswered_read_responses (request_id c + 1)%Z
                    (length (futures c)) (inbox e) c3) as Hp.
      destruct Ht3 as (Hs3 & _). specialize (Hp Hs3 Hu).
      destruct Ht4 as ([H1 _] & _).
      apply H1 in Hp as (_ & ? & _); [done|].
      cbn. by rewrite lookup_insert_eq. }
    destruct (done _) eqn:Ed; cbn [negb].
    + pose proof (tracks_done _ _ _ Ht4 Ed) as Hnone.
      destruct Ht4 as (Hs4 & _).
      destruct (truthy (error _)); cbn.
      * split; [by rewrite lookup_delete_eq|].
        split; [by apply sound_pop|]. split; [|done].
        intros _ Hu'. apply Hu in Hu'. congruence.
      * split; [done|]. split; [done|]. split; [|done].
        intros _ Hu'. apply Hu in Hu'. congruence.
    + destruct Ht4 as (Hs4 & _). cbn.
      split; [by rewrite lookup_delete_eq|].
      split; [by do 2 apply sound_pop|]. done.
  - cbn. split; [by rewrite lookup_delete_eq|].
    split; [by apply sound_pop|]. done.
Qed.

Lemma sound_slots c c' :
  sound c →
  pending_requests c' = pending_requests c →
  request_id c' = request_id c →
  futures c' = futures c →
  sound c'.
Proof. intros Hs Hp Hr Hf. eapply sound_grown; [exact Hs|by apply grown_slots]. Qed.

Lemma sound_report d c : sound c → sound (report d c).
Proof. intros Hs. eapply sound_grown; [exact Hs|apply grown_report]. Qed.

Lemma sound_send_request method params e c :
  sound c → sound (_send_request method params (wire e) c).1.
Proof. intros Hs. by destruct (send_request_slot method params e c Hs) as (_ & ? & _). Qed.

(** The table stays in order through every operation of a connection, so it
    is in order in every state a connection reaches from [__init__]. *)
Lemma sound_refresh_tools e c : sound c → sound (_refresh_tools (wire e) c).
Proof.
  intros Hs. unfold _refresh_tools.
  destruct (initialized c); cbn [negb]; [|done].
  destruct (contains "tools" (capabilities c)) as [[]|];
    [|done|by apply sound_report].
  pose proof (sound_send_request "tools/list" JNull e c Hs) as H1.
  destruct (_send_request _ _ _ c) as [c1 [result|x]]; cbn in H1;
    [|by apply sound_report].
  destruct (get result "tools" (JList [])) as [v|]; [|by apply sound_report].
  assert (H2 : sound (assign_tools v c1)).
  { eapply sound_slots; [exact H1|..]; by destruct v. }
  destruct (io _); [|done].
  destruct (tool_names _); by apply sound_report.
Qed.

Lemma sound_call_tool name arguments e c :
  sound c → sound (call_tool name arguments (wire e) c).1.
Proof.
  intros Hs. unfold call_tool. destruct (initialized c); cbn [negb]; [|done].
  by apply sound_send_request.
Qed.

Lemma sound_initialize e1 notified e2 c :
  sound c → sound (initialize (wire e1) notified (wire e2) c).1.
Proof.
  intros Hs. unfold initialize.
  pose proof (sound_send_request "initialize" init_params e1 c Hs) as H1.
  destruct (_send_request _ _ _ c) as [c1 [result|x]]; cbn in H1;
    [|by apply sound_report].
  destruct (get result "capabilities" (JDict [])) as [caps|];
    [|by apply sound_report].
  destruct (get result "serverInfo" (JDict [])) as [info|].
  2:{ apply sound_report. by eapply sound_slots. }
  unfold _send_notification, write. destruct notified.
  2:{ apply sound_report. by eapply sound_slots. }
  set (c2 := set_stdin _ _).
  assert (H2 : sound c2) by by eapply sound_slots.
  pose proof (sound_refresh_tools e2 c2 H2) as H3.
  assert (H4 : sound (set_initialized true (_refresh_tools (wire e2) c2)))
    by by eapply sound_slots.
  destruct (io _); [|done].
  destruct (get _ "name" _); by apply sound_report.
Qed.
End Request.

(** ** Interleaved callers *)

Section Interleaving.
Import Client Threads.

Lemma allocs_snoc t ev :
  allocs (t ++ [ev])
  = allocs t ++ match ev with EvAlloc rid => [rid] | _ => [] end.
Proof. unfold allocs. rewrite omap_app. by destruct ev. Qed.

Lemma inserts_snoc t ev :
  inserts (t ++ [ev])
  = inserts t ++ match ev with EvInsert rid fut => [(rid, fut)] | _ => [] end.
Proof. unfold inserts. rewrite omap_app. by destruct ev. Qed.

Lemma elem_of_inserts t rid fut :
  (rid, fut) ∈ inserts t ↔ EvInsert rid fut ∈ t.
Proof.
  unfold inserts. rewrite list_elem_of_omap. split.
  - intros ([] & Hin & [=]). by subst.
  - intros Hin. by exists (EvInsert rid fut).
Qed.

Lemma ordered_snoc t ev :
  ordered t →
  (∀ rid, ev = EvWrite rid → ∃ fut, EvInsert rid fut ∈ t) →
  ordered (t ++ [ev]).
Proof.
  intros Ho Hev i rid Hi.
  apply lookup_snoc_Some in Hi as [[Hlt Hi]|[-> ->]].
  - destruct (Ho i rid Hi) as (j & fut & Hj & Hjt).
    exists j, fut. split; [done|]. rewrite lookup_app_l; [done|lia].
  - destruct (Hev rid eq_refl) as (fut & [j Hj]%list_elem_of_lookup).
    exists j, fut. pose proof (lookup_lt_Some _ _ _ Hj).
    split; [done|]. by rewrite lookup_app_l.
Qed.

Lemma inv_boot process io : inv (boot process io).
Proof.
  split; cbn.
  - apply sound_init.
  - done.
  - done.
  - done.
  - constructor.
  - by intros rid ?%elem_of_nil.
  - intros rid fut. by rewrite lookup_empty.
  - intros tid pc. by rewrite lookup_empty.
  - intros tid1 tid2 pc1 pc2. by rewrite lookup_empty.
  - intros i rid. by rewrite lookup_nil.
Qed.

(** A handled line that carries an id leaves the slots alone, or
    delivers. *)
Lemma response_line_cases relay message c :
  contains "id" message = Ok true →
  let c' := on_line (Decoded message, relay) c in
  (pending_requests c' = pending_requests c
   ∧ request_id c' = request_id c ∧ futures c' = futures c)
  ∨ ∃ rid fut, delivered rid fut c c'.
Proof.
  intros Hc. cbn zeta. unfold on_line, _handle_message. cbn [fst snd].
  rewrite Hc.
  assert (Hrep : ∀ d, pending_requests (report d c) = pending_requests c
                      ∧ request_id (report d c) = request_id c
                      ∧ futures (report d c) = futures c).
  { intros d. unfold report. by destruct (io c). }
  destruct (getitem message "id") as [j|] eqn:Ej; [|left; apply Hrep].
  destruct (hash_key j) as [[rid|]|]; [|by left|left; apply Hrep].
  destruct (pending_requests c !! rid) as [fut|] eqn:Ep; [|by left].
  destruct message as [| | | | |kv]; try discriminate.
  cbn [contains getitem get]. unfold dict_has.
  right. exists rid, fut.
  destruct (dict_get "error" kv) as [v|]; cbn;
    (split; [done|]); (split; [done|]); (split; [done|]);
    eexists; (split; [|done]); done.
Qed.

Lemma pc_ok_quiet s s' pc :
  inserts (trace s') = inserts (trace s) →
  (∀ rid fut, pending_requests (conn s') !! rid = Some fut →
              pending_requests (conn s) !! rid = Some fut) →
  pc_ok s pc → pc_ok s' pc.
Proof.
  intros Hi Hp. destruct pc; cbn; rewrite ?Hi; try done.
  intros [? Hn]. split; [done|].
  destruct (pending_requests (conn s') !! rid) as [fut|] eqn:E; [|done].
  apply Hp in E. congruence.
Qed.

(** Steps that take no new id and insert no new slot. *)
Lemma inv_quiet s s' :
  inv s →
  request_id (conn s') = request_id (conn s) →
  sound (conn s') →
  length (futures (conn s')) = length (futures (conn s)) →
  (∀ rid fut, pending_requests (conn s') !! rid = Some fut →
              pending_requests (conn s) !! rid = Some fut) →
  inserts (trace s') = inserts (trace s) →
  allocs (trace s') = allocs (trace s) →
  ordered (trace s') →
  (∀ tid pc', threads s' !! tid = Some pc' →
     (∃ pc, threads s !! tid = Some pc ∧ rid_of pc = rid_of pc')
     ∧ pc_ok s' pc') →
  inv s'.
Proof.
  intros [Hs Hc Ha Hf Hr Hi Hp Ht Ho Hord] Er Hs' El Hp' Ei Ea Hord' Ht'.
  split; rewrite ?Er, ?Ei, ?Ea, ?El; try done.
  - intros rid fut ?%Hp'. by apply Hp.
  - intros tid pc' Hpc'. destruct (Ht' tid pc' Hpc') as [(pc & Hpc & <-) Hok].
    split; [done|]. by apply (Ht tid pc).
  - intros tid1 tid2 pc1 pc2 H1 H2.
    destruct (Ht' tid1 pc1 H1) as [(q1 & Hq1 & <-) _].
    destruct (Ht' tid2 pc2 H2) as [(q2 & Hq2 & <-) _].
    by apply Ho.
Qed.

Lemma inv_call tid method params s :
  inv s → inv (exec s (Call tid method params)).
Proof.
  intros Hinv. pose proof Hinv as [Hs Hc Ha Hf Hr Hi Hp Ht Ho Hord].
  cbn. destruct (in_call s tid) eqn:Ein; [done|].
  assert (Hfresh : (request_id (conn s) + 1)%Z ∉ (inserts (trace s)).*1).
  { intros ?%Hi. lia. }
  split; cbn; rewrite ?allocs_snoc, ?inserts_snoc, ?app_nil_r.
  - eapply sound_grown; [exact Hs|]. split; [done|]. split; [cbn; lia|].
    exists []. by rewrite app_nil_r.
  - lia.
  - rewrite Ha, (seqZ_app 1 (request_id (conn s)) 1) by lia.
    f_equal. rewrite seqZ_cons by lia. rewrite seqZ_nil by (cbn; lia).
    f_equal. lia.
  - exact Hf.
  - exact Hr.
  - intros rid ?%Hi. lia.
  - exact Hp.
  - intros tid' pc [[<- <-]|[Hne Hpc]]%lookup_insert_Some; cbn.
    + rewrite inserts_snoc, app_nil_r. split; [done|lia].
    + destruct (Ht tid' pc Hpc) as [Hok ?]. split; [|lia].
      eapply pc_ok_quiet; [| |exact Hok]; cbn; [|done].
      by rewrite inserts_snoc, app_nil_r.
  - intros tid1 tid2 pc1 pc2
      [[<- <-]|[Hne1 Hpc1]]%lookup_insert_Some
      [[<- <-]|[Hne2 Hpc2]]%lookup_insert_Some; cbn; try done.
    + intros E. destruct (Ht tid2 pc2 Hpc2) as [_ ?]. lia.
    + intros E. destruct (Ht tid1 pc1 Hpc1) as [_ ?]. lia.
    + by apply Ho.
  - apply ordered_snoc; [done|]. intros rid [=].
Qed.

Lemma inv_receive message s : inv s → inv (exec s (Receive message)).
Proof.
  intros Hinv. pose proof Hinv as [Hs Hc Ha Hf Hr Hi Hp Ht Ho Hord].
  cbn. destruct (contains "id" message) as [[]|] eqn:Ec; [|done..].
  destruct (response_line_cases true message (conn s) Ec)
    as [(Ep & Er & Ef)|(rid & fut & Hd)].
  { apply (inv_quiet s); cbn; try done.
    - eapply sound_grown; [exact Hs|]. by apply grown_slots.
    - by rewrite Ef.
    - intros rid fut. by rewrite Ep.
    - intros tid pc Hpc. split; [by exists pc|].
      destruct (Ht tid pc Hpc) as [Hok _].
      eapply pc_ok_quiet; [| |exact Hok]; cbn; [done|].
      intros rid fut. by rewrite Ep. }
  pose proof Hd as (Hpf & Hp' & Hr' & f & Hdone & Hfs).
  apply (inv_quiet s); cbn; try done.
  - by eapply sound_delivered.
  - by rewrite Hfs, length_insert.
  - intros rid' fut'. rewrite Hp'. by intros [_ ?]%lookup_delete_Some.
  - intros tid pc Hpc. split; [by exists pc|].
    destruct (Ht tid pc Hpc) as [Hok _].
    eapply pc_ok_quiet; [| |exact Hok]; cbn; [done|].
    intros rid' fut'. rewrite Hp'. by intros [_ ?]%lookup_delete_Some.
Qed.

(** A step of one thread that takes no new id and inserts no new slot. *)
Lemma inv_quiet_thread s c' tid pc pc' evs :
  inv s →
  threads s !! tid = Some pc →
  rid_of pc' = rid_of pc →
  request_id c' = request_id (conn s) →
  sound c' →
  length (futures c') = length (futures (conn s)) →
  (∀ rid fut, pending_requests c' !! rid = Some fut →
              pending_requests (conn s) !! rid = Some fut) →
  inserts (trace s ++ evs) = inserts (trace s) →
  allocs (trace s ++ evs) = allocs (trace s) →
  ordered (trace s ++ evs) →
  pc_ok {| conn := c'; threads := <[tid := pc']> (threads s);
           trace := trace s ++ evs |} pc' →
  inv {| conn := c'; threads := <[tid := pc']> (threads s);
         trace := trace s ++ evs |}.
Proof.
  intros Hinv Hpc Hrid Er Hs' El Hp' Ei Ea Hord' Hok'.
  apply (inv_quiet s); cbn; try done.
  intros tid' q [[<- <-]|[Hne Hq]]%lookup_insert_Some.
  - split; [by exists pc|done].
  - split; [by exists q|].
    destruct (inv_threads s Hinv tid' q Hq) as [Hok _].
    eapply pc_ok_quiet; [| |exact Hok]; done.
Qed.

Lemma pc_ok_insert s s' rid fut pc :
  inserts (trace s') = inserts (trace s) ++ [(rid, fut)] →
  pending_requests (conn s') = <[rid := fut]> (pending_requests (conn s)) →
  rid_of pc ≠ rid →
  pc_ok s pc → pc_ok s' pc.
Proof.
  intros Hi Hp Hne.
  destruct pc; cbn in Hne |- *; rewrite ?Hi, ?Hp, ?fmap_app; cbn.
  - intros Hn [?|Hx]%elem_of_app; [done|].
    by apply list_elem_of_singleton in Hx.
  - intros ?. apply elem_of_app. by left.
  - intros ?. apply elem_of_app. by left.
  - intros ?. apply elem_of_app. by left.
  - intros ?. apply elem_of_app. by left.
  - intros [? ?]. split; [apply elem_of_app; by left|].
    by rewrite lookup_insert_ne.
Qed.

Lemma inv_insert tid rid method params s :
  inv s →
  threads s !! tid = Some (Allocated rid method params) →
  inv (exec s (Step tid true)) ∧ inv (exec s (Step tid false)).
Proof.
  intros Hinv Hpc. pose proof Hinv as [Hs Hc Ha Hf Hr Hi Hp Ht Ho Hord].
  destruct (Ht _ _ Hpc) as [Hok Hle]. cbn in Hok, Hle.
  assert (Hn : pending_requests (conn s) !! rid = None).
  { destruct (pending_requests (conn s) !! rid) as [f|] eqn:E; [|done].
    apply Hp in E. exfalso. apply Hok.
    by apply (list_elem_of_fmap_2 fst _ (rid, f)). }
  assert (H : ∀ flag, inv (exec s (Step tid flag))); [|by split].
  intros flag. cbn. rewrite Hpc. cbn.
  split; cbn; rewrite ?allocs_snoc, ?inserts_snoc, ?app_nil_r.
  - apply (sound_add_pending rid (conn s)); [done..|lia].
  - done.
  - done.
  - rewrite fmap_app, Hf, length_app. cbn.
    by rewrite Nat.add_1_r, seq_S.
  - rewrite fmap_app. apply NoDup_app. split; [done|]. split.
    + intros x Hx Hx'. by apply list_elem_of_singleton in Hx' as ->.
    + apply NoDup_singleton.
  - rewrite fmap_app. intros x [?|Hx]%elem_of_app; [by apply Hi|].
    by apply list_elem_of_singleton in Hx as ->.
  - intros rid' fut' [[<- <-]|[Hne Hpf]]%lookup_insert_Some;
      apply elem_of_app; [right; by left|left; by apply Hp].
  - intros tid' q [[<- <-]|[Hne Hq]]%lookup_insert_Some; cbn.
    + split; [|done]. rewrite inserts_snoc. apply elem_of_app. right. by left.
    + destruct (Ht tid' q Hq) as [Hokq ?]. split; [|done].
      eapply pc_ok_insert; [| | |exact Hokq]; cbn.
      * by rewrite inserts_snoc.
      * done.
      * intros E. apply Hne. symmetry. by eapply (Ho tid' tid).
  - intros tid1 tid2 pc1 pc2
      [[<- <-]|[Hne1 Hpc1]]%lookup_insert_Some
      [[<- <-]|[Hne2 Hpc2]]%lookup_insert_Some; cbn; try done.
    + intros E. by eapply (Ho tid tid2).
    + intros E. by eapply (Ho tid1 tid).
    + by apply Ho.
  - apply ordered_snoc; [done|]. intros r [=].
Qed.

Lemma elem_of_inserts_fst t rid fut :
  (rid, fut) ∈ inserts t → rid ∈ (inserts t).*1.
Proof. intros H. by apply (list_elem_of_fmap_2 fst _ (rid, fut)). Qed.

Lemma NoDup_fst_functional {A B} (l : list (A * B)) x y1 y2 :
  NoDup l.*1 → (x, y1) ∈ l → (x, y2) ∈ l → y1 = y2.
Proof.
  induction l as [|[a b] l IH]; cbn; [by intros _ ?%elem_of_nil|].
  intros [Hn Hd]%NoDup_cons [E1|H1]%elem_of_cons [E2|H2]%elem_of_cons.
  - congruence.
  - injection E1 as -> ->. exfalso. apply Hn.
    by apply (list_elem_of_fmap_2 fst _ (a, y2)).
  - injection E2 as -> ->. exfalso. apply Hn.
    by apply (list_elem_of_fmap_2 fst _ (a, y1)).
  - by apply IH.
Qed.

Lemma inv_step tid flag s : inv s → inv (exec s (Step tid flag)).
Proof.
  intros Hinv. destruct (threads s !! tid) as [pc|] eqn:Hpc.
  2:{ cbn. by rewrite Hpc. }
  pose proof Hinv as [Hs Hc Ha Hf Hr Hi Hp Ht Ho Hord].
  destruct (Ht _ _ Hpc) as [Hok Hle].
  assert (Hpop : ∀ rid rid' fut',
            pending_requests (pop_pending rid (conn s)) !! rid' = Some fut' →
            pending_requests (conn s) !! rid' = Some fut').
  { intros rid rid' fut'. cbn. by intros [_ ?]%lookup_delete_Some. }
  destruct pc as [rid m p|rid fut m p|rid fut m|rid m|rid x|rid r].
  - destruct (inv_insert tid rid m p s Hinv Hpc). by destruct flag.
  - cbn in Hok. cbn. rewrite Hpc. cbn. unfold write. destruct flag.
    + eapply (inv_quiet_thread s _ tid); try done.
      * by rewrite inserts_snoc, app_nil_r.
      * by rewrite allocs_snoc, app_nil_r.
      * apply ordered_snoc; [done|]. intros r [= <-]. exists fut.
        by apply elem_of_inserts.
      * cbn. by rewrite inserts_snoc, app_nil_r.
    + eapply (inv_quiet_thread s _ tid); rewrite ?app_nil_r; try done.
      all: cbn; rewrite ?app_nil_r; by eapply elem_of_inserts_fst.
  - cbn in Hok. cbn. rewrite Hpc. cbn.
    destruct (done (future_at fut (conn s))) eqn:Ed; cbn.
    + assert (Hn : pending_requests (conn s) !! rid = None).
      { destruct (pending_requests (conn s) !! rid) as [f|] eqn:E; [|done].
        pose proof (Hp _ _ E) as Hin.
        assert (f = fut) as ->.
        { eapply NoDup_fst_functional; [exact Hr|exact Hin|exact Hok]. }
        destruct Hs as [H1 _]. apply H1 in E as (_ & E & _). congruence. }
      destruct (truthy _); cbn.
      * eapply (inv_quiet_thread s _ tid); rewrite ?app_nil_r; try done.
        all: cbn; rewrite ?app_nil_r; by eapply elem_of_inserts_fst.
      * eapply (inv_quiet_thread s _ tid); rewrite ?app_nil_r; try done.
        all: cbn; rewrite ?app_nil_r.
        all: split; [by eapply elem_of_inserts_fst|done].
    + destruct flag; cbn.
      * eapply (inv_quiet_thread s _ tid); rewrite ?app_nil_r; try done.
        all: cbn; rewrite ?app_nil_r; by eapply elem_of_inserts_fst.
      * eapply (inv_quiet_thread s _ tid); rewrite ?app_nil_r; try done.
  - cbn in Hok. cbn. rewrite Hpc. cbn.
    eapply (inv_quiet_thread s _ tid); rewrite ?app_nil_r; try done.
    all: try by apply sound_pop.
    all: try apply Hpop.
  - cbn in Hok. cbn. rewrite Hpc. cbn.
    eapply (inv_quiet_thread s _ tid); rewrite ?app_nil_r; try done.
    all: try by apply sound_pop.
    all: try apply Hpop.
    all: cbn; rewrite ?app_nil_r; split; [done|]; by rewrite lookup_delete_eq.
  - cbn in Hok. cbn. rewrite Hpc. cbn.
    eapply (inv_quiet_thread s _ tid); rewrite ?app_nil_r; try done.
Qed.




Lemma inv_exec a s : inv s → inv (exec s a).
Proof.
  destruct a; [apply inv_call|apply inv_step|apply inv_receive].
Qed.

Lemma inv_run acts s : inv s → inv (run acts s).
Proof.
  unfold run. revert s. induction acts as [|a acts IH]; intros s Hs; cbn;
    [done|]. by apply IH, inv_exec.
Qed.
End Interleaving.


(** The run of [Scenario.two_callers]: ids 1 and 2 in allocation order, each
    write after its insertion, both slots gone at the end, the late response
    dropped. *)
Example two_callers_run :
  let s := Threads.run Scenario.two_callers (Threads.boot 0 true) in
  Threads.trace s
  = [Threads.EvAlloc 1; Threads.EvAlloc 2; Threads.EvInsert 2 0;
     Threads.EvWrite 2; Threads.EvInsert 1 1; Threads.EvWrite 1]
  ∧ Threads.threads s !! 0 = Some (Threads.Finished 1 (Ok (JStr "done")))
  ∧ Threads.threads s !! 1
    = Some (Threads.Finished 2 (Raise (TimeoutError "tools/list")))
  ∧ Client.pending_requests (Threads.conn s) = ∅
  ∧ Client.done <$> Client.futures (Threads.conn s) = [false; true].
Proof. vm_compute. done. Qed.

Lemma handle_message_no_slot relay message c j k :
  getitem message "id" = Ok j →
  Client.hash_key j = Ok k →
  (∀ rid, k = Client.KeyInt rid → Client.pending_requests c !! rid = None) →
  Client._handle_message relay message c = (c, Ok ()).
Proof.
  intros Hj Hk Hn. unfold Client._handle_message.
  destruct message as [| | | | |kv]; try discriminate.
  cbn in Hj |- *. unfold dict_has. destruct (dict_get "id" kv) as [v|];
    [|discriminate].
  injection Hj as ->. rewrite Hk. destruct k as [rid|]; [|done].
  by rewrite (Hn rid eq_refl).
Qed.

(** A response whose id cannot be hashed raises in [_handle_message]; the
    loop reports it and goes on. *)
Lemma unhashable_id_reported relay message c j x :
  getitem message "id" = Ok j →
  Client.hash_key j = Raise x →
  Client.on_line (Client.Decoded message, relay) c
  = Client.report (Client.tool_error "Error processing MCP message") c.
Proof.
  intros Hj Hk. unfold Client.on_line, Client._handle_message. cbn [fst snd].
  destruct message as [| | | | |kv]; try discriminate.
  cbn in Hj |- *. unfold dict_has. destruct (dict_get "id" kv) as [v|];
    [|discriminate].
  injection Hj as ->. by rewrite Hk.
Qed.

(** C3.  (1) When [_send_request] returns, whatever the outcome, the table
    has no slot for the request; a request that was written and to which no
    response is handled during the wait raises the timeout error.  (2) A
    response whose id has no slot leaves the connection exactly as it is;
    handling it does not raise and the receive loop goes on with the next
    line.  (3) In every interleaving of callers and of the receive loop on a
    new connection, once the future of a request is completed, and once a
    caller has left [_send_request] (with a result, an error or a timeout),
    the table has no slot for that request's id. *)
Theorem pending_slots_released :
  (∀ method params e c,
     sound c →
     let rid := (Client.request_id c + 1)%Z in
     let r := Client._send_request method params (Client.wire e) c in
     Client.pending_requests r.1 !! rid = None
     ∧ (Client.sent e = true → unanswered rid (Client.inbox e) →
        r.2 = Raise (TimeoutError method)))
  ∧ (∀ relay message c j k,
       getitem message "id" = Ok j →
       Client.hash_key j = Ok k →
       (∀ rid, k = Client.KeyInt rid →
               Client.pending_requests c !! rid = None) →
       Client._handle_message relay message c = (c, Ok ())
       ∧ ∀ rest,
           Client._read_responses ((Client.Decoded message, relay) :: rest) c
           = Client._read_responses rest c)
  ∧ (∀ process io acts,
       let s := Threads.run acts (Threads.boot process io) in
       (∀ rid fut,
          (rid, fut) ∈ Threads.inserts (Threads.trace s) →
          Client.done (Client.future_at fut (Threads.conn s)) = true →
          Client.pending_requests (Threads.conn s) !! rid = None)
       ∧ (∀ tid rid r,
            Threads.threads s !! tid = Some (Threads.Finished rid r) →
            Client.pending_requests (Threads.conn s) !! rid = None)).
Proof.
  split; [|split].
  - intros method params e c Hs. cbn zeta.
    destruct (send_request_slot method params e c Hs) as (H1 & _ & H2 & _).
    by split.
  - intros relay message c j k Hj Hk Hn.
    pose proof (handle_message_no_slot relay message c j k Hj Hk Hn) as H.
    split; [done|]. intros rest. unfold Client._read_responses. cbn.
    unfold Client.on_line. cbn. by rewrite H.
  - intros process io acts. cbn zeta.
    pose proof (inv_run acts _ (inv_boot process io))
      as [Hs Hc Ha Hf Hr Hi Hp Ht Ho Hord].
    split.
    + intros rid fut Hin Hd.
      destruct (Client.pending_requests _ !! rid) as [f|] eqn:E; [|done].
      pose proof (Hp _ _ E) as Hin'.
      assert (f = fut) as ->
        by (eapply NoDup_fst_functional; [exact Hr|exact Hin'|exact Hin]).
      destruct Hs as [H1 _]. apply H1 in E as (_ & E & _). congruence.
    + intros tid rid r Hpc. by destruct (Ht _ _ Hpc) as [[_ ?] _].
Qed.

Lemma pending_slots_released_witness :
  (let r := Client._send_request "tools/call" JNull
              (Client.wire Scenario.stray_env) Scenario.ready in
   Client.pending_requests r.1 !! 2%Z = None
   ∧ r.2 = Raise (TimeoutError "tools/call"))
  ∧ Client._handle_message true
      (JDict [("id", JInt 7); ("result", JNull)]) Scenario.ready
    = (Scenario.ready, Ok ())
  ∧ (let s := Threads.run Scenario.two_callers (Threads.boot 0 true) in
     Client.pending_requests (Threads.conn s) !! 1%Z = None
     ∧ Client.pending_requests (Threads.conn s) !! 2%Z = None).
Proof.
  destruct pending_slots_released as (Ha & Hb & Hc).
  split; [|split].
  - assert (Hs : sound Scenario.ready).
    { split; intros *; vm_compute; discriminate. }
    destruct (Ha "tools/call" JNull Scenario.stray_env Scenario.ready Hs)
      as [H1 H2].
    split; [exact H1|]. apply H2; [reflexivity|].
    intros message relay j Hin Hj.
    apply list_elem_of_singleton in Hin. injection Hin as -> _.
    injection Hj as <-. discriminate.
  - apply (Hb true _ Scenario.ready (JInt 7) (Client.KeyInt 7));
      [reflexivity..|].
    intros rid [= <-]. vm_compute. reflexivity.
  - destruct (Hc 0 true Scenario.two_callers) as [_ Hf]. cbn zeta. split.
    + apply (Hf 0 1%Z (Ok (JStr "done"))). vm_compute. reflexivity.
    + apply (Hf 1 2%Z (Raise (TimeoutError "tools/list"))).
      vm_compute. reflexivity.
Defined.

(** ** [_send_request] as one schedule of the interleaved steps *)

Section Schedule.
Import Client Threads.

Lemma run_app acts1 acts2 s : run (acts1 ++ acts2) s = run acts2 (run acts1 s).
Proof. unfold run. by rewrite foldl_app. Qed.

Lemma run_receive msgs s :
  Forall (fun m => contains "id" m = Ok true) msgs →
  run (Receive <$> msgs) s
  = {| conn := _read_responses ((fun m => (Decoded m, true)) <$> msgs) (conn s);
       threads := threads s; trace := trace s |}.
Proof.
  intros Hall. revert s. induction Hall as [|m msgs Hm _ IH]; intros s.
  - by destruct s.
  - cbn. unfold run in IH. rewrite Hm, IH. done.
Qed.

Lemma exec_step tid flag s pc :
  threads s !! tid = Some pc →
  exec s (Step tid flag)
  = {| conn := (advance flag pc (conn s)).1.1;
       threads := <[tid := (advance flag pc (conn s)).1.2]> (threads s);
       trace := trace s ++ (advance flag pc (conn s)).2 |}.
Proof.
  intros H. cbn. rewrite H. by destruct (advance flag pc (conn s)) as [[] ?].
Qed.

Lemma exec_call tid method params s :
  in_call s tid = false →
  exec s (Call tid method params)
  = {| conn := (next_request_id (conn s)).1;
       threads := <[tid := Allocated (next_request_id (conn s)).2
                             method params]> (threads s);
       trace := trace s ++ [EvAlloc (next_request_id (conn s)).2] |}.
Proof. intros H. cbn. by rewrite H. Qed.

Lemma run_settle n tid s pc :
  threads s !! tid = Some pc →
  conn (run (replicate n (Step tid true)) s) = (settle n (conn s) pc).1
  ∧ threads (run (replicate n (Step tid true)) s) !! tid
    = Some (settle n (conn s) pc).2.
Proof.
  revert s pc. induction n as [|n IH]; intros s pc Hpc; [done|].
  cbn [replicate settle]. unfold run in *. cbn [foldl].
  rewrite (exec_step tid true s pc Hpc).
  apply IH. cbn. apply lookup_insert_eq.
Qed.

(** A lone caller: the call, the insertion, the write, the lines the
    receive loop handles meanwhile, and three more steps of the caller bring
    the connection where [_send_request] brings it, with the caller holding
    the outcome [_send_request] returns. *)
Theorem send_request_schedule tid method params ok msgs s :
  in_call s tid = false →
  Forall (fun m => contains "id" m = Ok true) msgs →
  let e := {| sent := ok; inbox := (fun m => (Decoded m, true)) <$> msgs |} in
  let r := _send_request method params (wire e) (conn s) in
  let s' := run ([Call tid method params; Step tid true; Step tid ok]
                 ++ (if ok then Receive <$> msgs else [])
                 ++ replicate 3 (Step tid true)) s in
  conn s' = r.1
  ∧ threads s' !! tid = Some (Finished (request_id (conn s) + 1) r.2).
Proof.
  intros Hin Hall. cbn zeta. rewrite !run_app.
  set (s1 := run [Call tid method params; Step tid true; Step tid ok] s).
  set (rid := (request_id (conn s) + 1)%Z).
  set (fut := length (futures (conn s))).
  set (c2 := (add_pending rid (next_request_id (conn s)).1).1).
  set (line := {| out_id := Some rid; out_method := method;
                  out_params := params_field params |}).
  assert (H1 : conn s1 = (write line ok c2).1
               ∧ threads s1 !! tid
                 = Some (if ok then Waiting rid fut method
                         else Unwinding rid OSError)).
  { subst s1. unfold run. cbn [foldl]. rewrite (exec_call _ _ _ _ Hin).
    erewrite (exec_step tid true) by (cbn; apply lookup_insert_eq).
    erewrite (exec_step tid ok) by (cbn; apply lookup_insert_eq).
    cbn. unfold write. destruct ok; cbn; by rewrite lookup_insert_eq. }
  destruct H1 as [Hc1 Ht1]. clearbody s1.
  unfold _send_request. cbn [next_request_id add_pending].
  fold rid. fold fut. change (set_pending_requests _ _) with c2.
  cbn [wire write_ok meanwhile sent inbox].
  fold line. destruct ok.
  - rewrite (run_receive msgs s1 Hall).
    unfold write in Hc1 |- *. cbn [fst] in Hc1. cbn beta iota.
    rewrite Hc1.
    set (c4 := _read_responses _ _).
    destruct (run_settle 3 tid
                {| conn := c4; threads := threads s1; trace := trace s1 |}
                (Waiting rid fut method) Ht1) as [-> ->].
    cbn [settle advance conn fst snd].
    change (length (futures (set_request_id rid (conn s)))) with fut.
    change (request_id (set_request_id rid (conn s))) with rid.
    destruct (done (future_at fut c4)); cbn; [|done].
    destruct (truthy (error (future_at fut c4))); cbn; done.
  - unfold write in Hc1 |- *. cbn [fst] in Hc1. cbn beta iota.
    destruct (run_settle 3 tid (run [] s1) (Unwinding rid OSError) Ht1)
      as [-> ->].
    cbn. by rewrite Hc1.
Qed.
End Schedule.

(** ** Routing and aggregation in the manager *)

Section Routing.
Import Client.

Lemma eq_str_true n s : eq_str n s = true ↔ n = JStr s.
Proof.
  destruct n; cbn; try (split; [discriminate|intros [=]]).
  rewrite String.eqb_eq. split; [by intros ->|by intros [= ->]].
Qed.

Lemma any_named_refs tool_name objs refs :
  (∀ a, a ∈ refs →
     ∃ kv n, objs !! a = Some (JDict kv) ∧ dict_get "name" kv = Some n) →
  ∃ b, Manager.any_named tool_name objs (ItemRef <$> refs) = Ok b
    ∧ (b = true ↔ ∃ a kv, a ∈ refs ∧ objs !! a = Some (JDict kv)
                   ∧ dict_get "name" kv = Some (JStr tool_name)).
Proof.
  induction refs as [|a refs IH]; intros Hwf.
  - exists false. split; [done|]. split; [done|].
    intros (a & kv & Ha & _). by apply elem_of_nil in Ha.
  - destruct (Hwf a) as (kv & n & Ho & Hn); [left|].
    destruct IH as (b & Hb & Hiff).
    { intros a' Ha'. apply Hwf. by right. }
    cbn. rewrite Ho. cbn. rewrite Hn.
    destruct (eq_str n tool_name) eqn:En.
    + exists true. split; [done|]. split; [|done]. intros _.
      exists a, kv. apply eq_str_true in En as ->. repeat split; [left|done..].
    + exists b. split; [done|]. rewrite Hiff. split.
      * intros (a' & kv' & Ha' & H'). exists a', kv'. split; [by right|done].
      * intros (a' & kv' & Ha' & Ho' & Hn').
        apply elem_of_cons in Ha' as [->|Ha']; [|by exists a', kv'].
        rewrite Ho in Ho'. injection Ho' as <-. rewrite Hn in Hn'.
        injection Hn' as ->. cbn in En. by rewrite String.eqb_refl in En.
Qed.

Lemma has_tool_exposes tool_name c :
  well_formed c → exposes tool_name c →
  Manager.has_tool tool_name c = Ok true.
Proof.
  intros (refs & Ht & Hwf) (refs' & a & kv & Ht' & Ha & Ho & Hn).
  rewrite Ht in Ht'. injection Ht' as <-.
  unfold Manager.has_tool, get_tools. rewrite Ht. cbn.
  destruct (any_named_refs tool_name (objects c) refs Hwf) as (b & -> & Hb).
  f_equal. apply Hb. eauto.
Qed.

Lemma has_tool_not_exposes tool_name c :
  well_formed c → ¬ exposes tool_name c →
  Manager.has_tool tool_name c = Ok false.
Proof.
  intros (refs & Ht & Hwf) Hn.
  unfold Manager.has_tool, get_tools. rewrite Ht. cbn.
  destruct (any_named_refs tool_name (objects c) refs Hwf) as (b & -> & Hb).
  f_equal. destruct b; [|done]. exfalso. apply Hn.
  destruct Hb as [(a & kv & Ha & Ho & Hk) _]; [done|]. by exists refs, a, kv.
Qed.

Lemma search_first tool_name arguments w before name c after :
  Forall (fun p => well_formed p.2 ∧ ¬ exposes tool_name p.2) before →
  well_formed c → exposes tool_name c →
  Manager.search tool_name arguments w (before ++ (name, c) :: after)
  = (before ++ (name, (call_tool tool_name arguments w c).1) :: after,
     (call_tool tool_name arguments w c).2).
Proof.
  intros Hb Hwf He. induction Hb as [|[n' c'] before [Hwf' Hn'] _ IH]; cbn.
  - rewrite (has_tool_exposes _ _ Hwf He). by destruct (call_tool _ _ _ c).
  - cbn in Hwf', Hn'. rewrite (has_tool_not_exposes _ _ Hwf' Hn').
    by rewrite IH.
Qed.

Lemma search_none tool_name arguments w entries :
  Forall (fun p => well_formed p.2 ∧ ¬ exposes tool_name p.2) entries →
  Manager.search tool_name arguments w entries
  = (entries, Raise (ToolNotFound tool_name)).
Proof.
  induction 1 as [|[n' c'] entries [Hwf' Hn'] _ IH]; cbn; [done|].
  cbn in Hwf', Hn'. rewrite (has_tool_not_exposes _ _ Hwf' Hn').
  by rewrite IH.
Qed.

Lemma set_mcp_clients_same m :
  Manager.set_mcp_clients (Manager.mcp_clients m) m = m.
Proof. by destruct m. Qed.
End Routing.

(** ** The descriptors the search looks at *)

Section Examined.
Import Client.

Lemma any_named_examined tool_name objs refs :
  let ds := (fun a => default JNull (objs !! a)) <$> refs in
  Forall has_name (examined tool_name ds) →
  Manager.any_named tool_name objs (ItemRef <$> refs)
  = Ok (existsb (named tool_name) ds).
Proof.
  cbn zeta. induction refs as [|a refs IH]; [done|].
  cbn [fmap list_fmap examined existsb Manager.any_named item_value].
  intros H. apply Forall_cons in H as [(kv & n & Hd & Hn) Hrest].
  rewrite Hd in *. cbn [getitem named] in *. rewrite Hn in *.
  destruct (eq_str n tool_name); [done|]. by apply IH.
Qed.

Lemma exposes_named tool_name c ds :
  descriptors c = Some ds →
  exposes tool_name c ↔ existsb (named tool_name) ds = true.
Proof.
  unfold descriptors. destruct (tools c) as [refs| | | | |] eqn:Ht; [|done..].
  intros [= <-]. rewrite existsb_exists. split.
  - intros (refs' & a & kv & Ht' & Ha & Ho & Hn).
    rewrite Ht in Ht'. injection Ht' as <-.
    exists (JDict kv). split.
    + apply list_elem_of_In, list_elem_of_fmap. exists a. by rewrite Ho.
    + cbn. rewrite Hn. cbn. apply String.eqb_refl.
  - intros (d & Hd & Hnamed).
    apply list_elem_of_In, list_elem_of_fmap in Hd as (a & -> & Ha).
    destruct (objects c !! a) as [[| | | | |kv]|] eqn:Ho; cbn in Hnamed;
      try discriminate.
    destruct (dict_get "name" kv) as [n|] eqn:Hn; [|discriminate].
    exists refs, a, kv. repeat split; [done..|].
    destruct n; cbn in Hnamed; try discriminate.
    by apply String.eqb_eq in Hnamed as ->.
Qed.

Lemma has_tool_searchable tool_name c :
  searchable tool_name c →
  ∃ b, Manager.has_tool tool_name c = Ok b ∧ (b = true ↔ exposes tool_name c).
Proof.
  intros (ds & Hds & Hex). exists (existsb (named tool_name) ds).
  split; [|by rewrite (exposes_named _ _ _ Hds)].
  unfold descriptors in Hds. unfold Manager.has_tool, get_tools.
  destruct (tools c) as [refs| | | | |]; [|done..]. injection Hds as <-.
  cbn. by apply any_named_examined.
Qed.

Lemma search_first_searchable tool_name arguments w before name c after :
  Forall (fun p => searchable tool_name p.2 ∧ ¬ exposes tool_name p.2)
    before →
  searchable tool_name c → exposes tool_name c →
  Manager.search tool_name arguments w (before ++ (name, c) :: after)
  = (before ++ (name, (call_tool tool_name arguments w c).1) :: after,
     (call_tool tool_name arguments w c).2).
Proof.
  intros Hb Hs He. induction Hb as [|[n' c'] before [Hs' Hn'] _ IH]; cbn.
  - destruct (has_tool_searchable _ _ Hs) as ([] & -> & Hb).
    + by destruct (call_tool _ _ _ c).
    + apply Hb in He. discriminate.
  - cbn in Hs', Hn'. destruct (has_tool_searchable _ _ Hs') as ([] & -> & Hb).
    + exfalso. by apply Hn', Hb.
    + by rewrite IH.
Qed.

Lemma search_none_searchable tool_name arguments w entries :
  Forall (fun p => searchable tool_name p.2 ∧ ¬ exposes tool_name p.2)
    entries →
  Manager.search tool_name arguments w entries
  = (entries, Raise (ToolNotFound tool_name)).
Proof.
  induction 1 as [|[n' c'] entries [Hs' Hn'] _ IH]; cbn; [done|].
  cbn in Hs', Hn'. destruct (has_tool_searchable _ _ Hs') as ([] & -> & Hb).
  - exfalso. by apply Hn', Hb.
  - by rewrite IH.
Qed.
End Examined.

(** C5, as stated, fails for the empty server name.  A connection is
    registered under [""] and the call names it, yet the call is written to
    the process of ["A"], the first connection that lists the tool; the
    connection named is not used. *)
Lemma call_tool_empty_server_name :
  let w := Client.wire (Scenario.call_env 3) in
  let m := Scenario.unnamed in
  let r := Manager.call_tool "x" JNull (Some "") w m in
  ∃ c a a',
    dict_get "" (Manager.mcp_clients m) = Some c
    ∧ r ≠ routed "" "x" JNull w m c
    ∧ dict_get "" (Manager.mcp_clients r.1) = Some c
    ∧ dict_get "A" (Manager.mcp_clients m) = Some a
    ∧ dict_get "A" (Manager.mcp_clients r.1) = Some a'
    ∧ Client.out_method <$> drop (length (Client.stdin a)) (Client.stdin a')
      = ["tools/call"].
Proof.
  cbn zeta.
  destruct (dict_get "" (Manager.mcp_clients Scenario.unnamed)) as [c|] eqn:Ec;
    [|by vm_compute in Ec].
  destruct (dict_get "A" (Manager.mcp_clients Scenario.unnamed)) as [a|] eqn:Ea;
    [|by vm_compute in Ea].
  eexists c, a, _. split; [done|]. split.
  { intros H. apply (f_equal snd) in H.
    vm_compute in Ec. injection Ec as <-. vm_compute in H. discriminate. }
  split; [by rewrite <- Ec; vm_compute|].
  split; [done|].
  vm_compute in Ea. injection Ea as <-.
  split; vm_compute; reflexivity.
Qed.

(** C5, amended.  With a server name that is not empty, [call_tool] hands
    the call to the connection registered under it and raises when there is
    none.  Without a server name, or with the empty one, it hands the call
    to the first connection, in the order of the dictionary, whose cached
    list contains a descriptor of that name, and raises when no connection
    has one.  The search part holds when each cache consulted is a list and
    the descriptors looked at in it, those up to and including the first of
    that name, are dictionaries with a name; nothing is required of the
    descriptors after that one, nor of the connections after the one
    chosen. *)
Theorem call_tool_routing
    (tool_name : string) (arguments : Json) (w : Client.Wire)
    (m : Manager.McpServerManager) :
  (∀ name, name ≠ "" →
     Manager.call_tool tool_name arguments (Some name) w m
     = match dict_get name (Manager.mcp_clients m) with
       | Some c => routed name tool_name arguments w m c
       | None => (m, Raise (ServerNotFound name))
       end)
  ∧ (∀ server_name, server_name = None ∨ server_name = Some "" →
     (∀ before name c after,
        Manager.mcp_clients m = before ++ (name, c) :: after →
        Forall (fun p => searchable tool_name p.2 ∧ ¬ exposes tool_name p.2)
          before →
        searchable tool_name c → exposes tool_name c →
        Manager.call_tool tool_name arguments server_name w m
        = (Manager.set_mcp_clients
             (before
              ++ (name, (Client.call_tool tool_name arguments w c).1) :: after)
             m,
           (Client.call_tool tool_name arguments w c).2))
     ∧ (Forall (fun p => searchable tool_name p.2 ∧ ¬ exposes tool_name p.2)
          (Manager.mcp_clients m) →
        Manager.call_tool tool_name arguments server_name w m
        = (m, Raise (ToolNotFound tool_name)))).
Proof.
  split.
  - intros name Hne. unfold Manager.call_tool. cbn.
    destruct (String.eqb name "") eqn:E; [by apply String.eqb_eq in E|].
    cbn. destruct (dict_get name _) as [c|]; [|done].
    unfold routed. by destruct (Client.call_tool _ _ _ c).
  - intros server_name Hs.
    assert (Hd : Manager.call_tool tool_name arguments server_name w m
                 = let r := Manager.search tool_name arguments w
                              (Manager.mcp_clients m) in
                   (Manager.set_mcp_clients r.1 m, r.2)).
    { unfold Manager.call_tool. destruct Hs as [-> | ->]; cbn;
        by destruct (Manager.search _ _ _ _). }
    split.
    + intros before name c after Hm Hb Hsc He.
      rewrite Hd, Hm, (search_first_searchable _ _ _ _ _ _ _ Hb Hsc He). done.
    + intros Hall. rewrite Hd, (search_none_searchable _ _ _ _ Hall). cbn.
      by rewrite set_mcp_clients_same.
Qed.

(** On [Scenario.ragged] the cache of ["A"] holds the descriptor of [x]
    and then the number 5, which the search for [x] never reaches; on
    [Scenario.unnamed] no connection lists a tool [y]. *)
Lemma call_tool_routing_witness :
  let w := Client.wire (Scenario.call_env 3) in
  (∃ a, dict_get "A" (Manager.mcp_clients Scenario.ragged) = Some a
        ∧ cached "A" Scenario.ragged = Some [Scenario.tool_x; JInt 5]
        ∧ Manager.call_tool "x" JNull (Some "A") w Scenario.ragged
          = routed "A" "x" JNull w Scenario.ragged a
        ∧ Manager.call_tool "x" JNull None w Scenario.ragged
          = routed "A" "x" JNull w Scenario.ragged a)
  ∧ Manager.call_tool "x" JNull (Some "B") w Scenario.ragged
    = (Scenario.ragged, Raise (ServerNotFound "B"))
  ∧ (Manager.call_tool "x" JNull None w Scenario.ragged).2
    = Ok (JDict [("content", JList [])])
  ∧ Manager.call_tool "y" JNull None w Scenario.unnamed
    = (Scenario.unnamed, Raise (ToolNotFound "y")).
Proof.
  cbn zeta.
  assert (Hm : ∃ a b, Manager.mcp_clients Scenario.ragged
                      = [] ++ ("A", a) :: [("", b)]
             ∧ descriptors a = Some [Scenario.tool_x; JInt 5]
             ∧ Client.tools a = Client.ToolList [0; 1]
             ∧ Client.objects a = [Scenario.tool_x; JInt 5]
             ∧ (Client.call_tool "x" JNull
                  (Client.wire (Scenario.call_env 3)) a).2
               = Ok (JDict [("content", JList [])])).
  { eexists _, _. split; [vm_compute; reflexivity|].
    repeat split; vm_compute; reflexivity. }
  destruct Hm as (a & b & Hm & Hda & Hta & Hoa & Hcall).
  assert (Hx : has_name Scenario.tool_x).
  { exists [("name", JStr "x")], (JStr "x"). split; reflexivity. }
  assert (Hsa : searchable "x" a).
  { exists [Scenario.tool_x; JInt 5]. split; [exact Hda|].
    constructor; [exact Hx|constructor]. }
  assert (Hxa : exposes "x" a).
  { exists [0; 1], 0, [("name", JStr "x")]. rewrite Hoa.
    repeat split; [done|by left]. }
  assert (Hm' : ∃ a' b', Manager.mcp_clients Scenario.unnamed
                         = [("A", a'); ("", b')]
              ∧ descriptors a' = Some [Scenario.tool_x]
              ∧ descriptors b' = Some []).
  { eexists _, _. split; [vm_compute; reflexivity|].
    split; vm_compute; reflexivity. }
  destruct Hm' as (a' & b' & Hm' & Hda' & Hdb').
  assert (Hnone : ∀ c ds, descriptors c = Some ds →
            existsb (named "y") ds = false →
            Forall has_name ds →
            searchable "y" c ∧ ¬ exposes "y" c).
  { intros c ds Hds Hex Hall. split.
    - exists ds. split; [done|]. clear Hds.
      induction Hall as [|d ds Hd _ IH]; [constructor|].
      cbn in *. apply orb_false_elim in Hex as [-> Hex].
      constructor; [done|]. by apply IH.
    - intros He. apply (exposes_named _ _ _ Hds) in He. congruence. }
  destruct (call_tool_routing "x" JNull (Client.wire (Scenario.call_env 3))
              Scenario.ragged) as [Hexp Hsearch].
  destruct (call_tool_routing "y" JNull (Client.wire (Scenario.call_env 3))
              Scenario.unnamed) as [_ Hsearch'].
  destruct (Hsearch None) as [Hfirst _]; [by left|].
  specialize (Hfirst [] "A" a [("", b)] Hm (Forall_nil_2 _) Hsa Hxa).
  split.
  { exists a. split; [by rewrite Hm|]. split.
    { unfold cached. rewrite Hm. cbn. exact Hda. }
    split.
    - rewrite (Hexp "A") by done. by rewrite Hm.
    - rewrite Hfirst. unfold routed. rewrite Hm. reflexivity. }
  split.
  { rewrite (Hexp "B") by done. by rewrite Hm. }
  split.
  { rewrite Hfirst. exact Hcall. }
  destruct (Hsearch' None) as [_ H]; [by left|].
  apply H. rewrite Hm'. repeat constructor; cbn.
  - apply (Hnone a' _ Hda'); [reflexivity|]. by repeat constructor.
  - apply (Hnone a' _ Hda'); [reflexivity|]. by repeat constructor.
  - apply (Hnone b' _ Hdb'); [done|constructor].
  - apply (Hnone b' _ Hdb'); [done|constructor].
Defined.

(** C9, on one registered connection ["A"] that caches the single descriptor
    [{"name": "x"}].  [get_all_tools] returns that descriptor, and the
    descriptor held in the connection's cache now carries the key
    ["_mcp_server"]: the list [get_tools] hands out is a new list of the
    same objects, and the manager writes the tag into them. *)
Theorem get_all_tools_tags_cache :
  let r := Manager.get_all_tools Scenario.serving in
  cached "A" Scenario.serving = Some [JDict [("name", JStr "x")]]
  ∧ r.2 = Ok [("A", Client.ItemRef 0)]
  ∧ Client.get_tools <$> dict_get "A" (Manager.mcp_clients Scenario.serving)
    = Some (Ok (Client.ToolList [0]))
  ∧ cached "A" r.1
    = Some [JDict [("name", JStr "x"); ("_mcp_server", JStr "A")]].
Proof. vm_compute. done. Qed.

(** The write goes through the reference: tagging an element of the copied
    list changes the object in the connection's store. *)
Lemma tag_writes_store server_name a kv c :
  Client.objects c !! a = Some (JDict kv) →
  Client.objects (Manager.tag server_name (Client.ItemRef a) c).1 !! a
  = Some (JDict (dict_set "_mcp_server" (JStr server_name) kv)).
Proof.
  intros H. unfold Manager.tag. rewrite H. cbn.
  apply list_lookup_insert_eq. by eapply lookup_lt_Some.
Qed.

(** ** Aggregation writes into the cached descriptors *)

Section Tagging.
Import Client.

Lemma retagged_refl name c : retagged name c c.
Proof. split; [done|]. split; [done|]. intros a kv H. by exists kv. Qed.

Lemma retagged_trans name c1 c2 c3 :
  retagged name c1 c2 → retagged name c2 c3 → retagged name c1 c3.
Proof.
  intros (Ht & Hl & H) (Ht' & Hl' & H').
  split; [congruence|]. split; [congruence|]. intros a kv Ha.
  destruct (H a kv Ha) as (kv1 & Ha1 & Hk1 & Hn1).
  destruct (H' a kv1 Ha1) as (kv2 & Ha2 & Hk2 & Hn2).
  exists kv2. split; [done|]. split.
  - intros k Hk. by rewrite Hk2, Hk1.
  - intros Hn. by apply Hn2, Hn1.
Qed.

Lemma tag_dict name a kv c :
  objects c !! a = Some (JDict kv) →
  ∃ c', Manager.tag name (ItemRef a) c = (c', Ok ())
    ∧ retagged name c c'
    ∧ ∃ kv', objects c' !! a = Some (JDict kv')
        ∧ dict_get "_mcp_server" kv' = Some (JStr name).
Proof.
  intros Ha. unfold Manager.tag. rewrite Ha. eexists. split; [done|].
  pose proof (lookup_lt_Some _ _ _ Ha) as Hlt.
  split.
  - split; [done|]. split; [cbn; by rewrite length_insert|].
    intros b kvb Hb. cbn. destruct (decide (a = b)) as [<-|Hne].
    + rewrite list_lookup_insert_eq by done. eexists. split; [done|].
      rewrite Ha in Hb. injection Hb as <-. split.
      * intros k Hk. by rewrite dict_get_set_ne.
      * intros _. apply dict_get_set.
    + rewrite list_lookup_insert_ne by done. by exists kvb.
  - cbn. rewrite list_lookup_insert_eq by done. eexists. split; [done|].
    apply dict_get_set.
Qed.

Lemma tag_each_dicts name refs c :
  (∀ a, a ∈ refs → ∃ kv, objects c !! a = Some (JDict kv)) →
  ∃ c', Manager.tag_each name (ItemRef <$> refs) c = (c', Ok ())
    ∧ retagged name c c'
    ∧ ∀ a, a ∈ refs →
        ∃ kv', objects c' !! a = Some (JDict kv')
          ∧ dict_get "_mcp_server" kv' = Some (JStr name).
Proof.
  revert c. induction refs as [|a refs IH]; intros c Hd.
  - exists c. split; [done|]. split; [apply retagged_refl|].
    by intros a ?%elem_of_nil.
  - destruct (Hd a) as [kv Ha]; [by left|].
    destruct (tag_dict name a kv c Ha)
      as (c1 & E1 & Hr1 & kv1 & Ha1 & Hn1).
    destruct (IH c1) as (c' & E' & Hr' & Hall).
    { intros b Hb. destruct (Hd b) as [kvb Hkb]; [by right|].
      destruct Hr1 as (_ & _ & H). destruct (H b kvb Hkb) as (kv' & ? & _).
      by exists kv'. }
    exists c'. rewrite fmap_cons. cbn [Manager.tag_each]. rewrite E1, E'.
    split; [done|].
    split; [by eapply retagged_trans|].
    intros b [->|Hb]%elem_of_cons; [|by apply Hall].
    destruct Hr' as (_ & _ & H). destruct (H a kv1 Ha1) as (kv' & ? & _ & Hn).
    exists kv'. split; [done|]. by apply Hn.
Qed.

(** For one connection whose cached list holds dictionaries: the manager
    gets every cached descriptor, each now tagged with the server name, and
    the tag is in the connection's own objects. *)
Lemma tagged_tools_dicts name refs c :
  tools c = ToolList refs →
  (∀ a, a ∈ refs → ∃ kv, objects c !! a = Some (JDict kv)) →
  ∃ c', Manager.tagged_tools name c = (c', Ok (ItemRef <$> refs))
    ∧ retagged name c c'
    ∧ ∀ a, a ∈ refs →
        ∃ kv', objects c' !! a = Some (JDict kv')
          ∧ dict_get "_mcp_server" kv' = Some (JStr name).
Proof.
  intros Ht Hd. unfold Manager.tagged_tools, get_tools. rewrite Ht. cbn.
  destruct (tag_each_dicts name refs c Hd) as (c' & -> & Hr & Hall).
  by exists c'.
Qed.
End Tagging.

(** ** Starting a server that is already registered *)

(** C10, as stated, fails: the connection of ["A"] is registered but its
    process has exited, and [start_server] still returns success without
    spawning anything or changing a registration. *)
Lemma start_server_registered_dead :
  Manager.io Scenario.bereft = true
  ∧ noop_success "A" Scenario.config Scenario.good_start Scenario.bereft
  ∧ ¬ live_connection "A" Scenario.bereft.
Proof.
  split; [done|]. split.
  - eexists. split; [vm_compute; reflexivity|]. by vm_compute.
  - intros (c & Hc & Hp). vm_compute in Hc. injection Hc as <-.
    vm_compute in Hp. discriminate.
Qed.

(** C10, amended.  With a sink attached, [start_server] returns success
    without changing the registrations or the processes exactly when the
    name is a key of [active_processes], whether or not that process has
    exited. *)
Theorem start_server_noop_iff_registered
    (name : string) (config : Manager.Config) (e : Manager.StartEnv)
    (m : Manager.McpServerManager) :
  Manager.io m = true →
  noop_success name config e m
  ↔ dict_has name (Manager.active_processes m) = true.
Proof.
  intros Hio. unfold noop_success, Manager.start_server, Manager.report.
  rewrite Hio. destruct (dict_has name (Manager.active_processes m)).
  - split; [done|]. intros _. eexists. by split.
  - split; [|done]. intros (m' & H & _ & _ & Hp). exfalso.
    destruct (negb _); [discriminate|].
    destruct (Manager.child e) as [p|]; [|discriminate].
    destruct (Client.initialize _ _ _ _) as [c []]; cbn in H;
      [|discriminate].
    rewrite Hio in H. injection H as <-. cbn in Hp.
    apply (f_equal length) in Hp. rewrite length_app in Hp. cbn in Hp. lia.
Qed.

Lemma start_server_noop_iff_registered_witness :
  noop_success "A" Scenario.config Scenario.good_start Scenario.bereft.
Proof.
  apply (start_server_noop_iff_registered "A" Scenario.config
           Scenario.good_start Scenario.bereft); reflexivity.
Defined.

(** ** Stopping servers *)

Section Stopping.
Import Manager.

Lemma proc_at_on_proc f pid m :
  pid < length (procs m) → proc_at pid (on_proc f pid m) = f (proc_at pid m).
Proof.
  intros Hlt. unfold proc_at, on_proc. cbn.
  destruct (lookup_lt_is_Some_2 _ _ Hlt) as [p Hp].
  by rewrite list_lookup_alter_eq, Hp.
Qed.

Lemma length_procs_on_proc f pid m :
  length (procs (on_proc f pid m)) = length (procs m).
Proof. unfold on_proc. cbn. by rewrite length_alter. Qed.

Lemma sigterm_on_proc f pid pid' m :
  (∀ p, Proc.sigterm p = true → Proc.sigterm (f p) = true) →
  Proc.sigterm (proc_at pid m) = true →
  Proc.sigterm (proc_at pid (on_proc f pid' m)) = true.
Proof.
  intros Hf. unfold proc_at, on_proc. cbn.
  destruct (decide (pid' = pid)) as [->|Hne].
  - rewrite list_lookup_alter_eq. destruct (procs m !! pid); cbn; [apply Hf|done].
  - by rewrite list_lookup_alter_ne.
Qed.

(** What one [stop_server] does to a manager with a sink on a registered
    name. *)
Lemma stop_server_registered name pid m :
  io m = true →
  dict_get name (active_processes m) = Some pid →
  ∃ b m',
    stop_server name m = (m', Ok b)
    ∧ io m' = true
    ∧ active_processes m' = dict_del name (active_processes m)
    ∧ mcp_clients m' = dict_del name (mcp_clients m)
    ∧ (pid < length (procs m) →
       Proc.sigterm (proc_at pid m') = true
       ∧ Proc.exited (proc_at pid m') = true
       ∧ (b = false → Proc.sigkill (proc_at pid m') = true)).
Proof.
  intros Hio Hpid. unfold stop_server.
  assert (Hhas : dict_has name (active_processes m) = true).
  { apply dict_has_true. by eexists. }
  rewrite Hhas. cbn [negb].
  set (m1 := match dict_get name (mcp_clients m) with
             | Some client =>
                 set_mcp_clients
                   (dict_del name
                      (mcp_clients (on_proc Client.close
                                      (Client.process client) m)))
                   (on_proc Client.close (Client.process client) m)
             | None => m
             end).
  assert (H1 : io m1 = true ∧ active_processes m1 = active_processes m
               ∧ mcp_clients m1 = dict_del name (mcp_clients m)
               ∧ length (procs m1) = length (procs m)).
  { subst m1. destruct (dict_get name (mcp_clients m)) as [client|] eqn:Ec.
    - cbn. by rewrite length_alter.
    - by rewrite dict_del_absent. }
  destruct H1 as (Hio1 & Ha1 & Hc1 & Hl1).
  rewrite Ha1, Hpid. cbn [default from_option]. unfold id.
  set (m2 := on_proc Proc.terminate pid m1).
  assert (Ht2 : pid < length (procs m) → Proc.sigterm (proc_at pid m2) = true).
  { intros Hlt. subst m2. rewrite proc_at_on_proc by lia. done. }
  unfold report.
  destruct (Proc.wait (proc_at pid m2)) as [[]|x] eqn:Ew.
  - cbn. rewrite Hio1. exists true. eexists. split; [done|]. cbn.
    rewrite Ha1, Hc1. split; [exact Hio1|]. do 2 (split; [done|]).
    intros Hlt. split; [by apply Ht2|]. split; [|done].
    unfold Proc.wait in Ew. by destruct (Proc.exited _).
  - cbn. rewrite Hio1. exists false. eexists. split; [done|]. cbn.
    rewrite Ha1, Hc1. split; [exact Hio1|]. do 2 (split; [done|]).
    intros Hlt. split.
    { apply (sigterm_on_proc Proc.kill pid pid m2); [done|by apply Ht2]. }
    unfold proc_at, on_proc. cbn. rewrite list_lookup_alter_eq.
    destruct (lookup_lt_is_Some_2 (alter Proc.terminate pid (procs m1)) pid)
      as [p ->]; [|done].
    rewrite length_alter. lia.
Qed.

Lemma stop_server_unregistered name m :
  dict_get name (active_processes m) = None → stop_server name m = (m, Ok false).
Proof.
  intros H. unfold stop_server.
  by apply dict_has_false in H as ->.
Qed.

Lemma consistent_del name m m' :
  consistent m →
  active_processes m' = dict_del name (active_processes m) →
  mcp_clients m' = dict_del name (mcp_clients m) →
  consistent m'.
Proof.
  intros Hc Ha Hm k. rewrite Ha, Hm, !dict_has_true.
  destruct (decide (k = name)) as [->|Hne].
  - rewrite dict_get_del. by intros [? [=]].
  - rewrite !dict_get_del_ne by done. rewrite <- !dict_has_true. apply Hc.
Qed.

Lemma stop_each_all names m :
  io m = true → consistent m →
  ∃ m', stop_each names m = (m', Ok ())
    ∧ io m' = true ∧ consistent m'
    ∧ active_processes m'
      = foldl (fun d k => dict_del k d) (active_processes m) names
    ∧ mcp_clients m'
      = foldl (fun d k => dict_del k d) (mcp_clients m) names.
Proof.
  revert m. induction names as [|name names IH]; intros m Hio Hc; cbn.
  - by exists m.
  - destruct (dict_get name (active_processes m)) as [pid|] eqn:Ea.
    + destruct (stop_server_registered name pid m Hio Ea)
        as (b & m1 & -> & Hio1 & Ha1 & Hc1 & _).
      destruct (IH m1 Hio1) as (m' & -> & Hio' & Hc' & Ha' & Hm').
      { by eapply consistent_del. }
      exists m'. by rewrite Ha', Hm', Ha1, Hc1.
    + rewrite (stop_server_unregistered _ _ Ea).
      destruct (IH m Hio Hc) as (m' & -> & Hio' & Hc' & Ha' & Hm').
      exists m'. rewrite Ha', Hm'. do 3 (split; [done|]). split.
      * by rewrite dict_del_absent.
      * rewrite (dict_del_absent name (mcp_clients m)); [done|].
        apply dict_has_false. destruct (dict_has name (mcp_clients m)) eqn:E;
          [|done].
        apply Hc in E. apply dict_has_false in Ea. congruence.
Qed.
End Stopping.

(** With a sink attached, stopping does what it is meant to.
    [stop_server] on a registered name returns without raising and leaves
    the name in neither dictionary, whether the process went away after the
    termination signal or not; the signal has been sent and the process is
    gone, and when the wait after the signal fails the process has been
    killed and [False] is returned.  [stop_all_servers] returns without
    raising and leaves both dictionaries empty, however the processes react,
    provided every registered connection has its process registered. *)
Theorem stop_server_unregisters (m : Manager.McpServerManager) :
  Manager.io m = true →
  (∀ name pid,
     dict_get name (Manager.active_processes m) = Some pid →
     let r := Manager.stop_server name m in
     (∃ b, r.2 = Ok b)
     ∧ dict_get name (Manager.active_processes r.1) = None
     ∧ dict_get name (Manager.mcp_clients r.1) = None
     ∧ (pid < length (Manager.procs m) →
        Proc.sigterm (Manager.proc_at pid r.1) = true
        ∧ Proc.exited (Manager.proc_at pid r.1) = true
        ∧ (r.2 = Ok false → Proc.sigkill (Manager.proc_at pid r.1) = true)))
  ∧ (consistent m →
     let r := Manager.stop_all_servers m in
     r.2 = Ok ()
     ∧ Manager.active_processes r.1 = []
     ∧ Manager.mcp_clients r.1 = []).
Proof.
  intros Hio. split.
  - intros name pid Hpid. cbn zeta.
    destruct (stop_server_registered name pid m Hio Hpid)
      as (b & m' & -> & _ & Ha & Hc & Hp). cbn.
    split; [by exists b|]. rewrite Ha, Hc, !dict_get_del.
    split; [done|]. split; [done|]. intros Hlt.
    destruct (Hp Hlt) as (Ht & He & Hb). split; [done|]. split; [done|].
    intros [= ->]. by apply Hb.
  - intros Hc. cbn zeta. unfold Manager.stop_all_servers.
    destruct (stop_each_all (dict_keys (Manager.active_processes m)) m Hio Hc)
      as (m' & -> & _ & _ & Ha' & Hm'). cbn. rewrite Ha', Hm'.
    split; [done|]. split; apply dict_del_all.
    + intros p Hp. unfold dict_keys. by apply list_elem_of_fmap_2.
    + intros [k c] Hp. cbn. apply dict_get_elem, dict_has_true, Hc.
      apply dict_has_true, dict_get_elem. unfold dict_keys.
      by apply (list_elem_of_fmap_2 fst _ (k, c)).
Qed.

Lemma consistent_keys (m : Manager.McpServerManager) :
  dict_keys (Manager.mcp_clients m) ⊆ dict_keys (Manager.active_processes m) →
  consistent m.
Proof.
  intros Hsub name. rewrite !dict_has_true, !dict_get_elem. apply Hsub.
Qed.

Lemma stop_server_unregisters_witness :
  (let r := Manager.stop_server "B" Scenario.hanging in
   dict_get "B" (Manager.active_processes r.1) = None
   ∧ dict_get "B" (Manager.mcp_clients r.1) = None
   ∧ Proc.exited (Manager.proc_at 1 r.1) = true)
  ∧ (let r := Manager.stop_all_servers Scenario.hanging in
     r.2 = Ok ()
     ∧ Manager.active_processes r.1 = []
     ∧ Manager.mcp_clients r.1 = []).
Proof.
  destruct (stop_server_unregisters Scenario.hanging eq_refl) as [H1 H2].
  split.
  - destruct (H1 "B" 1 eq_refl) as (_ & Ha & Hc & Hp). cbn zeta.
    split; [exact Ha|]. split; [exact Hc|].
    destruct Hp as (_ & Hk & _); [vm_compute; lia|]. exact Hk.
  - apply H2. apply consistent_keys.
    assert (dict_keys (Manager.mcp_clients Scenario.hanging) = ["A"; "B"])
      as -> by (vm_compute; reflexivity).
    assert (dict_keys (Manager.active_processes Scenario.hanging) = ["A"; "B"])
      as -> by (vm_compute; reflexivity).
    done.
Defined.

Section Unheard.
Import Manager.

(** Without a sink, [stop_server] on a registered name raises: the report
    that the server was stopped, or that stopping failed, is made on
    [None], and the handler's own report raises in turn. *)
Lemma stop_server_raises name m :
  io m = false →
  dict_has name (active_processes m) = true →
  let r := stop_server name m in
  r.2 = Raise AttributeError
  ∧ (active_processes r.1 = active_processes m
     ∨ active_processes r.1 = dict_del name (active_processes m))
  ∧ mcp_clients r.1 = dict_del name (mcp_clients m).
Proof.
  intros Hio Ha. cbn zeta. unfold stop_server, report. rewrite Ha. cbn [negb].
  set (m1 := match dict_get name (mcp_clients m) with
             | Some client => _ | None => m end).
  assert (H1 : io m1 = false ∧ active_processes m1 = active_processes m
               ∧ mcp_clients m1 = dict_del name (mcp_clients m)).
  { subst m1. destruct (dict_get name (mcp_clients m)) as [client|] eqn:Ec.
    - done.
    - by rewrite dict_del_absent. }
  destruct H1 as (Hio1 & Ha1 & Hc1). rewrite Ha1.
  destruct (Proc.wait _); cbn; rewrite Hio1; cbn; rewrite ?Hio1; cbn;
    rewrite ?Ha1, ?Hc1; auto.
Qed.
End Unheard.

(** C6.  On a manager made without a sink, [stop_all_servers] raises
    [AttributeError] out of its first [stop_server], whose report is made on
    [None]: the loop ends there, and every other server is registered
    afterwards as it was before, in both dictionaries. *)
Theorem stop_all_servers_without_sink
    (m : Manager.McpServerManager) (first : string) (others : list string) :
  Manager.io m = false →
  dict_keys (Manager.active_processes m) = first :: others →
  let r := Manager.stop_all_servers m in
  r.2 = Raise AttributeError
  ∧ ∀ name, name ≠ first →
      dict_get name (Manager.active_processes r.1)
      = dict_get name (Manager.active_processes m)
      ∧ dict_get name (Manager.mcp_clients r.1)
        = dict_get name (Manager.mcp_clients m).
Proof.
  intros Hio Hkeys. cbn zeta. unfold Manager.stop_all_servers.
  rewrite Hkeys. cbn [Manager.stop_each].
  assert (Ha : dict_has first (Manager.active_processes m) = true).
  { apply dict_has_true, dict_get_elem. rewrite Hkeys. left. }
  destruct (stop_server_raises first m Hio Ha) as (Hr & Hp & Hc).
  destruct (Manager.stop_server first m) as [m' r]. cbn in Hr, Hp, Hc.
  subst r. cbn. split; [done|]. intros name Hne. rewrite Hc. split.
  - destruct Hp as [-> | ->]; [done|]. by rewrite dict_get_del_ne.
  - by rewrite dict_get_del_ne.
Qed.

(** [McpServerManager()] with the servers ["A"] and ["B"]: after
    [stop_all_servers], ["B"] is registered in both dictionaries and its
    process has been sent no signal. *)
Lemma stop_all_servers_without_sink_witness :
  let r := Manager.stop_all_servers Scenario.unheard in
  r.2 = Raise AttributeError
  ∧ dict_get "B" (Manager.active_processes r.1) = Some 1
  ∧ dict_has "B" (Manager.mcp_clients r.1) = true
  ∧ Manager.proc_at 1 r.1 = Proc.spawned true true false.
Proof.
  destruct (stop_all_servers_without_sink Scenario.unheard "A" ["B"]
              eq_refl eq_refl) as [Hr Hothers].
  destruct (Hothers "B") as [Ha Hc]; [done|].
  cbn zeta. split; [exact Hr|]. split; [by rewrite Ha|].
  split; [|vm_compute; reflexivity].
  unfold dict_has. rewrite Hc. vm_compute. reflexivity.
Defined.

(** The child of ["B"] ignores the end of its input and the termination
    signal: the connection's [close] kills it, after which the manager's own
    wait succeeds. *)
Example stop_server_hanging :
  let r := Manager.stop_server "B" Scenario.hanging in
  r.2 = Ok true
  ∧ Proc.sigkill (Manager.proc_at 1 r.1) = true
  ∧ dict_keys (Manager.active_processes r.1) = ["A"]
  ∧ dict_keys (Manager.mcp_clients r.1) = ["A"].
Proof. vm_compute. done. Qed.

(** [close] always leaves the process gone. *)
Lemma close_exited p : Proc.exited (Client.close p) = true.
Proof.
  unfold Client.close, Client.escalate, Proc.poll, Proc.wait.
  destruct p as [[] ? ? ? [] [] []]; reflexivity.
Qed.

(** ** Starting a server *)

Lemma alter_last {A} (f : A → A) (l : list A) (x : A) :
  alter f (length l) (l ++ [x]) = l ++ [f x].
Proof. induction l as [|y l IH]; cbn; [done|]. by rewrite <- IH. Qed.

(** With a sink attached, a failed start is undone.  On a manager with a
    sink in which every registered connection has its process registered:
    when [start_server] does not return [True], it returns [False] without
    raising; both dictionaries are what they were and have no entry for the
    name; the processes spawned during the call (at most one) have been sent
    the termination signal, after which they are not waited for; and with a
    launch spec whose command is missing or empty no process is spawned. *)
Theorem start_server_failure_unwinds
    (name : string) (config : Manager.Config) (e : Manager.StartEnv)
    (m : Manager.McpServerManager) :
  Manager.io m = true →
  consistent m →
  let r := Manager.start_server name config e m in
  r.2 ≠ Ok true →
  r.2 = Ok false
  ∧ Manager.active_processes r.1 = Manager.active_processes m
  ∧ Manager.mcp_clients r.1 = Manager.mcp_clients m
  ∧ dict_get name (Manager.active_processes r.1) = None
  ∧ dict_get name (Manager.mcp_clients r.1) = None
  ∧ (∃ spawned,
       Manager.procs r.1 = Manager.procs m ++ spawned
       ∧ Forall (fun p => Proc.sigterm p = true) spawned
       ∧ (length spawned ≤ 1)%nat
       ∧ (truthy (from_option JStr JNull (Manager.command config)) = false →
          spawned = [])).
Proof.
  intros Hio Hc. cbn zeta.
  unfold Manager.start_server, Manager.report. rewrite Hio.
  destruct (dict_has name (Manager.active_processes m)) eqn:Ha; [done|].
  assert (Hna : dict_get name (Manager.active_processes m) = None)
    by by apply dict_has_false.
  assert (Hnc : dict_get name (Manager.mcp_clients m) = None).
  { apply dict_has_false.
    destruct (dict_has name (Manager.mcp_clients m)) eqn:E; [|done].
    apply Hc in E. congruence. }
  assert (Hsame : ∀ d, Manager.io m = true →
            (Manager.set_log d m, Ok false).2 = Ok false
            ∧ Manager.active_processes (Manager.set_log d m)
              = Manager.active_processes m
            ∧ Manager.mcp_clients (Manager.set_log d m) = Manager.mcp_clients m
            ∧ dict_get name (Manager.active_processes (Manager.set_log d m))
              = None
            ∧ dict_get name (Manager.mcp_clients (Manager.set_log d m)) = None
            ∧ ∃ spawned,
                Manager.procs (Manager.set_log d m)
                = Manager.procs m ++ spawned
                ∧ Forall (fun p => Proc.sigterm p = true) spawned
                ∧ (length spawned ≤ 1)%nat
                ∧ (truthy (from_option JStr JNull (Manager.command config))
                   = false → spawned = [])).
  { intros d _. cbn. do 5 (split; [done|]).
    exists []. rewrite app_nil_r. split; [done|]. split; [constructor|].
    split; [cbn; lia|done]. }
  destruct (truthy _) eqn:Et; cbn [negb]; [|intros _; by apply Hsame].
  destruct (Manager.child e) as [p|]; [|intros _; by apply Hsame].
  destruct (Client.initialize _ _ _ _) as [c []]; cbn.
  - rewrite Hio. cbn. done.
  - intros _. rewrite dict_del_set_absent by done.
    do 5 (split; [done|]).
    exists [Proc.terminate p]. rewrite alter_last.
    split; [done|]. split; [by repeat constructor|].
    split; [cbn; lia|discriminate].
Qed.

Lemma start_server_failure_unwinds_witness :
  let r := Manager.start_server "C" Scenario.config Scenario.mute_start
             Scenario.serving in
  r.2 = Ok false
  ∧ dict_keys (Manager.active_processes r.1) = ["A"]
  ∧ dict_get "C" (Manager.mcp_clients r.1) = None
  ∧ Proc.sigterm <$> Manager.procs r.1 = [false; true].
Proof.
  assert (Hc : consistent Scenario.serving).
  { apply consistent_keys.
    assert (dict_keys (Manager.mcp_clients Scenario.serving) = ["A"])
      as -> by (vm_compute; reflexivity).
    assert (dict_keys (Manager.active_processes Scenario.serving) = ["A"])
      as -> by (vm_compute; reflexivity).
    done. }
  destruct (start_server_failure_unwinds "C" Scenario.config
              Scenario.mute_start Scenario.serving eq_refl Hc)
    as (Hr & Ha & _ & _ & Hn & _).
  { vm_compute. discriminate. }
  cbn zeta. split; [exact Hr|]. rewrite Ha. split; [vm_compute; reflexivity|].
  split; [exact Hn|]. vm_compute. reflexivity.
Defined.

(** C2.  On a manager made without a sink, [McpServerManager()], with a
    launch spec that has a command and a server that answers the handshake:
    the report of the success is made on [None], and so is the report of the
    handler that catches it.  [start_server] raises [AttributeError]; the
    name is left in both dictionaries, with an initialized connection, and
    the process spawned is running and has been sent no signal. *)
Theorem start_server_raises_registered :
  let r := Manager.start_server "A" Scenario.config Scenario.good_start
             (Manager.__init__ false) in
  r.2 = Raise AttributeError
  ∧ Manager.active_processes r.1 = [("A", 0)]
  ∧ (∃ c, Manager.mcp_clients r.1 = [("A", c)]
          ∧ Client.initialized c = true ∧ Client.process c = 0)
  ∧ Manager.procs r.1 = [Proc.spawned true true false]
  ∧ Proc.poll (Manager.proc_at 0 r.1) = false
  ∧ Proc.sigterm (Manager.proc_at 0 r.1) = false.
Proof.
  cbn zeta. split; [vm_compute; reflexivity|].
  split; [vm_compute; reflexivity|].
  split; [|repeat split; vm_compute; reflexivity].
  eexists. split; [vm_compute; reflexivity|].
  split; vm_compute; reflexivity.
Qed.

(** ** The registrations stay consistent

    The hypothesis made above that every registered connection has its
    process registered holds of a new manager and is kept by every
    operation, with or without a sink. *)

Section Invariant.
Import Manager.

Lemma consistent_init io : consistent (__init__ io).
Proof. intros name. done. Qed.

Lemma consistent_same m m' :
  consistent m →
  active_processes m' = active_processes m →
  mcp_clients m' = mcp_clients m →
  consistent m'.
Proof. intros Hc Ha Hm name. rewrite Ha, Hm. apply Hc. Qed.

Lemma consistent_set name pid c m m' :
  consistent m →
  active_processes m' = dict_set name pid (active_processes m) →
  mcp_clients m' = dict_set name c (mcp_clients m) →
  consistent m'.
Proof.
  intros Hc Ha Hm k. rewrite Ha, Hm, !dict_has_true.
  destruct (decide (k = name)) as [->|Hne].
  - rewrite !dict_get_set. by eexists.
  - rewrite !dict_get_set_ne by done. rewrite <- !dict_has_true. apply Hc.
Qed.

Lemma start_server_registrations name config e m :
  let r := start_server name config e m in
  (active_processes r.1 = active_processes m
   ∧ mcp_clients r.1 = mcp_clients m)
  ∨ (∃ pid c,
       dict_get name (active_processes m) = None
       ∧ active_processes r.1 = dict_set name pid (active_processes m)
       ∧ mcp_clients r.1 = dict_set name c (mcp_clients m)).
Proof.
  cbn zeta. unfold start_server, report.
  destruct (dict_has name (active_processes m)) eqn:Ha.
  { left. by destruct (io m). }
  apply dict_has_false in Ha.
  destruct (negb _). { left. by destruct (io m). }
  destruct (child e) as [p|]. 2:{ left. by destruct (io m). }
  destruct (Client.initialize _ _ _ _) as [c []]; cbn.
  - right. exists (length (procs m)), c.
    destruct (io m) eqn:Eio; cbn; rewrite ?Eio; done.
  - left. by rewrite dict_del_set_absent.
Qed.

Lemma consistent_start_server name config e m :
  consistent m → consistent (start_server name config e m).1.
Proof.
  intros Hc.
  destruct (start_server_registrations name config e m)
    as [[Ha Hm]|(pid & c & _ & Ha & Hm)].
  - by eapply consistent_same.
  - by eapply consistent_set.
Qed.

Lemma stop_server_registrations name m :
  let r := stop_server name m in
  (active_processes r.1 = active_processes m
   ∨ active_processes r.1 = dict_del name (active_processes m))
  ∧ (mcp_clients r.1 = dict_del name (mcp_clients m)
     ∨ (dict_has name (active_processes m) = false
        ∧ mcp_clients r.1 = mcp_clients m)).
Proof.
  cbn zeta. unfold stop_server, report.
  destruct (dict_has name (active_processes m)) eqn:Ha; cbn [negb].
  2:{ split; [by left|by right]. }
  set (m1 := match dict_get name (mcp_clients m) with
             | Some client => _ | None => m end).
  assert (H1 : io m1 = io m ∧ active_processes m1 = active_processes m
               ∧ mcp_clients m1 = dict_del name (mcp_clients m)).
  { subst m1. destruct (dict_get name (mcp_clients m)) as [client|] eqn:Ec.
    - done.
    - by rewrite dict_del_absent. }
  destruct H1 as (Hio1 & Ha1 & Hc1). rewrite Ha1.
  destruct (Proc.wait _); cbn; destruct (io m1) eqn:E; cbn;
    rewrite ?E; cbn; rewrite ?Ha1, ?Hc1; split; auto.
Qed.

Lemma consistent_stop_server name m :
  consistent m → consistent (stop_server name m).1.
Proof.
  intros Hc k Hk.
  destruct (stop_server_registrations name m) as [Ha Hm].
  assert (Hk' : dict_has k (mcp_clients m) = true ∧ k ≠ name
                ∨ (stop_server name m).1 = (stop_server name m).1
                  ∧ dict_has name (active_processes m) = false
                  ∧ dict_has k (mcp_clients m) = true).
  { destruct Hm as [Hm|[Hn Hm]]; rewrite Hm in Hk.
    - left. apply dict_has_true in Hk.
      destruct (decide (k = name)) as [->|Hne].
      + rewrite dict_get_del in Hk. by destruct Hk.
      + rewrite dict_get_del_ne in Hk by done. by rewrite dict_has_true.
    - by right. }
  destruct Hk' as [[Hk' Hne]|(_ & Hn & Hk')].
  - destruct Ha as [-> | ->]; [by apply Hc|].
    apply dict_has_true. rewrite dict_get_del_ne by done.
    apply dict_has_true. by apply Hc.
  - unfold stop_server. rewrite Hn. cbn. by apply Hc.
Qed.

Lemma consistent_stop_each names m :
  consistent m → consistent (stop_each names m).1.
Proof.
  revert m. induction names as [|name names IH]; intros m Hc; cbn; [done|].
  pose proof (consistent_stop_server name m Hc) as H1.
  destruct (stop_server name m) as [m1 [b|x]]; cbn in H1 |- *; auto.
Qed.

Lemma consistent_stop_all_servers m :
  consistent m → consistent (stop_all_servers m).1.
Proof. apply consistent_stop_each. Qed.

Lemma search_keys tool_name arguments w entries :
  (search tool_name arguments w entries).1.*1 = entries.*1.
Proof.
  induction entries as [|[name c] entries IH]; cbn; [done|].
  destruct (has_tool tool_name c) as [[]|]; cbn; [|..|done].
  - by destruct (Client.call_tool _ _ _ c).
  - destruct (search _ _ _ entries). cbn in *. by rewrite IH.
Qed.

Lemma dict_set_keys {V} (name : string) (v v' : V) d :
  dict_get name d = Some v' → (dict_set name v d).*1 = d.*1.
Proof.
  induction d as [|[k x] d IH]; cbn; [done|].
  destruct (decide (name = k)) as [->|Hne]; cbn; [done|].
  intros H. by rewrite IH.
Qed.

Lemma consistent_keys_same m m' :
  consistent m →
  active_processes m' = active_processes m →
  (mcp_clients m').*1 = (mcp_clients m).*1 →
  consistent m'.
Proof.
  intros Hc Ha Hm k Hk. apply dict_has_true, dict_get_elem in Hk.
  unfold dict_keys in Hk. rewrite Hm in Hk. rewrite Ha. apply Hc.
  by apply dict_has_true, dict_get_elem.
Qed.

Lemma consistent_call_tool tool_name arguments server_name w m :
  consistent m →
  consistent (call_tool tool_name arguments server_name w m).1.
Proof.
  intros Hc. unfold call_tool. destruct (truthy _).
  - destruct (dict_get _ (mcp_clients m)) as [c|] eqn:E; [|done].
    destruct (Client.call_tool _ _ _ c) as [c' r].
    eapply consistent_keys_same; [done..|]. cbn. by eapply dict_set_keys.
  - pose proof (search_keys tool_name arguments w (mcp_clients m)) as Hk.
    destruct (search _ _ _ _) as [clients r].
    by eapply consistent_keys_same.
Qed.

Lemma gather_registrations entries all_tools m :
  let r := gather entries all_tools m in
  r.1.1.*1 = entries.*1
  ∧ active_processes r.1.2 = active_processes m
  ∧ mcp_clients r.1.2 = mcp_clients m.
Proof.
  cbn zeta. revert all_tools m.
  induction entries as [|[name c] entries IH]; intros all_tools m; cbn;
    [done|].
  destruct (tagged_tools name c) as [c' [tools|x]].
  - specialize (IH (all_tools ++ (pair name <$> tools)) m).
    destruct (gather entries _ m) as [[rest m'] r]. cbn in *.
    destruct IH as (-> & ? & ?). done.
  - unfold report. destruct (io m); [|done].
    specialize (IH all_tools
                  (set_log (log m ++ [Client.tool_error
                     "Error getting tools from MCP server"]) m)).
    destruct (gather entries _ _) as [[rest m'] r]. cbn in *.
    destruct IH as (-> & ? & ?). done.
Qed.

Lemma consistent_get_all_tools m :
  consistent m → consistent (get_all_tools m).1.
Proof.
  intros Hc. unfold get_all_tools.
  pose proof (gather_registrations (mcp_clients m) [] m) as H.
  destruct (gather _ _ _) as [[clients m'] r]. cbn in *.
  destruct H as (Hk & Ha & Hm).
  by eapply consistent_keys_same.
Qed.
End Invariant.

(** * Further properties of the code *)

(** ** Requests and their responses *)

Section Delivery.
Import Client.

Lemma settled_grown fut c c' :
  settled fut c → grown c c' →
  settled fut c' ∧ future_at fut c' = future_at fut c.
Proof.
  intros [Hlt Hn] Hg. pose proof (length_grown _ _ Hg).
  pose proof Hg as (Hp & _). split; [split; [lia|by rewrite Hp]|].
  by apply future_at_grown.
Qed.

Lemma settled_delivered fut rid' fut' c c' :
  settled fut c → delivered rid' fut' c c' →
  settled fut c' ∧ future_at fut c' = future_at fut c.
Proof.
  intros [Hlt Hn] (Hp & Hp' & _ & f & _ & Hf).
  assert (Hne : fut' ≠ fut) by (intros ->; by apply (Hn rid')).
  split; [split|].
  - by rewrite Hf, length_insert.
  - intros rid. rewrite Hp'. intros [_ ?]%lookup_delete_Some. by apply (Hn rid).
  - unfold future_at. by rewrite Hf, list_lookup_insert_ne.
Qed.

Lemma settled_read_responses fut lines c :
  sound c → settled fut c →
  future_at fut (_read_responses lines c) = future_at fut c.
Proof.
  unfold _read_responses. revert c.
  induction lines as [|l lines IH]; intros c Hs Hf; cbn; [done|].
  pose proof (sound_on_line l c Hs) as Hs'.
  destruct (on_line_cases l c Hs) as [Hg|(?&?&?&?&?&?&?&Hd)].
  - destruct (settled_grown _ _ _ Hf Hg) as [Hf' <-]. by apply IH.
  - destruct (settled_delivered _ _ _ _ _ Hf Hd) as [Hf' <-]. by apply IH.
Qed.

(** While no response for [rid] is handled, its slot stays and the future it
    refers to is what it was. *)
Lemma waiting_read_responses rid fut lines c :
  sound c → unanswered rid lines →
  pending_requests c !! rid = Some fut →
  future_at fut (_read_responses lines c) = future_at fut c.
Proof.
  unfold _read_responses. revert c.
  induction lines as [|l lines IH]; intros c Hs Hu Hp; cbn; [done|].
  assert (Hu' : unanswered rid lines).
  { intros message relay j Hin. apply (Hu message relay j). by right. }
  pose proof (unanswered_read_responses rid fut [l] c Hs) as Hp'.
  unfold _read_responses in Hp'. cbn in Hp'.
  rewrite (IH _ (sound_on_line l c Hs) Hu').
  2:{ apply Hp'; [|done]. intros message relay j Hin.
      apply (Hu message relay j). apply list_elem_of_singleton in Hin.
      subst. by left. }
  destruct Hs as [H1 H2].
  destruct (on_line_cases l c (conj H1 H2))
    as [Hg|(message & rid' & fut' & j & El & Ej & Ek & Hd)].
  - apply future_at_grown; [done|]. by apply (H1 rid fut).
  - destruct Hd as (Hpf & _ & _ & f & _ & Hf).
    unfold future_at. rewrite Hf, list_lookup_insert_ne; [done|].
    intros ->. assert (rid' = rid) as -> by by eapply H2.
    destruct l as [l1 relay]. cbn in El. subst l1.
    eapply (Hu message relay j); [by left|done..].
Qed.

(** Handling the response to a pending request: its slot is removed and its
    future completed with what the response carries. *)
Lemma on_line_delivers relay kv j rid fut c :
  dict_get "id" kv = Some j →
  hash_key j = Ok (KeyInt rid) →
  pending_requests c !! rid = Some fut →
  on_line (Decoded (JDict kv), relay) c
  = set_futures
      (<[fut := match dict_get "error" kv with
                | Some err => {| done := true;
                                 result := result (future_at fut c);
                                 error := err |}
                | None => {| done := true;
                             result := default JNull (dict_get "result" kv);
                             error := error (future_at fut c) |}
                end]> (futures c))
      (pop_pending rid c).
Proof.
  intros Hj Hk Hp. unfold on_line, _handle_message. cbn [fst snd].
  cbn [contains getitem get]. unfold dict_has. rewrite Hj, Hk, Hp.
  destruct (dict_get "error" kv) as [err|]; reflexivity.
Qed.

End Delivery.

(** X1.  A request that was written, and whose response the receive loop
    handles during the wait, returns what the response carries: the value
    under ["result"] ([None] when there is none), or the error
    [MCP error: ...] when the response has an ["error"] member that is
    truthy; an ["error"] member that is falsy is no error and the call
    returns [None].  Lines handled before the response (garbled ones,
    notifications, responses to other requests) and after it (a second
    response with the same id included) do not change the outcome.  The id
    of the response need only be equal to the request's: [True] answers
    request 1. *)
Theorem send_request_response
    (method : string) (params : Json) (e : Client.Env) (c : Client.McpClient)
    (before after : list (Client.Line * bool)) (kv : list (string * Json))
    (relay : bool) (j : Json) :
  sound c →
  Client.sent e = true →
  Client.inbox e = before ++ (Client.Decoded (JDict kv), relay) :: after →
  unanswered (Client.request_id c + 1) before →
  dict_get "id" kv = Some j →
  Client.hash_key j = Ok (Client.KeyInt (Client.request_id c + 1)) →
  (Client._send_request method params (Client.wire e) c).2
  = match dict_get "error" kv with
    | Some err => if truthy err then Raise (McpError err) else Ok JNull
    | None => Ok (default JNull (dict_get "result" kv))
    end.
Proof.
  intros Hs Hsent Hin Hu Hj Hk.
  pose proof (sound_fresh c Hs) as Hn.
  unfold Client._send_request, Client.next_request_id.
  set (c1 := Client.set_request_id (Client.request_id c + 1) c).
  assert (Hs1 : sound c1).
  { eapply sound_grown; [exact Hs|]. split; [done|]. split; [cbn; lia|].
    exists []. by rewrite app_nil_r. }
  change (Client.request_id c1) with (Client.request_id c + 1)%Z.
  pose proof (sound_add_pending (Client.request_id c + 1)%Z c1 Hs1 Hn) as Hs2.
  unfold Client.add_pending in *. cbn [fst] in Hs2.
  specialize (Hs2 ltac:(cbn; lia)).
  set (c2 := Client.set_pending_requests _ _) in *.
  unfold Client.write. cbn [Client.wire Client.write_ok Client.meanwhile].
  rewrite Hsent. cbn beta iota.
  set (fut := length (Client.futures c1)).
  set (c3 := Client.set_stdin _ c2).
  assert (Hs3 : sound c3).
  { eapply sound_grown; [exact Hs2|]. by apply grown_slots. }
  assert (Hp3 : Client.pending_requests c3 !! (Client.request_id c + 1)%Z
                = Some fut) by (cbn; by rewrite lookup_insert_eq).
  assert (Hf3 : Client.future_at fut c3 = Client.new_future).
  { unfold Client.future_at. cbn. rewrite lookup_app_r by done.
    subst fut. cbn. by rewrite Nat.sub_diag. }
  rewrite Hin. unfold Client._read_responses. rewrite foldl_app. cbn [foldl].
  fold (Client._read_responses before c3).
  set (c4 := Client._read_responses before c3).
  pose proof (sound_read_responses before c3 Hs3) as Hs4.
  pose proof (unanswered_read_responses _ _ before c3 Hs3 Hu Hp3) as Hp4.
  pose proof (waiting_read_responses _ _ before c3 Hs3 Hu Hp3) as Hf4.
  fold c4 in Hs4, Hp4, Hf4. rewrite Hf3 in Hf4.
  pose proof (sound_on_line (Client.Decoded (JDict kv), relay) c4 Hs4) as Hs5.
  rewrite (on_line_delivers relay kv j _ fut c4 Hj Hk Hp4) in *.
  rewrite Hf4 in *. cbn [Client.result Client.error Client.new_future] in *.
  set (F := match dict_get "error" kv with Some _ => _ | None => _ end) in *.
  set (c5 := Client.set_futures (<[fut := F]> _) _) in *.
  destruct Hs4 as [H1 H2]. destruct (H1 _ _ Hp4) as (Hlt & _ & _).
  assert (Hset : settled fut c5).
  { split; [unfold c5; cbn; by rewrite length_insert|].
    intros rid. unfold c5. cbn.
    intros [Hne Hp]%lookup_delete_Some. by apply Hne, (H2 _ _ fut). }
  fold (Client._read_responses after c5).
  rewrite (settled_read_responses fut after c5 Hs5 Hset).
  replace (Client.future_at fut c5) with F.
  2:{ unfold Client.future_at, c5. cbn. by rewrite list_lookup_insert_eq. }
  subst F. destruct (dict_get "error" kv) as [err|]; cbn.
  - by destruct (truthy err).
  - done.
Qed.

Lemma send_request_response_witness :
  (Client._send_request "tools/call" JNull
     (Client.wire (Scenario.busy_env 2)) Scenario.ready).2
  = Ok (JStr "pong")
  ∧ (Client._send_request "tools/call" JNull
       (Client.wire (Scenario.refusal 2 (JDict [("code", JInt 1)])))
       Scenario.ready).2
    = Raise (McpError (JDict [("code", JInt 1)]))
  ∧ (Client._send_request "tools/call" JNull
       (Client.wire (Scenario.refusal 2 (JDict []))) Scenario.ready).2
    = Ok JNull.
Proof.
  assert (Hs : sound Scenario.ready).
  { split; intros *; vm_compute; discriminate. }
  split; [|split].
  - apply (send_request_response "tools/call" JNull (Scenario.busy_env 2)
             Scenario.ready
             [(Client.Garbled, true); Scenario.answer 9 JNull]
             [Scenario.answer 2 (JStr "late")]
             [("jsonrpc", JStr "2.0"); ("id", JInt 2);
              ("result", JStr "pong")] true (JInt 2) Hs);
      [reflexivity|reflexivity| |reflexivity|reflexivity].
    intros message relay j Hin Hj.
    apply elem_of_cons in Hin as [[=]|Hin].
    apply list_elem_of_singleton in Hin. injection Hin as -> _.
    injection Hj as <-. discriminate.
  - apply (send_request_response "tools/call" JNull
             (Scenario.refusal 2 (JDict [("code", JInt 1)])) Scenario.ready
             [] []
             [("jsonrpc", JStr "2.0"); ("id", JInt 2);
              ("error", JDict [("code", JInt 1)])] true (JInt 2) Hs);
      [reflexivity|reflexivity| |reflexivity|reflexivity].
    by intros message relay j ?%elem_of_nil.
  - apply (send_request_response "tools/call" JNull
             (Scenario.refusal 2 (JDict [])) Scenario.ready
             [] []
             [("jsonrpc", JStr "2.0"); ("id", JInt 2);
              ("error", JDict [])] true (JInt 2) Hs);
      [reflexivity|reflexivity| |reflexivity|reflexivity].
    by intros message relay j ?%elem_of_nil.
Defined.

Section Failure.
Import Client.

Lemma request_id_on_line l c :
  sound c → (request_id c ≤ request_id (on_line l c))%Z.
Proof.
  intros Hs. destruct (on_line_cases l c Hs) as [(_&?&_)|(?&?&?&?&?&?&?&Hd)].
  - done.
  - destruct Hd as (_ & _ & -> & _). lia.
Qed.

Lemma request_id_read_responses lines c :
  sound c → (request_id c ≤ request_id (_read_responses lines c))%Z.
Proof.
  unfold _read_responses. revert c.
  induction lines as [|l lines IH]; intros c Hs; cbn; [lia|].
  pose proof (request_id_on_line l c Hs).
  pose proof (IH _ (sound_on_line l c Hs)). lia.
Qed.

End Failure.

(** X2.  Every [_send_request] takes a new id, whatever its outcome: the
    counter is larger after the call than before.  When the write to the
    process fails the call raises the error of the write, nothing has been
    written, the table of pending requests is what it was, and the id taken
    is lost. *)
Theorem send_request_write_failure
    (method : string) (params : Json) (e : Client.Env) (c : Client.McpClient) :
  sound c →
  let r := Client._send_request method params (Client.wire e) c in
  (Client.request_id c < Client.request_id r.1)%Z
  ∧ (Client.sent e = false →
     r.2 = Raise OSError
     ∧ Client.stdin r.1 = Client.stdin c
     ∧ Client.pending_requests r.1 = Client.pending_requests c
     ∧ Client.request_id r.1 = (Client.request_id c + 1)%Z).
Proof.
  intros Hs. cbn zeta.
  pose proof (sound_fresh c Hs) as Hn.
  unfold Client._send_request, Client.next_request_id.
  set (c1 := Client.set_request_id (Client.request_id c + 1) c).
  assert (Hs1 : sound c1).
  { eapply sound_grown; [exact Hs|]. split; [done|]. split; [cbn; lia|].
    exists []. by rewrite app_nil_r. }
  change (Client.request_id c1) with (Client.request_id c + 1)%Z.
  pose proof (sound_add_pending (Client.request_id c + 1)%Z c1 Hs1 Hn) as Hs2.
  unfold Client.add_pending in *. cbn [fst] in Hs2.
  specialize (Hs2 ltac:(cbn; lia)).
  set (c2 := Client.set_pending_requests _ _) in *.
  unfold Client.write. cbn [Client.wire Client.write_ok Client.meanwhile].
  destruct (Client.sent e).
  - cbn beta iota. set (c3 := Client.set_stdin _ c2).
    assert (Hs3 : sound c3).
    { eapply sound_grown; [exact Hs2|]. by apply grown_slots. }
    pose proof (request_id_read_responses (Client.inbox e) c3 Hs3) as Hle.
    change (Client.request_id c3) with (Client.request_id c + 1)%Z in Hle.
    split; [|done].
    destruct (Client.done _); cbn; [destruct (truthy _); cbn|]; lia.
  - cbn. split; [lia|]. intros _. split; [done|]. split; [done|].
    split; [|done]. by rewrite delete_insert_id.
Qed.

Lemma send_request_write_failure_witness :
  let r := Client._send_request "tools/call" JNull
             (Client.wire Scenario.broken_env) Scenario.ready in
  r.2 = Raise OSError
  ∧ Client.stdin r.1 = Client.stdin Scenario.ready
  ∧ Client.pending_requests r.1 = Client.pending_requests Scenario.ready
  ∧ Client.request_id r.1 = 2%Z.
Proof.
  assert (Hs : sound Scenario.ready).
  { split; intros *; vm_compute; discriminate. }
  destruct (send_request_write_failure "tools/call" JNull Scenario.broken_env
              Scenario.ready Hs) as [_ H].
  apply H. reflexivity.
Defined.

(** ** What the receive loop makes of its lines *)

(** X3.  A line that is not JSON, and a line whose JSON is not an object (a
    string, a list, a number, [true], [null]), only make the receive loop
    tell the sink: the connection is otherwise what it was, and the loop goes
    on with the next line. *)
Theorem receive_loop_rejects
    (l : Client.Line) (relay : bool) (c : Client.McpClient) :
  (∀ kv, l ≠ Client.Decoded (JDict kv)) →
  Client.on_line (l, relay) c
  = Client.report
      (Client.tool_error match l with
                         | Client.Garbled => "Invalid JSON from MCP server"
                         | Client.Decoded _ => "Error processing MCP message"
                         end) c
  ∧ ∀ rest,
      Client._read_responses ((l, relay) :: rest) c
      = Client._read_responses rest (Client.on_line (l, relay) c).
Proof.
  intros Hl. split; [|done].
  unfold Client.on_line, Client._handle_message. cbn [fst snd].
  destruct l as [|message]; [done|].
  destruct message as [| | |s|items|kv]; cbn [contains]; try done.
  - destruct (str_contains "id" s); cbn; done.
  - destruct (existsb _ items); cbn; done.
  - by destruct (Hl kv).
Qed.

Lemma receive_loop_rejects_witness :
  Client.log
    (Client._read_responses
       [(Client.Garbled, true); (Client.Decoded (JStr "id"), true);
        (Client.Decoded (JList [JStr "id"]), true);
        (Client.Decoded (JInt 7), true)] Scenario.ready)
  = Client.log Scenario.ready
    ++ [Client.tool_error "Invalid JSON from MCP server";
        Client.tool_error "Error processing MCP message";
        Client.tool_error "Error processing MCP message";
        Client.tool_error "Error processing MCP message"].
Proof.
  destruct (receive_loop_rejects Client.Garbled true Scenario.ready
              ltac:(discriminate)) as [E1 ->].
  rewrite E1. clear E1.
  set (c1 := Client.report _ Scenario.ready).
  destruct (receive_loop_rejects (Client.Decoded (JStr "id")) true c1
              ltac:(discriminate)) as [E2 ->].
  rewrite E2. clear E2. vm_compute. reflexivity.
Defined.

(** X4.  The receive loop never changes the cached tool list.  On a
    [notifications/tools/list_changed] notification it does start a refresh,
    on an initialized connection whose server declared its tools: one
    [tools/list] request is written (if the pipe takes it) and one id is
    used; but the request is made from the loop's own thread, so its
    response is never read, the request fails, its slot is removed again and
    the sink, if any, is told that the refresh failed. *)
Theorem list_changed_never_refreshes :
  (∀ lines c,
     let c' := Client._read_responses lines c in
     Client.tools c' = Client.tools c ∧ Client.objects c' = Client.objects c)
  ∧ (∀ relay kv c,
       sound c →
       dict_get "id" kv = None →
       dict_get "method" kv = Some (JStr "notifications/tools/list_changed") →
       Client.initialized c = true →
       contains "tools" (Client.capabilities c) = Ok true →
       let c' := Client.on_line (Client.Decoded (JDict kv), relay) c in
       Client.stdin c'
       = Client.stdin c
         ++ (if relay then [request_line "tools/list" JNull c] else [])
       ∧ Client.request_id c' = (Client.request_id c + 1)%Z
       ∧ Client.pending_requests c' = Client.pending_requests c
       ∧ Client.log c'
         = Client.log c
           ++ (if Client.io c
               then [Client.tool_error "Failed to refresh MCP tools"]
               else [])).
Proof.
  split.
  { intros lines c. cbn zeta.
    by destruct (same_cache_read_responses lines c) as (-> & -> & _). }
  intros relay kv c Hs Hid Hm Hi Hc. cbn zeta.
  pose proof (sound_fresh c Hs) as Hn.
  unfold Client.on_line, Client._handle_message. cbn [fst snd].
  cbn [contains get]. unfold dict_has. rewrite Hid, Hm. cbn [default].
  change (eq_str _ _) with true. cbn iota.
  unfold Client._refresh_tools. rewrite Hi, Hc. cbn [negb].
  unfold Client._send_request, Client.next_request_id, Client.add_pending,
    Client.write. cbn [Client.write_ok Client.meanwhile fst snd].
  destruct relay; cbn beta iota.
  - unfold id, Client.future_at. cbn [Client.futures Client.set_stdin
      Client.set_pending_requests Client.set_futures Client.set_request_id].
    rewrite lookup_app_r by done. rewrite Nat.sub_diag. cbn.
    unfold Client.report. cbn.
    destruct (Client.io c); cbn;
      rewrite delete_insert_id by done; rewrite delete_id by done;
      by rewrite ?app_nil_r.
  - cbn. unfold Client.report. cbn.
    destruct (Client.io c); cbn; rewrite delete_insert_id by done;
      by rewrite ?app_nil_r.
Qed.

Lemma list_changed_never_refreshes_witness :
  let c' := Client.on_line
              (Client.Decoded (JDict Scenario.list_changed), true)
              Scenario.stocked in
  Client.out_method <$> drop (length (Client.stdin Scenario.stocked))
                          (Client.stdin c')
  = ["tools/list"]
  ∧ Client.tools c' = Client.tools Scenario.stocked
  ∧ Client.pending_requests c' = Client.pending_requests Scenario.stocked
  ∧ last (Client.log c')
    = Some (Client.tool_error "Failed to refresh MCP tools").
Proof.
  destruct list_changed_never_refreshes as [Ha Hb].
  assert (Hs : sound Scenario.stocked).
  { split; intros *; vm_compute; discriminate. }
  destruct (Hb true Scenario.list_changed Scenario.stocked Hs)
    as (H1 & H2 & H3 & H4); [reflexivity..|].
  cbn zeta. rewrite H1, H3, H4, drop_app_length.
  split; [reflexivity|]. split; [|split; [done|]].
  - apply (Ha [(Client.Decoded (JDict Scenario.list_changed), true)]
             Scenario.stocked).
  - vm_compute. reflexivity.
Defined.

(** ** Closing a connection *)

(** X5.  [close] leaves the process exited.  A process that has exited
    already is not touched.  Otherwise its input is closed; it is sent the
    termination signal only if closing raised or the end of input did not
    make it exit, and it is killed only if neither the end of input nor the
    termination signal made it exit. *)
Theorem close_escalates (p : Proc.Popen) :
  Proc.exited (Client.close p) = true
  ∧ (Proc.exited p = true → Client.close p = p)
  ∧ (Proc.exited p = false →
     Proc.stdin_closed (Client.close p) = true
     ∧ Proc.sigterm (Client.close p)
       = Proc.sigterm p || Proc.close_raises p || negb (Proc.exits_on_eof p)
     ∧ Proc.sigkill (Client.close p)
       = Proc.sigkill p
         || negb (Proc.exits_on_eof p) && negb (Proc.exits_on_sigterm p)).
Proof.
  destruct p as [ex cl st sk eof term raises].
  unfold Client.close, Client.escalate, Proc.poll, Proc.stdin_close, Proc.wait,
    Proc.terminate, Proc.kill. cbn.
  split; [|split].
  - destruct ex, eof, term, raises; reflexivity.
  - intros ->. reflexivity.
  - intros ->. destruct eof, term, raises, st, sk; cbn; done.
Qed.

Lemma close_escalates_witness :
  Client.close (Proc.gone (Proc.spawned false false false))
  = Proc.gone (Proc.spawned false false false)
  ∧ Proc.sigterm (Client.close (Proc.spawned true false false)) = false
  ∧ Proc.sigkill (Client.close (Proc.spawned false false false)) = true.
Proof.
  split; [|split].
  - by apply (close_escalates (Proc.gone (Proc.spawned false false false))).
  - destruct (close_escalates (Proc.spawned true false false))
      as (_ & _ & H). by destruct (H eq_refl) as (_ & -> & _).
  - destruct (close_escalates (Proc.spawned false false false))
      as (_ & _ & H). by destruct (H eq_refl) as (_ & _ & ->).
Defined.

(** ** The outcome of the handshake *)

(** X6.  On a connection that is not yet initialized, [initialize] returns
    [True] exactly when the initialize request returned a dictionary, the
    initialized notification was written and, if a sink is attached, the
    server information stored is a dictionary.  When it returns [True] the
    connection is initialized, its capabilities and server information are
    what the response holds under ["capabilities"] and ["serverInfo"] (the
    empty dictionary for a missing key), and the notification is the last
    line written. *)
Theorem initialize_outcome
    (e1 : Client.Env) (notified : bool) (e2 : Client.Env)
    (c : Client.McpClient) :
  Client.initialized c = false →
  let sent := Client._send_request "initialize" Client.init_params
                (Client.wire e1) c in
  let r := Client.initialize (Client.wire e1) notified (Client.wire e2) c in
  (r.2 = true ↔
   ∃ kv, sent.2 = Ok (JDict kv) ∧ notified = true
     ∧ (Client.io c = true →
        ∃ info, default (JDict []) (dict_get "serverInfo" kv) = JDict info))
  ∧ (r.2 = true →
     Client.initialized r.1 = true
     ∧ ∃ kv, sent.2 = Ok (JDict kv)
         ∧ Client.capabilities r.1
           = default (JDict []) (dict_get "capabilities" kv)
         ∧ Client.server_info r.1
           = default (JDict []) (dict_get "serverInfo" kv)
         ∧ Client.stdin r.1
           = Client.stdin sent.1
             ++ [{| Client.out_id := None;
                    Client.out_method := "notifications/initialized";
                    Client.out_params := None |}]).
Proof.
  intros Hi. cbn zeta. unfold Client.initialize.
  pose proof (same_cache_send_request_wire "initialize" Client.init_params e1 c)
    as (_ & _ & Hini & _ & _ & Hio & _).
  destruct (Client._send_request _ _ _ c) as [c1 [result|x]]; cbn [fst snd] in *.
  2:{ split; [|done]. split; [done|]. by intros (kv & [=] & _). }
  destruct result as [| | | | |kv]; cbn [get];
    try (split; [|done]; split; [done|]; by intros (kv & [=] & _)).
  unfold Client._send_notification, Client.write.
  destruct notified.
  2:{ cbn. split; [|done]. split; [done|]. by intros (kv' & _ & [=] & _). }
  rewrite refresh_uninitialized by (cbn; congruence).
  cbn [Client.io Client.set_initialized Client.set_stdin
       Client.set_server_info Client.set_capabilities
       Client.server_info].
  rewrite Hio.
  destruct (Client.io c).
  - destruct (default (JDict []) (dict_get "serverInfo" kv))
      as [| | | | |info] eqn:Einfo; cbn [get];
      try (split; [|done]; split; [done|];
           intros (kv' & [= <-] & _ & H); destruct (H eq_refl) as [info' E];
           congruence).
    split.
    + split; [|done]. intros _. exists kv. split; [done|]. split; [done|].
      intros _. by exists info.
    + intros _. unfold Client.report. cbn. rewrite Hio. cbn.
      split; [done|]. exists kv. by rewrite Einfo.
  - cbn. split.
    + split; [|done]. intros _. exists kv. by split.
    + intros _. split; [done|]. by exists kv.
Qed.

Lemma initialize_outcome_witness :
  (Client.initialize (Client.wire Scenario.hello_env) true
     (Client.wire Scenario.silent_env) Scenario.fresh).2 = true
  ∧ (Client.initialize (Client.wire Scenario.hello_env) false
       (Client.wire Scenario.silent_env) Scenario.fresh).2 ≠ true.
Proof.
  split.
  - destruct (initialize_outcome Scenario.hello_env true Scenario.silent_env
                Scenario.fresh eq_refl) as [[_ H] _].
    apply H.
    exists [("capabilities", JDict [("tools", JDict [])]);
            ("serverInfo", JDict [("name", JStr "srv")])].
    split; [vm_compute; reflexivity|]. split; [done|].
    intros _. by eexists.
  - destruct (initialize_outcome Scenario.hello_env false Scenario.silent_env
                Scenario.fresh eq_refl) as [[H _] _].
    intros E. by destruct (H E) as (kv & _ & [=] & _).
Defined.

(** ** Starting and stopping, seen from the other servers *)

Section Start.
Import Manager.

(** The handshake on a connection that is not yet initialized keeps its
    process and its sink, and sets [initialized] when it succeeds. *)
Lemma initialize_same e1 notified e2 c :
  Client.initialized c = false →
  let r := Client.initialize (Client.wire e1) notified (Client.wire e2) c in
  Client.process r.1 = Client.process c
  ∧ Client.io r.1 = Client.io c
  ∧ (r.2 = true → Client.initialized r.1 = true).
Proof.
  intros Hi. cbn zeta. unfold Client.initialize.
  pose proof (same_cache_send_request_wire "initialize" Client.init_params e1 c)
    as (_ & _ & Hini & _ & _ & Hio & Hpr).
  assert (Hrep : ∀ d c0, Client.process (Client.report d c0) = Client.process c0
                         ∧ Client.io (Client.report d c0) = Client.io c0).
  { intros d c0. by pose proof (same_cache_report d c0) as (_&_&_&_&_&->&->). }
  assert (Hfail : ∀ c0, Client.process c0 = Client.process c →
            Client.io c0 = Client.io c →
            let r := (Client.report
                        (Client.tool_error "Failed to initialize MCP server")
                        c0, false) in
            Client.process r.1 = Client.process c
            ∧ Client.io r.1 = Client.io c
            ∧ (r.2 = true → Client.initialized r.1 = true)).
  { intros c0 E1 E2. cbn. destruct (Hrep (Client.tool_error
      "Failed to initialize MCP server") c0) as [-> ->]. done. }
  destruct (Client._send_request _ _ _ c) as [c1 [result|x]]; cbn [fst snd] in *.
  2:{ by apply Hfail. }
  destruct (get result "capabilities" (JDict [])) as [caps|];
    [|by apply Hfail].
  destruct (get result "serverInfo" (JDict [])) as [info|];
    [|by apply Hfail].
  unfold Client._send_notification, Client.write. destruct notified;
    [|by apply Hfail].
  rewrite refresh_uninitialized by (cbn; congruence).
  cbn [Client.io Client.set_initialized Client.set_stdin
       Client.set_server_info Client.set_capabilities Client.server_info].
  destruct (Client.io c1) eqn:E; [|by rewrite <- Hio].
  destruct (get info "name" (JStr "Unknown"));
    [|apply Hfail; cbn; congruence].
  cbn [fst snd]. destruct (Hrep (Client.tool_output "MCP server initialized")
    (Client.set_initialized true
       (Client.set_stdin
          (Client.stdin (Client.set_server_info info
                           (Client.set_capabilities caps c1)) ++
           [{| Client.out_id := None;
               Client.out_method := "notifications/initialized";
               Client.out_params := Client.params_field JNull |}])
          (Client.set_server_info info (Client.set_capabilities caps c1)))))
    as [-> ->]. cbn. split; [done|]. split; [congruence|].
  intros _. unfold Client.report. cbn. by rewrite E.
Qed.

End Start.



(** X8.  A manager made without a sink ([io=None]) never returns [True]
    from [start_server]: the call returns [False] or raises
    [AttributeError].  It returns [False] only when the handshake failed,
    and then the registrations are what they were.  When the handshake
    succeeds the call raises, although the server is by then registered in
    both dictionaries and its process is running. *)
Theorem start_server_without_sink
    (name : string) (config : Manager.Config) (e : Manager.StartEnv)
    (m : Manager.McpServerManager) :
  Manager.io m = false →
  let r := Manager.start_server name config e m in
  let handshake :=
    Client.initialize (Client.wire (Manager.hello e)) (Manager.notified e)
      (Client.wire (Manager.listing e))
      (Client.__init__ (length (Manager.procs m)) false) in
  (r.2 = Ok false ∨ r.2 = Raise AttributeError)
  ∧ (r.2 = Ok false →
     Manager.active_processes r.1 = Manager.active_processes m
     ∧ Manager.mcp_clients r.1 = Manager.mcp_clients m
     ∧ handshake.2 = false)
  ∧ (∀ p,
       dict_has name (Manager.active_processes m) = false →
       truthy (from_option JStr JNull (Manager.command config)) = true →
       Manager.child e = Ok p →
       handshake.2 = true →
       r.2 = Raise AttributeError
       ∧ dict_get name (Manager.active_processes r.1)
         = Some (length (Manager.procs m))
       ∧ dict_get name (Manager.mcp_clients r.1) = Some handshake.1
       ∧ Manager.procs r.1 = Manager.procs m ++ [p]).
Proof.
  intros Hio. cbn zeta. unfold Manager.start_server.
  destruct (dict_has name (Manager.active_processes m)) eqn:Hreg.
  { unfold Manager.report. rewrite Hio. cbn.
    split; [by right|]. split; [done|]. intros p [=]. }
  destruct (truthy _) eqn:Hcmd; cbn [negb].
  2:{ unfold Manager.report. rewrite Hio. cbn.
      split; [by right|]. split; [done|]. intros p _ [=]. }
  destruct (Manager.child e) as [p|x] eqn:Hch.
  2:{ unfold Manager.report. rewrite Hio. cbn.
      split; [by right|]. split; [done|]. intros p _ _ [=]. }
  cbn [Manager.io Manager.set_active_processes Manager.set_procs].
  rewrite Hio.
  destruct (Client.initialize _ _ _ _) as [c [|]]; cbn [fst snd].
  - unfold Manager.report. repeat (cbn; rewrite ?Hio).
    split; [by right|]. split; [done|]. intros p' _ _ [= <-] _.
    split; [done|]. by rewrite !dict_get_set.
  - cbn. split; [by left|]. split.
    + intros _. apply dict_has_false in Hreg.
      by rewrite dict_del_set_absent.
    + intros p' _ _ _ [=].
Qed.

Lemma start_server_without_sink_witness :
  let r := Manager.start_server "A" Scenario.config Scenario.good_start
             (Manager.__init__ false) in
  r.2 = Raise AttributeError
  ∧ dict_get "A" (Manager.active_processes r.1) = Some 0
  ∧ dict_has "A" (Manager.mcp_clients r.1) = true.
Proof.
  cbn zeta.
  destruct (start_server_without_sink "A" Scenario.config Scenario.good_start
              (Manager.__init__ false) eq_refl) as (_ & _ & H).
  destruct (H (Proc.spawned true true false)) as (H1 & H2 & H3 & _);
    [reflexivity|reflexivity|reflexivity|vm_compute; reflexivity|].
  split; [exact H1|]. split; [exact H2|].
  unfold dict_has. by rewrite H3.
Defined.

Section Others.
Import Manager.

Lemma procs_on_proc_ne f pid pid' m :
  pid ≠ pid' → procs (on_proc f pid' m) !! pid = procs m !! pid.
Proof. intros Hne. unfold on_proc. cbn. by rewrite list_lookup_alter_ne. Qed.

Lemma search_others tool_name arguments w entries :
  ∃ name, ∀ other, other ≠ name →
    dict_get other (search tool_name arguments w entries).1
    = dict_get other entries.
Proof.
  induction entries as [|[name client] rest IH]; cbn; [by exists ""|].
  destruct (has_tool tool_name client) as [[]|]; cbn.
  - destruct (Client.call_tool _ _ _ _) as [client' r]. cbn.
    exists name. intros other Hne. by rewrite !decide_False.
  - destruct IH as [name0 IH].
    destruct (search tool_name arguments w rest) as [rest' r]. cbn in *.
    exists name0. intros other Hne.
    destruct (decide (other = name)); [done|]. by apply IH.
  - by exists "".
Qed.

End Others.

(** X9.  [stop_server] leaves the other servers alone: the registrations
    of every other name are what they were, and so is every process other
    than the one registered under the name and the one its connection talks
    to. *)
Theorem stop_server_frame
    (name other : string) (m : Manager.McpServerManager) :
  other ≠ name →
  let r := Manager.stop_server name m in
  dict_get other (Manager.active_processes r.1)
  = dict_get other (Manager.active_processes m)
  ∧ dict_get other (Manager.mcp_clients r.1)
    = dict_get other (Manager.mcp_clients m)
  ∧ ∀ pid,
      dict_get name (Manager.active_processes m) ≠ Some pid →
      (∀ c, dict_get name (Manager.mcp_clients m) = Some c →
            Client.process c ≠ pid) →
      Manager.procs r.1 !! pid = Manager.procs m !! pid.
Proof.
  intros Hne. cbn zeta.
  destruct (stop_server_registrations name m) as [Ha Hc]. cbn zeta in Ha, Hc.
  split; [|split].
  - destruct Ha as [-> | ->]; [done|]. by apply dict_get_del_ne.
  - destruct Hc as [-> | [_ ->]]; [|done]. by apply dict_get_del_ne.
  - intros pid Hpid Hcl. unfold Manager.stop_server, dict_has.
    destruct (dict_get name (Manager.active_processes m)) as [pid'|] eqn:E;
      cbn [negb]; [|done].
    assert (pid' ≠ pid) by congruence.
    set (m1 := match dict_get name (Manager.mcp_clients m) with
               | Some client => _ | None => m end).
    assert (H1 : Manager.procs m1 !! pid = Manager.procs m !! pid
                 ∧ Manager.active_processes m1 = Manager.active_processes m).
    { subst m1. destruct (dict_get name (Manager.mcp_clients m)) as [c|];
        [|done]. cbn. split; [|done].
      rewrite list_lookup_alter_ne; [done|]. by apply Hcl. }
    destruct H1 as [H1 H1']. rewrite H1', E. cbn [default].
    destruct (Manager.io m1) eqn:Eio;
      destruct (Proc.wait _); unfold Manager.report;
      repeat (cbn; rewrite ?Eio);
      by rewrite ?list_lookup_alter_ne by done.
Qed.

Lemma stop_server_frame_witness :
  let r := Manager.stop_server "B" Scenario.hanging in
  dict_get "A" (Manager.active_processes r.1) = Some 0
  ∧ dict_has "A" (Manager.mcp_clients r.1) = true
  ∧ Manager.procs r.1 !! 0 = Manager.procs Scenario.hanging !! 0.
Proof.
  cbn zeta.
  destruct (stop_server_frame "B" "A" Scenario.hanging ltac:(discriminate))
    as (H1 & H2 & H3).
  rewrite H1. unfold dict_has. rewrite H2.
  split; [vm_compute; reflexivity|]. split; [vm_compute; reflexivity|].
  apply H3.
  - vm_compute. discriminate.
  - intros c Hc. vm_compute in Hc. injection Hc as <-. vm_compute.
    discriminate.
Defined.

(** X10.  [call_tool] of the manager changes neither the registered
    processes, nor the process table, nor what the sink was told, nor the
    names of the connections and their order; at most one connection is
    different afterwards. *)
Theorem call_tool_frame
    (tool_name : string) (arguments : Json) (server_name : option string)
    (w : Client.Wire) (m : Manager.McpServerManager) :
  let r := Manager.call_tool tool_name arguments server_name w m in
  Manager.active_processes r.1 = Manager.active_processes m
  ∧ Manager.procs r.1 = Manager.procs m
  ∧ Manager.log r.1 = Manager.log m
  ∧ dict_keys (Manager.mcp_clients r.1) = dict_keys (Manager.mcp_clients m)
  ∧ ∃ name, ∀ other, other ≠ name →
      dict_get other (Manager.mcp_clients r.1)
      = dict_get other (Manager.mcp_clients m).
Proof.
  cbn zeta. unfold Manager.call_tool, dict_keys.
  destruct (truthy _).
  - destruct (dict_get _ (Manager.mcp_clients m)) as [c|] eqn:E.
    + destruct (Client.call_tool _ _ _ c) as [c' r]. cbn.
      do 3 (split; [done|]). split; [by eapply dict_set_keys|].
      exists (default "" server_name). intros other Hne.
      by apply dict_get_set_ne.
    + cbn. do 4 (split; [done|]). by exists "".
  - pose proof (search_keys tool_name arguments w (Manager.mcp_clients m)) as Hk.
    destruct (search_others tool_name arguments w (Manager.mcp_clients m))
      as [name Ho].
    destruct (Manager.search _ _ _ _) as [clients r]. cbn in *.
    do 3 (split; [done|]). split; [done|]. by exists name.
Qed.

Lemma call_tool_frame_witness :
  let r := Manager.call_tool "x" JNull (Some "A")
             (Client.wire (Scenario.call_env 3)) Scenario.hanging in
  dict_get "B" (Manager.mcp_clients r.1)
  = dict_get "B" (Manager.mcp_clients Scenario.hanging)
  ∧ dict_keys (Manager.mcp_clients r.1) = ["A"; "B"].
Proof.
  cbn zeta.
  destruct (call_tool_frame "x" JNull (Some "A")
              (Client.wire (Scenario.call_env 3)) Scenario.hanging)
    as (_ & _ & _ & Hk & name & Ho).
  rewrite Hk. split; [|vm_compute; reflexivity].
  vm_compute. reflexivity.
Defined.

(** X11.  [load_config_from_file] changes no registration and no process.
    For a file that holds a JSON object it returns the value under
    ["mcpServers"], whatever it is, or the empty dictionary when the key is
    missing, and tells the sink nothing.  For a file that cannot be opened,
    is not JSON or holds another JSON value, a manager with a sink tells it
    once and returns the empty dictionary; a manager without a sink raises
    [AttributeError]. *)
Theorem load_config_from_file_total
    (file : Manager.ConfigFile) (m : Manager.McpServerManager) :
  let r := Manager.load_config_from_file file m in
  let told :=
    Manager.log m ++ [Client.tool_error "Error loading MCP server config"] in
  Manager.active_processes r.1 = Manager.active_processes m
  ∧ Manager.mcp_clients r.1 = Manager.mcp_clients m
  ∧ Manager.procs r.1 = Manager.procs m
  ∧ match file with
    | Manager.Parsed (JDict kv) =>
        r.2 = Ok (default (JDict []) (dict_get "mcpServers" kv))
        ∧ Manager.log r.1 = Manager.log m
    | _ =>
        if Manager.io m
        then r.2 = Ok (JDict []) ∧ Manager.log r.1 = told
        else r.2 = Raise AttributeError ∧ Manager.log r.1 = Manager.log m
    end.
Proof.
  cbn zeta. unfold Manager.load_config_from_file, Manager.report.
  destruct file as [| |config].
  - by destruct (Manager.io m).
  - by destruct (Manager.io m).
  - destruct config as [| | | | |kv]; cbn [get]; [..|done];
      by destruct (Manager.io m).
Qed.

(** ** Aggregation over all connections *)

Section Gathering.
Import Client Manager.

Lemma dict_set_id {V} (k : string) (v : V) d :
  dict_get k d = Some v → dict_set k v d = d.
Proof.
  induction d as [|[k' v'] d IH]; cbn; [done|].
  destruct (decide (k = k')) as [->|Hne]; [by intros [= ->]|].
  intros H. by rewrite IH.
Qed.

Lemma set_objects_same c : set_objects (objects c) c = c.
Proof. by destruct c. Qed.

(** Tagging a descriptor that already carries the tag changes nothing. *)
Lemma tag_tagged name a c :
  tagged name a c → tag name (ItemRef a) c = (c, Ok ()).
Proof.
  intros (kv & Ha & Ht). unfold tag. rewrite Ha.
  rewrite (dict_set_id _ _ _ Ht), (list_insert_id _ _ _ Ha).
  by rewrite set_objects_same.
Qed.

Lemma tag_each_tagged name refs c :
  (∀ a, a ∈ refs → tagged name a c) →
  tag_each name (ItemRef <$> refs) c = (c, Ok ()).
Proof.
  induction refs as [|a refs IH]; intros H; cbn [fmap list_fmap tag_each];
    [done|].
  rewrite tag_tagged by (apply H; by left).
  apply IH. intros a' Ha'. apply H. by right.
Qed.

Lemma tagged_tools_fixed name refs c :
  tools c = ToolList refs →
  (∀ a, a ∈ refs → tagged name a c) →
  tagged_tools name c = (c, Ok (ItemRef <$> refs)).
Proof.
  intros Ht H. unfold tagged_tools, get_tools. rewrite Ht. cbn [iterate].
  by rewrite tag_each_tagged.
Qed.

Lemma all_refs_cons p entries :
  all_refs (p :: entries)
  = ((fun a => (p.1, ItemRef a)) <$> refs_of p.2) ++ all_refs entries.
Proof. done. Qed.

Lemma pair_fmap_refs (name : string) (refs : list nat) :
  pair name <$> (ItemRef <$> refs) = (fun a => (name, ItemRef a)) <$> refs.
Proof. by rewrite <- list_fmap_compose. Qed.

(** The loop over connections whose cached lists hold dictionaries. *)
Lemma gather_listed entries all_tools m :
  Forall (fun p => listed p.2) entries →
  ∃ entries',
    gather entries all_tools m
    = (entries', m, Ok (all_tools ++ all_refs entries))
    ∧ Forall2 collected entries entries'.
Proof.
  revert all_tools. induction entries as [|[name c] entries IH];
    intros all_tools Hl.
  - exists []. cbn. rewrite app_nil_r. by split.
  - apply Forall_cons in Hl as [(refs & Ht & Hd) Hl]. cbn [fst snd] in *.
    destruct (tagged_tools_dicts name refs c Ht Hd) as (c' & Hc' & Hr & Hg).
    destruct (IH (all_tools ++ (pair name <$> (ItemRef <$> refs))) Hl)
      as (entries' & He & Hf).
    exists ((name, c') :: entries'). cbn [gather]. rewrite Hc', He.
    split.
    + rewrite all_refs_cons, pair_fmap_refs. cbn [fst snd].
      unfold refs_of. rewrite Ht. by rewrite app_assoc.
    + constructor; [|done]. split; [done|]. split; [done|].
      unfold refs_of. cbn. rewrite Ht. exact Hg.
Qed.

(** The same loop once every descriptor carries its tag. *)
Lemma gather_fixed entries all_tools m :
  Forall (fun p => ∀ a, a ∈ refs_of p.2 → tagged p.1 a p.2) entries →
  Forall (fun p => ∃ refs, tools p.2 = ToolList refs) entries →
  gather entries all_tools m = (entries, m, Ok (all_tools ++ all_refs entries)).
Proof.
  revert all_tools. induction entries as [|[name c] entries IH];
    intros all_tools Ht Hl.
  - cbn. by rewrite app_nil_r.
  - apply Forall_cons in Ht as [Ht Ht'].
    apply Forall_cons in Hl as [[refs Hl] Hl']. cbn [fst snd] in *.
    unfold refs_of in Ht. rewrite Hl in Ht.
    cbn [gather]. rewrite (tagged_tools_fixed name refs c Hl Ht).
    rewrite IH by done. rewrite all_refs_cons, pair_fmap_refs. cbn [fst snd].
    unfold refs_of. rewrite Hl. by rewrite app_assoc.
Qed.

Lemma collected_all_refs entries entries' :
  Forall2 collected entries entries' → all_refs entries' = all_refs entries.
Proof.
  induction 1 as [|[name c] [name' c'] entries entries' (Hn & (Ht & _) & _) _ IH];
    [done|].
  cbn in Hn, Ht. subst name'. rewrite !all_refs_cons, IH. cbn [fst snd].
  unfold refs_of. by rewrite Ht.
Qed.

End Gathering.

Lemma serving_listed :
  Forall (fun p => listed p.2) (Manager.mcp_clients Scenario.serving).
Proof.
  apply Forall_forall. intros p Hp. vm_compute in Hp.
  apply list_elem_of_singleton in Hp. subst p. exists [0]. split; [reflexivity|].
  intros a Ha. apply list_elem_of_singleton in Ha. subst a.
  by exists [("name", JStr "x")].
Qed.

(** X12.  When the cached list of every connection is a list of
    dictionaries, [get_all_tools] returns every cached descriptor of every
    connection, in the order of the connections and of each list; each
    descriptor now carries the name of its server under ["_mcp_server"] and
    is otherwise what it was; the registrations, the processes and what the
    sink was told do not change. *)
Theorem get_all_tools_collects (m : Manager.McpServerManager) :
  Forall (fun p => listed p.2) (Manager.mcp_clients m) →
  let r := Manager.get_all_tools m in
  r.2 = Ok (all_refs (Manager.mcp_clients m))
  ∧ Forall2 collected (Manager.mcp_clients m) (Manager.mcp_clients r.1)
  ∧ Manager.active_processes r.1 = Manager.active_processes m
  ∧ Manager.procs r.1 = Manager.procs m
  ∧ Manager.log r.1 = Manager.log m.
Proof.
  intros Hl. cbn zeta. unfold Manager.get_all_tools.
  destruct (gather_listed (Manager.mcp_clients m) [] m Hl) as (entries' & -> & Hf).
  cbn. by repeat split.
Qed.

Lemma get_all_tools_collects_witness :
  let r := Manager.get_all_tools Scenario.serving in
  r.2 = Ok [("A", Client.ItemRef 0)]
  ∧ Manager.log r.1 = Manager.log Scenario.serving.
Proof.
  cbn zeta.
  destruct (get_all_tools_collects Scenario.serving serving_listed)
    as (H1 & _ & _ & _ & H2).
  split; [|exact H2]. rewrite H1. vm_compute. reflexivity.
Defined.

(** X13.  Under the same condition a second [get_all_tools] returns the
    same list as the first and changes nothing: the tags it writes are
    already there. *)
Theorem get_all_tools_idempotent (m : Manager.McpServerManager) :
  Forall (fun p => listed p.2) (Manager.mcp_clients m) →
  let r := Manager.get_all_tools m in
  Manager.get_all_tools r.1 = r.
Proof.
  intros Hl. cbn zeta. unfold Manager.get_all_tools at 2 3.
  destruct (gather_listed (Manager.mcp_clients m) [] m Hl) as (entries' & -> & Hf).
  cbn [fst snd app]. unfold Manager.get_all_tools.
  cbn [Manager.mcp_clients Manager.set_mcp_clients].
  rewrite gather_fixed.
  - cbn [app]. rewrite (collected_all_refs _ _ Hf). by destruct m.
  - clear Hl. induction Hf as [|p p' ? ? (Hn & (Ht & _) & Hg)]; constructor;
      [|done].
    rewrite Hn. unfold refs_of. rewrite Ht. exact Hg.
  - induction Hf as [|p p' ? ? (Hn & (Ht & _) & Hg) Hf IH]; constructor.
    + apply Forall_cons in Hl as [(refs & Hr & _) _]. exists refs. congruence.
    + apply IH. by apply Forall_cons in Hl as [_ ?].
Qed.

Lemma get_all_tools_idempotent_witness :
  let r := Manager.get_all_tools Scenario.serving in
  Manager.get_all_tools r.1 = r.
Proof.
  exact (get_all_tools_idempotent Scenario.serving serving_listed).
Defined.

Section Faulty.
Import Client Manager.






End Faulty.



(** ** The states of a manager *)

Section DictOrder.
Context {V : Type}.
Implicit Types (k : string) (v : V) (d : list (string * V)).

Lemma dict_set_absent k v d :
  dict_get k d = None → dict_set k v d = d ++ [(k, v)].
Proof.
  induction d as [|[k' v'] d IH]; cbn; [done|].
  destruct (decide (k = k')); [done|]. intros H. by rewrite IH.
Qed.

Lemma dict_del_sublist k d : dict_del k d `sublist_of` d.
Proof.
  induction d as [|[k' v'] d IH]; cbn; [done|].
  destruct (decide (k = k')); by constructor.
Qed.

Lemma NoDup_keys_set k v d : NoDup d.*1 → NoDup (dict_set k v d).*1.
Proof.
  intros Hd. destruct (dict_get k d) as [v'|] eqn:E.
  - by rewrite (dict_set_keys k v v' d E).
  - rewrite (dict_set_absent k v d E), fmap_app. cbn.
    apply NoDup_app. split; [done|]. split; [|apply NoDup_singleton].
    intros k' Hk' Hin. apply list_elem_of_singleton in Hin. subst k'.
    apply (dict_get_elem k d) in Hk' as [? ?]. congruence.
Qed.

Lemma NoDup_keys_del k d : NoDup d.*1 → NoDup (dict_del k d).*1.
Proof.
  intros Hd. eapply sublist_NoDup; [exact Hd|].
  apply fmap_sublist, dict_del_sublist.
Qed.

Lemma Forall_dict_set (P : string * V → Prop) k v d :
  Forall P d → P (k, v) → Forall P (dict_set k v d).
Proof.
  intros Hd Hp. induction Hd as [|[k' v'] d Hx Hd IH]; cbn.
  - by constructor.
  - destruct (decide (k = k')); by constructor.
Qed.

Lemma Forall_dict_del (P : string * V → Prop) k d :
  Forall P d → Forall (fun p => P p ∧ p.1 ≠ k) (dict_del k d).
Proof.
  intros Hd. apply Forall_forall. intros p [Hin Hne]%elem_of_dict_del.
  split; [|done]. by eapply Forall_forall in Hd.
Qed.

End DictOrder.

Section Kept.
Import Client.

Lemma kept_refl c : kept c c.
Proof. by split. Qed.

Lemma kept_trans c1 c2 c3 : kept c1 c2 → kept c2 c3 → kept c1 c3.
Proof.
  intros (? & ? & ?) (? & ? & ?). split; [congruence|].
  split; [congruence|auto].
Qed.

Lemma kept_same_cache c c' :
  same_cache c c' → (sound c → sound c') → kept c c'.
Proof. intros (_ & _ & ? & _ & _ & _ & ?) ?. by split. Qed.

Lemma kept_read_responses lines c : kept c (_read_responses lines c).
Proof.
  apply kept_same_cache; [apply same_cache_read_responses|].
  apply sound_read_responses.
Qed.

Lemma kept_call_tool name arguments e c :
  kept c (call_tool name arguments (wire e) c).1.
Proof.
  unfold call_tool. destruct (initialized c); cbn [negb fst];
    [|apply kept_refl].
  apply kept_same_cache; [apply same_cache_send_request_wire|].
  apply sound_send_request.
Qed.

Lemma kept_objects objs c : kept c (set_objects objs c).
Proof. split; [done|]. split; [done|]. intros Hs. by eapply sound_slots. Qed.

Lemma kept_report d c : kept c (report d c).
Proof.
  apply kept_same_cache; [apply same_cache_report|apply sound_report].
Qed.

Lemma kept_assign_tools v c : kept c (assign_tools v c).
Proof.
  split; [by destruct v|]. split; [by destruct v|].
  intros Hs. eapply sound_slots; [exact Hs|..]; by destruct v.
Qed.

Lemma kept_refresh_tools e c : kept c (_refresh_tools (wire e) c).
Proof.
  unfold _refresh_tools. destruct (initialized c); cbn [negb];
    [|apply kept_refl].
  destruct (contains "tools" (capabilities c)) as [[]|];
    [|apply kept_refl|apply kept_report].
  assert (H1 : kept c (_send_request "tools/list" JNull (wire e) c).1).
  { apply kept_same_cache; [apply same_cache_send_request_wire|].
    apply sound_send_request. }
  destruct (_send_request _ _ _ c) as [c1 [result|x]]; cbn [fst] in H1.
  2:{ eapply kept_trans; [exact H1|apply kept_report]. }
  destruct (get result "tools" (JList [])) as [v|].
  2:{ eapply kept_trans; [exact H1|apply kept_report]. }
  assert (H2 : kept c (assign_tools v c1)).
  { eapply kept_trans; [exact H1|apply kept_assign_tools]. }
  destruct (io _); [|done].
  destruct (tool_names _); (eapply kept_trans; [exact H2|apply kept_report]).
Qed.

Lemma kept_tag name i c : kept c (Manager.tag name i c).1.
Proof.
  destruct i as [a|s]; cbn; [|apply kept_refl].
  destruct (objects c !! a) as [[| | | | |kv]|]; cbn; try apply kept_refl.
  apply kept_objects.
Qed.

Lemma kept_tag_each name items c : kept c (Manager.tag_each name items c).1.
Proof.
  revert c. induction items as [|i items IH]; intros c; cbn;
    [apply kept_refl|].
  pose proof (kept_tag name i c) as H1.
  destruct (Manager.tag name i c) as [c1 [[]|x]]; cbn [fst] in *; [|done].
  eapply kept_trans; [exact H1|apply IH].
Qed.

Lemma kept_tagged_tools name c : kept c (Manager.tagged_tools name c).1.
Proof.
  unfold Manager.tagged_tools.
  destruct (get_tools c) as [tools|]; [|apply kept_refl].
  destruct (iterate tools) as [items|]; [|apply kept_refl].
  pose proof (kept_tag_each name items c) as H1.
  by destruct (Manager.tag_each name items c) as [c1 [[]|x]].
Qed.

End Kept.

Section Managed.
Import Manager.

Lemma dict_get_Some_elem {V} (k : string) (v : V) d :
  dict_get k d = Some v → (k, v) ∈ d.
Proof.
  induction d as [|[k' v'] d IH]; cbn; [done|].
  destruct (decide (k = k')) as [->|]; [intros [= ->]; by left|].
  intros H. right. by apply IH.
Qed.

Lemma registered_kept m m' entries entries' :
  active_processes m' = active_processes m →
  Forall (registered_ok m) entries →
  Forall2 (fun p p' => p'.1 = p.1 ∧ kept p.2 p'.2) entries entries' →
  Forall (registered_ok m') entries'.
Proof.
  intros Ha Hr Hf. induction Hf as [|p p' ? ? [Hn (Hi & Hp & Hs)] _ IH];
    [done|].
  apply Forall_cons in Hr as [(Ri & Rs & Rp) Hr].
  constructor; [|by apply IH].
  split; [congruence|]. split; [auto|]. rewrite Ha, Hn, Hp. done.
Qed.

Lemma kept_keys (entries entries' : list (string * Client.McpClient)) :
  Forall2 (fun p p' => p'.1 = p.1 ∧ kept p.2 p'.2) entries entries' →
  entries'.*1 = entries.*1.
Proof. induction 1 as [|p p' ? ? [Hn _] _ IH]; cbn; congruence. Qed.

Lemma managed_init io : managed (__init__ io).
Proof.
  split; cbn.
  - apply consistent_init.
  - constructor.
  - constructor.
  - constructor.
  - split; constructor.
Qed.

(** A manager whose registrations and processes are what they were. *)
Lemma managed_same m m' :
  managed m →
  active_processes m' = active_processes m →
  mcp_clients m' = mcp_clients m →
  length (procs m') = length (procs m) →
  managed m'.
Proof.
  intros [Hc Hk Hp Hr [Hh1 Hh2]] Ha Hm Hl. split.
  - by eapply consistent_same.
  - by rewrite Hm.
  - by rewrite Ha.
  - rewrite Hm. eapply Forall_impl; [exact Hr|].
    intros p (? & ? & ?). split; [done|]. split; [done|]. by rewrite Ha.
  - split; rewrite Ha; [done|]. by rewrite Hl.
Qed.

(** A manager in which only connections changed, each kept. *)
Lemma managed_kept m m' :
  managed m →
  active_processes m' = active_processes m →
  Forall2 (fun p p' => p'.1 = p.1 ∧ kept p.2 p'.2)
    (mcp_clients m) (mcp_clients m') →
  length (procs m') = length (procs m) →
  managed m'.
Proof.
  intros [Hc Hk Hp Hr [Hh1 Hh2]] Ha Hf Hl.
  pose proof (kept_keys _ _ Hf) as Hkeys. split.
  - by eapply consistent_keys_same.
  - unfold dict_keys. by rewrite Hkeys.
  - by rewrite Ha.
  - by eapply registered_kept.
  - split; rewrite Ha; [done|]. by rewrite Hl.
Qed.

End Managed.

Section Transitions.
Import Manager.

Lemma start_server_cases name config e m :
  let r := start_server name config e m in
  (active_processes r.1 = active_processes m
   ∧ mcp_clients r.1 = mcp_clients m
   ∧ ∃ extra, procs r.1 = procs m ++ extra)
  ∨ (∃ c p,
       dict_get name (active_processes m) = None
       ∧ active_processes r.1
         = dict_set name (length (procs m)) (active_processes m)
       ∧ mcp_clients r.1 = dict_set name c (mcp_clients m)
       ∧ procs r.1 = procs m ++ [p]
       ∧ Client.initialized c = true ∧ sound c
       ∧ Client.process c = length (procs m)).
Proof.
  cbn zeta. unfold start_server.
  assert (Hrep : ∀ d m0, active_processes (report d m0).1 = active_processes m0
                         ∧ mcp_clients (report d m0).1 = mcp_clients m0
                         ∧ procs (report d m0).1 = procs m0).
  { intros d m0. unfold report. by destruct (io m0). }
  assert (Hsame : ∀ d (b : bool),
            let r := match report d m with
                     | (m, Raise e) => (m, Raise e)
                     | (m, Ok _) => (m, Ok b)
                     end in
            active_processes r.1 = active_processes m
            ∧ mcp_clients r.1 = mcp_clients m
            ∧ ∃ extra, procs r.1 = procs m ++ extra).
  { intros d b. cbn zeta. destruct (Hrep d m) as (H1 & H2 & H3).
    destruct (report d m) as [m0 [[]|x]]; cbn [fst] in *;
      (split; [done|]; split; [done|]; exists []; by rewrite app_nil_r). }
  destruct (dict_has name (active_processes m)) eqn:Hreg; [left; apply Hsame|].
  destruct (truthy _); cbn [negb]; [|left; apply Hsame].
  destruct (child e) as [p|x]; [|left; apply Hsame].
  apply dict_has_false in Hreg.
  cbn [io set_active_processes set_procs].
  pose proof (initialize_same (hello e) (notified e) (listing e)
                (Client.__init__ (length (procs m)) (io m)) eq_refl)
    as (Hpr & _ & Hini).
  pose proof (sound_initialize (hello e) (notified e) (listing e)
                (Client.__init__ (length (procs m)) (io m))
                (sound_init _ _)) as Hs.
  destruct (Client.initialize _ _ _ _) as [c [|]]; cbn [fst snd] in *.
  - right. exists c, p. split; [done|].
    set (m2 := set_mcp_clients _ _).
    assert (H2 : active_processes m2
                 = dict_set name (length (procs m)) (active_processes m)
                 ∧ mcp_clients m2 = dict_set name c (mcp_clients m)
                 ∧ procs m2 = procs m ++ [p]) by done.
    destruct H2 as (Ha & Hc & Hp).
    destruct (Hrep (Client.tool_output "Started and initialized MCP server")
                m2) as (R1 & R2 & R3).
    destruct (report _ m2) as [m3 [[]|x]]; cbn [fst] in *.
    + rewrite R1, R2, R3, Ha, Hc, Hp. by rewrite Hini.
    + destruct (Hrep (Client.tool_error "Failed to start MCP server") m3)
        as (Q1 & Q2 & Q3).
      destruct (report _ m3) as [m4 [[]|y]]; cbn [fst] in *;
        rewrite Q1, Q2, Q3, R1, R2, R3, Ha, Hc, Hp; by rewrite Hini.
  - left. cbn. rewrite dict_del_set_absent by done.
    split; [done|]. split; [done|]. exists [Proc.terminate p].
    by rewrite alter_last.
Qed.

Lemma managed_start_server name config e m :
  managed m → managed (start_server name config e m).1.
Proof.
  intros Hm.
  destruct (start_server_cases name config e m)
    as [(Ha & Hc & extra & Hp)|(c & p & Hn & Ha & Hc & Hp & Hi & Hs & Hpr)];
    cbn zeta in *.
  - destruct Hm as [Hco Hk Hpk Hr [Hh1 Hh2]]. split.
    + by eapply consistent_same.
    + by rewrite Hc.
    + by rewrite Ha.
    + rewrite Hc. eapply Forall_impl; [exact Hr|].
      intros q (? & ? & ?). split; [done|]. split; [done|]. by rewrite Ha.
    + unfold handles_ok. rewrite Ha. split; [done|]. rewrite Hp, length_app.
      eapply Forall_impl; [exact Hh2|]. intros q ?. cbn in *. lia.
  - pose proof Hm as [Hco Hk Hpk Hr [Hh1 Hh2]]. split.
    + by eapply consistent_set.
    + rewrite Hc. by apply NoDup_keys_set.
    + rewrite Ha. by apply NoDup_keys_set.
    + rewrite Hc. apply Forall_dict_set.
      * eapply Forall_impl; [exact Hr|]. intros q (? & ? & Hq).
        split; [done|]. split; [done|]. rewrite Ha.
        rewrite dict_get_set_ne; [done|]. intros E. rewrite E in Hq.
        congruence.
      * split; [done|]. split; [done|]. cbn. rewrite Ha, Hpr.
        apply dict_get_set.
    + unfold handles_ok. rewrite Ha, (dict_set_absent _ _ _ Hn), Hp. split.
      * rewrite fmap_app. apply NoDup_app. split; [done|].
        split; [|apply NoDup_singleton].
        intros pid Hpid Hin. apply list_elem_of_singleton in Hin. subst pid.
        apply list_elem_of_fmap in Hpid as (q & Hq & Hin).
        eapply Forall_forall in Hh2; [|exact Hin]. cbn in Hh2, Hq. lia.
      * rewrite length_app. apply Forall_app. split.
        -- eapply Forall_impl; [exact Hh2|]. intros q ?. cbn in *. lia.
        -- constructor; [cbn; lia|constructor].
Qed.

End Transitions.

Section MoreTransitions.
Import Manager.

Lemma length_procs_stop_server name m :
  length (procs (stop_server name m).1) = length (procs m).
Proof.
  unfold stop_server.
  destruct (dict_has name (active_processes m)); cbn [negb]; [|done].
  set (m1 := match dict_get name (mcp_clients m) with
             | Some client => _ | None => m end).
  assert (H1 : length (procs m1) = length (procs m)).
  { subst m1. destruct (dict_get name (mcp_clients m)); [|done].
    cbn. by rewrite length_alter. }
  rewrite <- H1.
  destruct (io m1) eqn:Eio; destruct (Proc.wait _); unfold report;
    repeat (cbn; rewrite ?Eio); by rewrite ?length_alter.
Qed.

Lemma managed_stop_server name m :
  managed m → managed (stop_server name m).1.
Proof.
  intros Hm. pose proof Hm as [Hco Hk Hpk Hr [Hh1 Hh2]].
  destruct (stop_server_registrations name m) as [Ha Hc]. cbn zeta in *.
  pose proof (length_procs_stop_server name m) as Hl.
  assert (Hget : ∀ k, k ≠ name →
            dict_get k (active_processes (stop_server name m).1)
            = dict_get k (active_processes m)).
  { intros k Hne. destruct Ha as [-> | ->]; [done|].
    by apply dict_get_del_ne. }
  split.
  - by apply consistent_stop_server.
  - destruct Hc as [-> | [_ ->]]; [by apply NoDup_keys_del|done].
  - destruct Ha as [-> | ->]; [done|by apply NoDup_keys_del].
  - destruct Hc as [-> | [Hno ->]].
    + eapply Forall_impl; [apply Forall_dict_del, Hr|].
      intros q [(? & ? & Hq) Hne]. split; [done|]. split; [done|].
      by rewrite Hget.
    + eapply Forall_impl; [exact Hr|]. intros q (? & ? & Hq).
      split; [done|]. split; [done|]. rewrite Hget; [done|].
      intros E. apply dict_has_false in Hno. rewrite E in Hq. congruence.
  - unfold handles_ok. rewrite Hl. destruct Ha as [-> | ->]; [done|]. split.
    + eapply sublist_NoDup; [exact Hh1|].
      apply fmap_sublist, dict_del_sublist.
    + eapply Forall_impl; [apply Forall_dict_del, Hh2|]. by intros q [? _].
Qed.

Lemma managed_stop_each names m :
  managed m → managed (stop_each names m).1.
Proof.
  revert m. induction names as [|name names IH]; intros m Hm; [done|].
  cbn [stop_each]. pose proof (managed_stop_server name m Hm) as H1.
  destruct (stop_server name m) as [m1 [b|x]]; cbn [fst] in *; [|done].
  by apply IH.
Qed.

Lemma kept_entries_refl (entries : list (string * Client.McpClient)) :
  Forall2 (fun p p' => p'.1 = p.1 ∧ kept p.2 p'.2) entries entries.
Proof.
  induction entries; constructor; [|done]. split; [done|apply kept_refl].
Qed.

Lemma gather_kept entries all_tools m :
  let r := gather entries all_tools m in
  Forall2 (fun p p' => p'.1 = p.1 ∧ kept p.2 p'.2) entries r.1.1
  ∧ active_processes r.1.2 = active_processes m
  ∧ procs r.1.2 = procs m.
Proof.
  cbn zeta. revert all_tools m.
  induction entries as [|[name c] entries IH]; intros all_tools m;
    cbn [gather]; [by split|].
  pose proof (kept_tagged_tools name c) as Hk.
  destruct (tagged_tools name c) as [c' [tools|x]]; cbn [fst] in Hk.
  - specialize (IH (all_tools ++ (pair name <$> tools)) m).
    destruct (gather entries _ m) as [[rest m'] r]. cbn [fst snd] in *.
    destruct IH as (IH1 & IH2 & IH3). split; [|done]. by constructor.
  - unfold report. destruct (io m).
    + specialize (IH all_tools
        (set_log (log m ++ [Client.tool_error
           "Error getting tools from MCP server"]) m)).
      destruct (gather entries _ _) as [[rest m'] r]. cbn [fst snd] in *.
      destruct IH as (IH1 & IH2 & IH3). split; [|done]. by constructor.
    + cbn. split; [|done]. constructor; [done|]. apply kept_entries_refl.
Qed.

Lemma managed_get_all_tools m : managed m → managed (get_all_tools m).1.
Proof.
  intros Hm. unfold get_all_tools.
  destruct (gather_kept (mcp_clients m) [] m) as (Hf & Ha & Hp).
  destruct (gather (mcp_clients m) [] m) as [[clients m'] r].
  cbn [fst snd] in *.
  eapply managed_kept; [exact Hm|done|done|cbn; by rewrite Hp].
Qed.

Lemma search_kept tool_name arguments e entries :
  Forall2 (fun p p' => p'.1 = p.1 ∧ kept p.2 p'.2) entries
    (search tool_name arguments (Client.wire e) entries).1.
Proof.
  induction entries as [|[name c] entries IH]; cbn [search fst];
    [constructor|].
  destruct (has_tool tool_name c) as [[]|]; cbn [fst].
  - pose proof (kept_call_tool tool_name arguments e c) as Hk.
    destruct (Client.call_tool _ _ _ c) as [c' r]. cbn [fst] in *.
    constructor; [done|apply kept_entries_refl].
  - destruct (search _ _ _ entries) as [rest r]. cbn [fst] in *.
    constructor; [|done]. split; [done|apply kept_refl].
  - apply kept_entries_refl.
Qed.

Lemma kept_dict_set (name : string) c c' entries :
  dict_get name entries = Some c → kept c c' →
  Forall2 (fun p p' => p'.1 = p.1 ∧ kept p.2 p'.2) entries
    (dict_set name c' entries).
Proof.
  intros Hg Hk. induction entries as [|[name' c0] entries IH]; [done|].
  cbn in *. destruct (decide (name = name')) as [->|Hne].
  - injection Hg as ->. constructor; [done|apply kept_entries_refl].
  - constructor; [|by apply IH]. split; [done|apply kept_refl].
Qed.

Lemma managed_call_tool tool_name arguments server_name e m :
  managed m →
  managed (call_tool tool_name arguments server_name (Client.wire e) m).1.
Proof.
  intros Hm. unfold call_tool. destruct (truthy _).
  - destruct (dict_get _ (mcp_clients m)) as [c|] eqn:E; [|done].
    pose proof (kept_call_tool tool_name arguments e c) as Hk.
    destruct (Client.call_tool _ _ _ c) as [c' r]. cbn [fst] in *.
    eapply managed_kept; [exact Hm|done| |done].
    by apply (kept_dict_set _ c).
  - pose proof (search_kept tool_name arguments e (mcp_clients m)) as Hf.
    destruct (search _ _ _ _) as [clients r]. cbn [fst] in *.
    by eapply managed_kept.
Qed.

Lemma managed_load_config file m :
  managed m → managed (load_config_from_file file m).1.
Proof.
  intros Hm. eapply managed_same; [exact Hm|..];
    unfold load_config_from_file, report;
    destruct file as [| |config]; try destruct (get config _ _);
    by destruct (io m).
Qed.

Lemma managed_on_client f name m :
  (∀ c, kept c (f c)) → managed m → managed (on_client f name m).
Proof.
  intros Hf Hm. unfold on_client.
  destruct (dict_get name (mcp_clients m)) as [c|] eqn:E; [|done].
  eapply managed_kept; [exact Hm|done| |done].
  by apply (kept_dict_set _ c).
Qed.

Lemma managed_on_proc f pid m : managed m → managed (on_proc f pid m).
Proof.
  intros Hm. eapply managed_same; [exact Hm|done|done|].
  apply length_procs_on_proc.
Qed.

End MoreTransitions.

(** X15.  In every state a manager reaches from [__init__] by its own
    operations, by the receive loops of its connections, by refreshes of
    their tools and by children exiting: every registered connection has its
    process registered; no name is registered twice; every registered
    connection is initialized, has its pending table in order and talks to
    the process registered under its name; and the registered handles are
    distinct processes of the table. *)
Theorem manager_invariant (m : Manager.McpServerManager) :
  reachable m → managed m.
Proof.
  induction 1 as [io|name config e m _ IH|name m _ IH|m _ IH|m _ IH
                 |tool_name arguments server_name e m _ IH|file m _ IH
                 |name lines m _ IH|name e m _ IH|pid m _ IH].
  - apply managed_init.
  - by apply managed_start_server.
  - by apply managed_stop_server.
  - by apply managed_stop_each.
  - by apply managed_get_all_tools.
  - by apply managed_call_tool.
  - by apply managed_load_config.
  - apply managed_on_client; [|done]. intros c. apply kept_read_responses.
  - apply managed_on_client; [|done]. intros c. apply kept_refresh_tools.
  - by apply managed_on_proc.
Qed.

Lemma manager_invariant_witness :
  managed
    (Manager.start_server "B" Scenario.config Scenario.stubborn_start
       (on_client
          (Client._refresh_tools (Client.wire (Scenario.listing_env 2))) "A"
          (Manager.start_server "A" Scenario.config Scenario.good_start
             (Manager.__init__ true)).1)).1.
Proof.
  apply manager_invariant.
  apply reach_start, reach_refresh, reach_start, reach_init.
Defined.

(** ** The cache of the integration *)

Section Cache.
Import Client Integration.

Lemma dict_get_NoDup {V} (k : string) (v : V) d :
  NoDup d.*1 → (k, v) ∈ d → dict_get k d = Some v.
Proof.
  induction d as [|[k' v'] d IH]; cbn; [by intros _ ?%elem_of_nil|].
  intros [Hk Hd]%NoDup_cons [[= -> ->]|Hin]%elem_of_cons.
  - by rewrite decide_True.
  - rewrite decide_False; [by apply IH|].
    intros ->. apply Hk. apply list_elem_of_fmap. by exists (k', v).
Qed.

Lemma convert_each_app l1 l2 a b :
  convert_each l1 = Ok a → convert_each l2 = Ok b →
  convert_each (l1 ++ l2) = Ok (a ++ b).
Proof.
  revert a. induction l1 as [|x l1 IH]; intros a; cbn.
  - by intros [= <-].
  - destruct (_convert_mcp_tool_to_llm_format x) as [y|]; [|done].
    destruct (convert_each l1) as [a'|]; [|done].
    intros [= <-] Hb. by rewrite (IH a' eq_refl Hb).
Qed.

(** The conversion of a tagged descriptor. *)
Lemma convert_tagged server_name kv kv' n :
  dict_get "name" kv = Some n →
  (∀ k, k ≠ "_mcp_server" → dict_get k kv' = dict_get k kv) →
  dict_get "_mcp_server" kv' = Some (JStr server_name) →
  _convert_mcp_tool_to_llm_format (JDict kv') = Ok (llm_tool server_name kv).
Proof.
  intros Hn Hk Ht. unfold _convert_mcp_tool_to_llm_format, llm_tool.
  cbn [getitem get]. rewrite !Hk by done. rewrite Hn, Ht. done.
Qed.

Lemma convert_connection m' name c c' refs :
  dict_get name (Manager.mcp_clients m') = Some c' →
  retagged name c c' →
  (∀ a, a ∈ refs → tagged name a c') →
  (∀ a, a ∈ refs →
     ∃ kv n, objects c !! a = Some (JDict kv) ∧ dict_get "name" kv = Some n) →
  convert_each (deref m' <$> ((fun a => (name, ItemRef a)) <$> refs))
  = Ok ((fun a => llm_tool name (dict_at c a)) <$> refs).
Proof.
  intros Hc' (_ & _ & Hr) Ht Hw.
  induction refs as [|a refs IH]; [done|].
  cbn [fmap list_fmap convert_each].
  destruct (Hw a ltac:(by left)) as (kv & n & Ha & Hn).
  destruct (Hr a kv Ha) as (kv' & Ha' & Hk & _).
  destruct (Ht a ltac:(by left)) as (kv'' & Ha'' & Htag).
  assert (kv'' = kv') as -> by congruence.
  unfold deref at 1. cbn [fst snd]. rewrite Hc'. cbn [item_value].
  rewrite Ha'. cbn [default]. unfold id.
  rewrite (convert_tagged name kv kv' n Hn Hk Htag).
  rewrite IH.
  - unfold dict_at. by rewrite Ha.
  - intros a' Ha1. apply Ht. by right.
  - intros a' Ha1. apply Hw. by right.
Qed.

Lemma convert_collected m' entries entries' :
  Forall2 collected entries entries' →
  Forall (fun p => well_formed p.2) entries →
  Forall (fun p' => dict_get p'.1 (Manager.mcp_clients m') = Some p'.2)
    entries' →
  convert_each (deref m' <$> all_refs entries) = Ok (llm_tools entries).
Proof.
  induction 1 as [|[name c] [name' c'] entries entries' (Hn & Hr & Ht) _ IH];
    intros Hw Hd; [done|].
  cbn [fst snd] in *. subst name'.
  apply Forall_cons in Hw as [(refs & Hrefs & Hw) Hw'].
  apply Forall_cons in Hd as [Hd Hd']. cbn [fst snd] in *.
  rewrite all_refs_cons, fmap_app. cbn [fst snd].
  unfold llm_tools. cbn [mbind list_bind]. fold (llm_tools entries).
  cbn [fst snd]. unfold refs_of in *. rewrite Hrefs in *.
  apply convert_each_app; [|by apply IH].
  by apply (convert_connection m' name c c').
Qed.

Lemma llm_tool_function server_name kv :
  getitem (llm_tool server_name kv) "function"
  = Ok (JDict [("name", default JNull (dict_get "name" kv));
               ("description", default (JStr "") (dict_get "description" kv));
               ("parameters",
                default default_schema (dict_get "inputSchema" kv))]).
Proof.
  unfold llm_tool. cbn [getitem dict_get].
  rewrite decide_False by done. by rewrite decide_True by done.
Qed.

Lemma llm_tool_name server_name kv func :
  getitem (llm_tool server_name kv) "function" = Ok func →
  getitem func "name" = Ok (default JNull (dict_get "name" kv)).
Proof.
  rewrite llm_tool_function. intros [= <-]. cbn [getitem dict_get].
  by rewrite decide_True by done.
Qed.

Lemma llm_tool_server server_name kv :
  get (llm_tool server_name kv) "_mcp_server" JNull = Ok (JStr server_name).
Proof.
  unfold llm_tool. cbn [get dict_get].
  rewrite !decide_False by done. by rewrite decide_True by done.
Qed.

Lemma function_names_llm_tools entries :
  function_names (llm_tools entries) = Ok (names_in entries).
Proof.
  induction entries as [|[name c] entries IH]; [done|].
  unfold llm_tools, names_in. cbn [mbind list_bind fst snd].
  fold (llm_tools entries). fold (names_in entries).
  induction (refs_of c) as [|a refs IHr]; [done|].
  cbn [fmap list_fmap app function_names].
  rewrite llm_tool_function.
  rewrite (llm_tool_name name _ _ (llm_tool_function name (dict_at c a))).
  by rewrite IHr.
Qed.

End Cache.

Section Refreshing.
Import Client Integration.

Lemma collected_keys entries entries' :
  Forall2 collected entries entries' → entries'.*1 = entries.*1.
Proof.
  induction 1 as [|p p' ? ? (Hn & _) _ IH]; [done|]. cbn. by rewrite Hn, IH.
Qed.

Lemma well_formed_listed c : well_formed c → listed c.
Proof.
  intros (refs & Ht & H). exists refs. split; [done|].
  intros a Ha. destruct (H a Ha) as (kv & n & ? & _). by exists kv.
Qed.

Lemma length_names_in entries :
  length (names_in entries) = length (llm_tools entries).
Proof.
  induction entries as [|[name c] entries IH]; [done|].
  unfold names_in, llm_tools. cbn [mbind list_bind].
  fold (names_in entries). fold (llm_tools entries).
  by rewrite !length_app, !length_fmap, IH.
Qed.

(** A refresh over connections whose descriptors are dictionaries with a
    name. *)
Lemma refresh_tools_cache_lists_all t m :
  mcp_server_manager t = Some m →
  NoDup (dict_keys (Manager.mcp_clients m)) →
  Forall (fun p => well_formed p.2) (Manager.mcp_clients m) →
  let t' := _refresh_tools_cache t in
  let named := negb (io t)
               || forallb is_str (names_in (Manager.mcp_clients m)) in
  _tools_cache t' = (if named then llm_tools (Manager.mcp_clients m) else [])
  ∧ _tools_cache_valid t' = named
  ∧ mcp_server_manager t' = Some (Manager.get_all_tools m).1.
Proof.
  intros Hm Hnd Hw. cbn zeta. unfold _refresh_tools_cache. rewrite Hm.
  assert (Hl : Forall (fun p => listed p.2) (Manager.mcp_clients m)).
  { eapply Forall_impl; [exact Hw|]. intros p. apply well_formed_listed. }
  unfold Manager.get_all_tools.
  destruct (gather_listed (Manager.mcp_clients m) [] m Hl)
    as (entries' & -> & Hf).
  cbn [app fst snd].
  set (m' := Manager.set_mcp_clients entries' m).
  rewrite (convert_collected m' _ entries' Hf Hw).
  2:{ apply Forall_forall. intros [name c'] Hin. cbn.
      apply dict_get_NoDup; [|done].
      by rewrite (collected_keys _ _ Hf). }
  set (cache := llm_tools (Manager.mcp_clients m)).
  cbn [io set_cache set_manager].
  destruct (io t) eqn:Eio; cbn [negb orb andb]; [|done].
  destruct cache as [|x cache'] eqn:Ec; cbn [truthy].
  - pose proof (length_names_in (Manager.mcp_clients m)) as Hlen.
    fold cache in Hlen. rewrite Ec in Hlen.
    destruct (names_in _); [done|discriminate].
  - rewrite <- Ec. unfold cache. rewrite function_names_llm_tools.
    unfold Client.join. fold is_str.
    destruct (forallb is_str _); cbn.
    + unfold report. cbn. rewrite Eio. done.
    + unfold report. cbn. rewrite Eio. done.
Qed.

End Refreshing.

Lemma serving_well_formed :
  Forall (fun p => well_formed p.2) (Manager.mcp_clients Scenario.serving).
Proof.
  apply Forall_forall. intros p Hp. vm_compute in Hp.
  apply list_elem_of_singleton in Hp. subst p. exists [0]. split; [reflexivity|].
  intros a Ha. apply list_elem_of_singleton in Ha. subst a.
  by exists [("name", JStr "x")], (JStr "x").
Qed.

(** X16.  On an integration whose cache is not valid, over a manager whose
    connections cache dictionaries with a name, [get_tools_for_llm] returns
    one tool for every cached descriptor, in order: its function has the
    descriptor's name, its description (the empty string when missing) and
    its input schema (the empty object schema when missing), and it carries
    the name of its server; the cache is then valid.  This is so without a sink, and
    with a sink when every name is a string; with a sink and a name that is
    not a string, reporting the names fails and the result is the empty
    list, with the cache not valid. *)
Theorem get_tools_for_llm_lists_all
    (t : Integration.McpToolsIntegration) (m : Manager.McpServerManager) :
  Integration.mcp_server_manager t = Some m →
  Integration._tools_cache_valid t = false →
  NoDup (dict_keys (Manager.mcp_clients m)) →
  Forall (fun p => well_formed p.2) (Manager.mcp_clients m) →
  let r := Integration.get_tools_for_llm t in
  let named := negb (Integration.io t)
               || forallb is_str (names_in (Manager.mcp_clients m)) in
  r.2 = (if named then llm_tools (Manager.mcp_clients m) else [])
  ∧ Integration._tools_cache r.1 = r.2
  ∧ Integration._tools_cache_valid r.1 = named
  ∧ Integration.mcp_server_manager r.1 = Some (Manager.get_all_tools m).1.
Proof.
  intros Hm Hv Hnd Hw. cbn zeta. unfold Integration.get_tools_for_llm.
  rewrite Hm, Hv. cbn [negb fst snd].
  destruct (refresh_tools_cache_lists_all t m Hm Hnd Hw) as (H1 & H2 & H3).
  split; [exact H1|]. split; [done|]. by split.
Qed.

Lemma get_tools_for_llm_lists_all_witness :
  let r := Integration.get_tools_for_llm Scenario.assistant in
  r.2 = [llm_tool "A" [("name", JStr "x")]]
  ∧ Integration._tools_cache_valid r.1 = true.
Proof.
  cbn zeta.
  destruct (get_tools_for_llm_lists_all Scenario.assistant Scenario.serving)
    as (H1 & _ & H2 & _);
    [reflexivity|reflexivity| |exact serving_well_formed|].
  { apply (bool_decide_unpack _). vm_compute. exact I. }
  rewrite H1, H2. split; vm_compute; reflexivity.
Defined.

Section Serving.
Import Integration.

Lemma refresh_valid_or_empty t :
  _tools_cache_valid (_refresh_tools_cache t) = false →
  _tools_cache (_refresh_tools_cache t) = [].
Proof.
  unfold _refresh_tools_cache.
  destruct (mcp_server_manager t) as [m|]; [|done].
  destruct (Manager.get_all_tools m) as [m' [mcp_tools|]]; [|done].
  destruct (convert_each _) as [cache|]; [|done].
  cbn [io set_cache set_manager].
  destruct (io t) eqn:Eio; cbn [andb]; [|done].
  destruct (truthy (JList cache)); [|done].
  destruct (function_names cache) as [names|]; [|done].
  destruct (Client.join names); [|done].
  unfold report. cbn. by rewrite Eio.
Qed.

Lemma refresh_manager_some t :
  is_Some (mcp_server_manager t) →
  is_Some (mcp_server_manager (_refresh_tools_cache t)).
Proof.
  intros [m Hm]. unfold _refresh_tools_cache. rewrite Hm.
  assert (Hrep : ∀ d t0, mcp_server_manager (report d t0)
                         = mcp_server_manager t0).
  { intros d t0. unfold report. by destruct (io t0). }
  destruct (Manager.get_all_tools m) as [m' [mcp_tools|]]; cbn;
    [|by rewrite Hrep].
  destruct (convert_each _) as [cache|]; cbn; [|by rewrite Hrep].
  destruct (io t && _); cbn; [|done].
  destruct (function_names cache) as [names|]; cbn; [|by rewrite Hrep].
  destruct (Client.join names); cbn; by rewrite Hrep.
Qed.

End Serving.

(** X17.  [has_tools] answers whether [get_tools_for_llm] returns a
    non-empty list, and leaves the integration in the same state.  When the
    cache is not valid afterwards, the list returned is empty.  A non-empty
    list is served from the cache from then on: a further
    [get_tools_for_llm] returns the same list and changes nothing, and
    [has_tools] answers [True]. *)
Theorem tools_cache_serves (t : Integration.McpToolsIntegration) :
  let r := Integration.get_tools_for_llm t in
  Integration.has_tools t = (r.1, bool_decide (r.2 ≠ []))
  ∧ (Integration._tools_cache_valid r.1 = false → r.2 = [])
  ∧ (r.2 ≠ [] →
     Integration._tools_cache_valid r.1 = true
     ∧ Integration.get_tools_for_llm r.1 = r
     ∧ Integration.has_tools r.1 = (r.1, true)).
Proof.
  cbn zeta.
  assert (Hlen : ∀ l : list Json, bool_decide (0 < length l)
                                  = bool_decide (l ≠ [])).
  { by intros [|x l]. }
  unfold Integration.get_tools_for_llm, Integration.has_tools.
  destruct (Integration.mcp_server_manager t) as [m|] eqn:Hm; cbn [fst snd].
  2:{ split; [done|]. split; [done|]. by intros []. }
  destruct (Integration._tools_cache_valid t) eqn:Hv; cbn [negb].
  - rewrite Hm, Hv. cbn [negb]. rewrite Hlen.
    split; [done|]. split; [done|]. intros Hne.
    split; [done|]. split; [done|]. by rewrite bool_decide_eq_true_2.
  - rewrite Hlen. split; [done|].
    split; [apply refresh_valid_or_empty|]. intros Hne.
    destruct (refresh_manager_some t) as [m' Hm']; [by eexists|].
    destruct (Integration._tools_cache_valid
                (Integration._refresh_tools_cache t)) eqn:Hv'.
    2:{ by rewrite refresh_valid_or_empty in Hne. }
    rewrite Hm'. cbn [negb]. rewrite Hlen.
    split; [done|]. split; [done|]. by rewrite bool_decide_eq_true_2.
Qed.

Lemma tools_cache_serves_witness :
  let r := Integration.get_tools_for_llm Scenario.assistant in
  Integration.get_tools_for_llm r.1 = r
  ∧ Integration.has_tools r.1 = (r.1, true).
Proof.
  cbn zeta. destruct (tools_cache_serves Scenario.assistant) as (_ & _ & H).
  destruct H as (_ & H1 & H2); [|by split].
  vm_compute. discriminate.
Defined.

(** ** Calling a tool through the integration *)

Section Finding.
Import Client Integration.

Lemma llm_tools_app entries1 entries2 :
  llm_tools (entries1 ++ entries2) = llm_tools entries1 ++ llm_tools entries2.
Proof. unfold llm_tools. apply bind_app. Qed.

Lemma llm_tools_cons p entries :
  llm_tools (p :: entries)
  = ((fun a => llm_tool p.1 (dict_at p.2 a)) <$> refs_of p.2)
    ++ llm_tools entries.
Proof. done. Qed.

Lemma find_server_cons tool_name server_name kv rest :
  find_server tool_name (llm_tool server_name kv :: rest)
  = if eq_str (default JNull (dict_get "name" kv)) tool_name
    then Ok (JStr server_name)
    else find_server tool_name rest.
Proof.
  cbn [find_server]. rewrite llm_tool_function.
  rewrite (llm_tool_name server_name kv _ (llm_tool_function server_name kv)).
  by rewrite llm_tool_server.
Qed.

(** The search passes over a connection that does not list the tool. *)
Lemma find_server_skip tool_name name c rest :
  well_formed c → ¬ exposes tool_name c →
  find_server tool_name
    (((fun a => llm_tool name (dict_at c a)) <$> refs_of c) ++ rest)
  = find_server tool_name rest.
Proof.
  intros (refs & Ht & Hw) Hn. unfold refs_of. rewrite Ht.
  assert (Hsub : ∀ a, a ∈ refs →
            eq_str (default JNull (dict_get "name" (dict_at c a))) tool_name
            = false).
  { intros a Ha. destruct (Hw a Ha) as (kv & n & Ea & En).
    unfold dict_at. rewrite Ea, En. cbn.
    destruct (eq_str n tool_name) eqn:E; [|done].
    apply eq_str_true in E as ->. exfalso. apply Hn.
    by exists refs, a, kv. }
  clear Hw Hn Ht. induction refs as [|a refs IH]; [done|].
  cbn [fmap list_fmap app]. rewrite find_server_cons.
  rewrite Hsub by by left. apply IH. intros a' Ha'. apply Hsub. by right.
Qed.

(** It stops at the first connection that lists it. *)
Lemma find_server_hit tool_name name c rest :
  well_formed c → exposes tool_name c →
  find_server tool_name
    (((fun a => llm_tool name (dict_at c a)) <$> refs_of c) ++ rest)
  = Ok (JStr name).
Proof.
  intros (refs & Ht & Hw) (refs' & a & kv & Ht' & Ha & Ea & En).
  unfold refs_of. rewrite Ht. assert (refs' = refs) as -> by congruence.
  clear Ht Ht'. induction refs as [|a' refs IH]; [by apply elem_of_nil in Ha|].
  cbn [fmap list_fmap app]. rewrite find_server_cons.
  destruct (eq_str _ tool_name) eqn:E; [done|].
  apply elem_of_cons in Ha as [->|Ha].
  - unfold dict_at in E. rewrite Ea, En in E. cbn in E.
    by rewrite String.eqb_refl in E.
  - apply IH; [|done]. intros a0 Ha0. apply Hw. by right.
Qed.

Lemma find_server_first tool_name before name c after :
  Forall (fun p => well_formed p.2 ∧ ¬ exposes tool_name p.2) before →
  well_formed c → exposes tool_name c →
  find_server tool_name (llm_tools (before ++ (name, c) :: after))
  = Ok (JStr name).
Proof.
  intros Hb Hw He. induction Hb as [|[name' c'] before [Hw' Hn'] _ IH].
  - cbn [app]. rewrite llm_tools_cons. by apply find_server_hit.
  - cbn [app]. rewrite llm_tools_cons. cbn [fst snd].
    by rewrite find_server_skip.
Qed.

Lemma find_server_none tool_name entries :
  Forall (fun p => well_formed p.2 ∧ ¬ exposes tool_name p.2) entries →
  find_server tool_name (llm_tools entries) = Ok JNull.
Proof.
  induction 1 as [|[name c] entries [Hw Hn] _ IH]; [done|].
  rewrite llm_tools_cons. cbn [fst snd]. by rewrite find_server_skip.
Qed.

Lemma report_cache_same d t :
  _tools_cache (report d t) = _tools_cache t
  ∧ _tools_cache_valid (report d t) = _tools_cache_valid t
  ∧ mcp_server_manager (report d t) = mcp_server_manager t.
Proof. unfold report. by destruct (io t). Qed.

End Finding.

(** X18.  [call_mcp_tool] only reads the cache: it never fills or
    invalidates it.  With a manager and an empty cache the answer is that
    the tool was not found, whatever the servers offer, and nothing changes;
    so it is when the cache lists the tools of the connections and none has
    a tool of that name. *)
Theorem call_mcp_tool_reads_cache_only
    (format : Json → string) (tool_name : string) (arguments : Json)
    (w : Client.Wire) (t : Integration.McpToolsIntegration) :
  let r := Integration.call_mcp_tool format tool_name arguments w t in
  let not_found := Integration.Text ("Error: Tool '" +:+ tool_name
                                     +:+ "' not found") in
  Integration._tools_cache r.1 = Integration._tools_cache t
  ∧ Integration._tools_cache_valid r.1 = Integration._tools_cache_valid t
  ∧ (is_Some (Integration.mcp_server_manager t) →
     Integration._tools_cache t = [] → r = (t, not_found))
  ∧ (∀ m, Integration.mcp_server_manager t = Some m →
          Integration._tools_cache t = llm_tools (Manager.mcp_clients m) →
          Forall (fun p => well_formed p.2 ∧ ¬ exposes tool_name p.2)
            (Manager.mcp_clients m) →
          r = (t, not_found)).
Proof.
  cbn zeta. unfold Integration.call_mcp_tool.
  destruct (Integration.mcp_server_manager t) as [m|] eqn:Hm.
  2:{ split; [done|]. split; [done|]. split; [by intros [? [=]]|done]. }
  split; [|split; [|split]].
  - destruct (Integration.find_server _ _) as [server_name|]; cbn [fst].
    2:{ apply report_cache_same. }
    destruct (truthy server_name); cbn [negb fst]; [|done].
    destruct (Integration.manager_call_tool _ _ _ _ _ _) as [m' [result|]];
      cbn [fst]; [|by rewrite (proj1 (report_cache_same _ _))].
    destruct (Integration._format_tool_result _ _); cbn [fst]; [done|].
    by rewrite (proj1 (report_cache_same _ _)).
  - destruct (Integration.find_server _ _) as [server_name|]; cbn [fst].
    2:{ apply report_cache_same. }
    destruct (truthy server_name); cbn [negb fst]; [|done].
    destruct (Integration.manager_call_tool _ _ _ _ _ _) as [m' [result|]];
      cbn [fst]; [|by rewrite (proj1 (proj2 (report_cache_same _ _)))].
    destruct (Integration._format_tool_result _ _); cbn [fst]; [done|].
    by rewrite (proj1 (proj2 (report_cache_same _ _))).
  - intros _ ->. done.
  - intros m0 [= <-] -> Hn. by rewrite find_server_none.
Qed.

Lemma call_mcp_tool_reads_cache_only_witness :
  Integration.call_mcp_tool Scenario.str "x" JNull
    (Client.wire (Scenario.call_env 3)) Scenario.assistant
  = (Scenario.assistant, Integration.Text "Error: Tool 'x' not found")
  ∧ exposes "x" (default Scenario.fresh
                   (dict_get "A" (Manager.mcp_clients Scenario.serving))).
Proof.
  split.
  - destruct (call_mcp_tool_reads_cache_only Scenario.str "x" JNull
                (Client.wire (Scenario.call_env 3)) Scenario.assistant)
      as (_ & _ & H & _).
    apply H; [by eexists|reflexivity].
  - exists [0], 0, [("name", JStr "x")]. repeat split; try reflexivity.
    by left.
Defined.

(** X19.  With a cache that lists the tools of the manager's connections,
    [call_mcp_tool] hands the call to the first connection, in the order of
    the dictionary, that has a tool of that name: the reply is the formatted
    result of that connection's [call_tool], or the error message when the
    call or the formatting raises, in which case the sink is told.  If that
    connection is registered under the empty name the answer is that the
    tool was not found, and nothing is called. *)
Theorem call_mcp_tool_first_server
    (format : Json → string) (tool_name : string) (arguments : Json)
    (w : Client.Wire) (t : Integration.McpToolsIntegration)
    (m : Manager.McpServerManager)
    (before after : list (string * Client.McpClient))
    (name : string) (c : Client.McpClient) :
  Integration.mcp_server_manager t = Some m →
  Integration._tools_cache t = llm_tools (Manager.mcp_clients m) →
  NoDup (dict_keys (Manager.mcp_clients m)) →
  Manager.mcp_clients m = before ++ (name, c) :: after →
  Forall (fun p => well_formed p.2 ∧ ¬ exposes tool_name p.2) before →
  well_formed c → exposes tool_name c →
  let r := Integration.call_mcp_tool format tool_name arguments w t in
  let call := Client.call_tool tool_name arguments w c in
  let t' :=
    Integration.set_manager
      (Some (Manager.set_mcp_clients
               (dict_set name call.1 (Manager.mcp_clients m)) m)) t in
  let failed e :=
    (Integration.report (Client.tool_error "Error calling MCP tool") t',
     Integration.ErrorCalling tool_name e) in
  (name = "" →
   r = (t, Integration.Text ("Error: Tool '" +:+ tool_name +:+ "' not found")))
  ∧ (name ≠ "" →
     r = match call.2 with
         | Ok result =>
             match Integration._format_tool_result format result with
             | Ok formatted => (t', Integration.Text formatted)
             | Raise e => failed e
             end
         | Raise e => failed e
         end).
Proof.
  intros Hm Hc Hnd Hcl Hb Hw He. cbn zeta.
  unfold Integration.call_mcp_tool. rewrite Hm, Hc, Hcl.
  rewrite (find_server_first tool_name before name c after Hb Hw He).
  cbn [truthy]. split.
  - intros ->. done.
  - intros Hne. apply String.eqb_neq in Hne. rewrite Hne. cbn [negb].
    unfold Integration.manager_call_tool, Manager.call_tool.
    cbn [from_option truthy default]. rewrite Hne. cbn [negb]. unfold id.
    rewrite (dict_get_NoDup name c (Manager.mcp_clients m)); [|done|].
    2:{ rewrite Hcl. apply elem_of_app. right. by left. }
    rewrite <- Hcl.
    destruct (Client.call_tool tool_name arguments w c) as [c' [result|e]];
      cbn [fst snd]; [|done].
    by destruct (Integration._format_tool_result format result).
Qed.

Lemma call_mcp_tool_first_server_witness :
  (Integration.call_mcp_tool Scenario.str "x" JNull
     (Client.wire (Scenario.call_env 3)) Scenario.informed).2
  = Integration.Text "Tool executed successfully (no output)".
Proof.
  set (m := default (Manager.__init__ true)
              (Integration.mcp_server_manager Scenario.informed)).
  set (c := default Scenario.fresh (dict_get "A" (Manager.mcp_clients m))).
  destruct (call_mcp_tool_first_server Scenario.str "x" JNull
              (Client.wire (Scenario.call_env 3)) Scenario.informed m
              [] [] "A" c) as [_ H].
  - vm_compute. reflexivity.
  - vm_compute. reflexivity.
  - apply (bool_decide_unpack _). vm_compute. exact I.
  - vm_compute. reflexivity.
  - constructor.
  - exists [0]. split; [vm_compute; reflexivity|].
    intros a Ha. apply list_elem_of_singleton in Ha. subst a.
    eexists _, _. split; vm_compute; reflexivity.
  - exists [0], 0, [("name", JStr "x"); ("_mcp_server", JStr "A")].
    split; [vm_compute; reflexivity|]. split; [by left|].
    split; vm_compute; reflexivity.
  - rewrite H by discriminate. vm_compute. reflexivity.
Defined.

(** X20.  Stopping a server does not invalidate the cache of the
    integration: after [stop_server] has removed the first server that has
    the tool, [call_mcp_tool] still names that server to the manager, and
    replies with the error that the server was not found. *)
Theorem call_mcp_tool_after_stop
    (format : Json → string) (tool_name : string) (arguments : Json)
    (w : Client.Wire) (t : Integration.McpToolsIntegration)
    (m : Manager.McpServerManager)
    (before after : list (string * Client.McpClient))
    (name : string) (c : Client.McpClient) (pid : nat) :
  Integration.mcp_server_manager t = Some m →
  Integration._tools_cache t = llm_tools (Manager.mcp_clients m) →
  Manager.mcp_clients m = before ++ (name, c) :: after →
  Forall (fun p => well_formed p.2 ∧ ¬ exposes tool_name p.2) before →
  well_formed c → exposes tool_name c → name ≠ "" →
  Manager.io m = true →
  dict_get name (Manager.active_processes m) = Some pid →
  let stopped := (Manager.stop_server name m).1 in
  let t' := Integration.set_manager (Some stopped) t in
  Integration.call_mcp_tool format tool_name arguments w t'
  = (Integration.report (Client.tool_error "Error calling MCP tool") t',
     Integration.ErrorCalling tool_name (ServerNotFound name)).
Proof.
  intros Hm Hc Hcl Hb Hw He Hne Hio Hpid. cbn zeta.
  destruct (stop_server_registered name pid m Hio Hpid)
    as (b & m' & E & _ & _ & Hcl' & _).
  rewrite E. cbn [fst].
  unfold Integration.call_mcp_tool.
  cbn [Integration.mcp_server_manager Integration.set_manager
       Integration._tools_cache].
  rewrite Hc, Hcl.
  rewrite (find_server_first tool_name before name c after Hb Hw He).
  apply String.eqb_neq in Hne. cbn [truthy]. rewrite Hne. cbn [negb].
  unfold Integration.manager_call_tool, Manager.call_tool.
  cbn [from_option truthy default]. rewrite Hne. cbn [negb]. unfold id.
  rewrite Hcl', dict_get_del.
  by destruct m'.
Qed.

Lemma call_mcp_tool_after_stop_witness :
  let m := default (Manager.__init__ true)
             (Integration.mcp_server_manager Scenario.informed) in
  let t' := Integration.set_manager (Some (Manager.stop_server "A" m).1)
              Scenario.informed in
  (Integration.call_mcp_tool Scenario.str "x" JNull
     (Client.wire (Scenario.call_env 3)) t').2
  = Integration.ErrorCalling "x" (ServerNotFound "A").
Proof.
  cbn zeta.
  set (m := default (Manager.__init__ true)
              (Integration.mcp_server_manager Scenario.informed)).
  set (c := default Scenario.fresh (dict_get "A" (Manager.mcp_clients m))).
  rewrite (call_mcp_tool_after_stop Scenario.str "x" JNull
             (Client.wire (Scenario.call_env 3)) Scenario.informed m
             [] [] "A" c 0); [reflexivity|..].
  - vm_compute. reflexivity.
  - vm_compute. reflexivity.
  - vm_compute. reflexivity.
  - constructor.
  - exists [0]. split; [vm_compute; reflexivity|].
    intros a Ha. apply list_elem_of_singleton in Ha. subst a.
    eexists _, _. split; vm_compute; reflexivity.
  - exists [0], 0, [("name", JStr "x"); ("_mcp_server", JStr "A")].
    split; [vm_compute; reflexivity|]. split; [by left|].
    split; vm_compute; reflexivity.
  - discriminate.
  - vm_compute. reflexivity.
  - vm_compute. reflexivity.
Defined.

(** ** Formatting a tool result *)

Ltac some_default :=
  repeat match goal with
         | |- context [default ?d (Some ?x)] =>
             change (default d (Some x)) with x
         end.

Section Rendering.
Import Integration.
Context (format : Json → string).

Lemma strings_fmap (l : list string) : strings (JStr <$> l) = Ok l.
Proof. induction l as [|s l IH]; cbn; [done|]. by rewrite IH. Qed.

Lemma eq_str_default_false kv (x : string) :
  (∀ s, dict_get "type" kv = Some (JStr s) → s ≠ x) →
  eq_str (default JNull (dict_get "type" kv)) x = false.
Proof.
  intros H. destruct (eq_str _ x) eqn:E; [|done].
  apply eq_str_true in E. destruct (dict_get "type" kv) as [ty|] eqn:Et;
    cbn in E; [|done]. subst ty. by destruct (H x eq_refl).
Qed.

Lemma parts_of_cons_rendered item parts rest others :
  rendered format item parts →
  parts_of format rest = Ok others →
  parts_of format (item :: rest) = Ok ((JStr <$> parts) ++ others).
Proof.
  intros Hr Hrest. cbn [parts_of]. rewrite Hrest.
  destruct Hr as [kv s Ht Hs|kv Ht|kv Ht|kv res Ht Hres Htxt
                 |kv res s Ht Hres Htxt Hne|kv Ht]; cbn [get].
  - rewrite Ht. some_default. cbn [eq_str].
    change ("text" =? "text")%string with true. cbn iota.
    by rewrite Hs.
  - rewrite Ht. some_default. cbn [eq_str].
    change ("image" =? "text")%string with false.
    change ("image" =? "image")%string with true. done.
  - rewrite Ht. some_default. cbn [eq_str].
    change ("audio" =? "text")%string with false.
    change ("audio" =? "image")%string with false.
    change ("audio" =? "audio")%string with true. done.
  - rewrite Ht. some_default. cbn [eq_str].
    change ("resource" =? "text")%string with false.
    change ("resource" =? "image")%string with false.
    change ("resource" =? "audio")%string with false.
    change ("resource" =? "resource")%string with true. cbn iota.
    rewrite Hres. cbn [get]. by rewrite Htxt.
  - rewrite Ht. some_default. cbn [eq_str].
    change ("resource" =? "text")%string with false.
    change ("resource" =? "image")%string with false.
    change ("resource" =? "audio")%string with false.
    change ("resource" =? "resource")%string with true. cbn iota.
    rewrite Hres. cbn [get getitem]. rewrite Htxt. some_default.
    cbn [truthy]. apply String.eqb_neq in Hne. by rewrite Hne.
  - rewrite !eq_str_default_false; [done|..]; intros s Hs ->;
      apply (Ht _ Hs); set_solver.
Qed.

Lemma parts_of_rendered items partss :
  Forall2 (rendered format) items partss →
  parts_of format items = Ok (JStr <$> concat partss).
Proof.
  induction 1 as [|item parts items partss Hr _ IH]; [done|].
  rewrite (parts_of_cons_rendered item parts items _ Hr IH).
  cbn [concat]. by rewrite fmap_app.
Qed.

End Rendering.

(** X21.  For a result that is not an error and whose content is a
    non-empty list of items the code can read, [_format_tool_result] returns
    what the items contribute, in order, joined by newlines: a text item its
    text, an image or audio item a label with its MIME type, a resource item
    a label with its URI and then its text if it has one; items of other
    types contribute nothing, and when nothing is contributed the result is
    ["Tool executed successfully"]. *)
Theorem format_tool_result_renders
    (format : Json → string) (result : list (string * Json))
    (items : list Json) (partss : list (list string)) :
  truthy (default (JBool false) (dict_get "isError" result)) = false →
  dict_get "content" result = Some (JList items) →
  items ≠ [] →
  Forall2 (rendered format) items partss →
  Integration._format_tool_result format (JDict result)
  = Ok (match concat partss with
        | [] => "Tool executed successfully"
        | parts => String.concat Integration.newline parts
        end).
Proof.
  intros He Hc Hne Hr. unfold Integration._format_tool_result.
  cbn [get]. rewrite He, Hc. some_default.
  destruct items as [|item items]; [done|]. cbn [truthy negb Integration.iter].
  rewrite (parts_of_rendered format _ _ Hr).
  destruct (concat partss) as [|part parts]; [done|].
  cbn [fmap list_fmap]. unfold Integration.join.
  change (JStr part :: (JStr <$> parts)) with (JStr <$> (part :: parts)).
  by rewrite strings_fmap.
Qed.

Lemma format_tool_result_renders_witness :
  Integration._format_tool_result Scenario.str
    (JDict [("content", JList Scenario.mixed_content);
            ("isError", JBool false)])
  = Ok ("Text content" +:+ Integration.newline
        +:+ "[Image: image/png]" +:+ Integration.newline
        +:+ "[Audio: audio/wav]" +:+ Integration.newline
        +:+ "[Resource: file://test.txt]" +:+ Integration.newline
        +:+ "Resource content").
Proof.
  apply (format_tool_result_renders Scenario.str
           [("content", JList Scenario.mixed_content);
            ("isError", JBool false)]
           Scenario.mixed_content
           [["Text content"]; ["[Image: image/png]"]; ["[Audio: audio/wav]"];
            ["[Resource: file://test.txt]"; "Resource content"]; []]).
  - reflexivity.
  - reflexivity.
  - discriminate.
  - unfold Scenario.mixed_content.
    constructor; [by apply (rendered_text _ _ "Text content")|].
    constructor; [by apply rendered_image|].
    constructor; [by apply rendered_audio|].
    constructor.
    { exact (rendered_resource_text Scenario.str
               [("type", JStr "resource");
                ("resource", JDict [("uri", JStr "file://test.txt");
                                    ("text", JStr "Resource content")])]
               [("uri", JStr "file://test.txt");
                ("text", JStr "Resource content")] "Resource content"
               eq_refl eq_refl eq_refl ltac:(discriminate)). }
    constructor; [|constructor].
    apply rendered_other. intros s [= <-] Hin.
    repeat (apply elem_of_cons in Hin as [[=]|Hin]).
    by apply elem_of_nil in Hin.
Defined.

Section ErrorText.
Import Integration.

Lemma eq_str_role_false kv (k x : string) :
  dict_get k kv ≠ Some (JStr x) →
  eq_str (default JNull (dict_get k kv)) x = false.
Proof.
  intros H. destruct (eq_str _ x) eqn:E; [|done].
  apply eq_str_true in E. destruct (dict_get k kv) as [ty|]; cbn in E;
    [|done]. by subst ty.
Qed.

Lemma first_text_skip before rest :
  Forall not_text before →
  first_text (before ++ rest) = first_text rest.
Proof.
  induction 1 as [|item before (kv & -> & Ht) _ IH]; [done|].
  cbn [app first_text get]. by rewrite eq_str_role_false.
Qed.

End ErrorText.

(** X22.  For a result flagged as an error, [_format_tool_result] returns
    ["Tool execution error: "] followed by the text of the first text item
    of the content, whatever comes after that item, or by
    ["Unknown error"] when that item has no text or the content has no text
    item. *)
Theorem format_tool_result_error
    (format : Json → string) (result : list (string * Json))
    (items : list Json) :
  truthy (default (JBool false) (dict_get "isError" result)) = true →
  default (JList []) (dict_get "content" result) = JList items →
  (∀ before kv after,
     items = before ++ JDict kv :: after →
     Forall not_text before →
     dict_get "type" kv = Some (JStr "text") →
     Integration._format_tool_result format (JDict result)
     = Ok ("Tool execution error: "
           +:+ format (default (JStr "Unknown error") (dict_get "text" kv))))
  ∧ (Forall not_text items →
     Integration._format_tool_result format (JDict result)
     = Ok ("Tool execution error: " +:+ format (JStr "Unknown error"))).
Proof.
  intros He Hc. unfold Integration._format_tool_result,
    Integration._extract_content_text. cbn [get]. rewrite He, Hc.
  cbn [Integration.iter]. split.
  - intros before kv after -> Hb Ht. rewrite first_text_skip by done.
    cbn [Integration.first_text get]. rewrite Ht. done.
  - intros Hall. rewrite <- (app_nil_r items).
    by rewrite first_text_skip.
Qed.

Lemma format_tool_result_error_witness :
  Integration._format_tool_result Scenario.str
    (JDict [("content",
             JList [JDict [("type", JStr "image")];
                    JDict [("type", JStr "text");
                           ("text", JStr "Something went wrong")];
                    JNull]);
            ("isError", JBool true)])
  = Ok "Tool execution error: Something went wrong"
  ∧ Integration._format_tool_result Scenario.str
      (JDict [("isError", JBool true)])
    = Ok "Tool execution error: Unknown error".
Proof.
  split.
  - destruct (format_tool_result_error Scenario.str
                [("content",
                  JList [JDict [("type", JStr "image")];
                         JDict [("type", JStr "text");
                                ("text", JStr "Something went wrong")];
                         JNull]);
                 ("isError", JBool true)]
                [JDict [("type", JStr "image")];
                 JDict [("type", JStr "text");
                        ("text", JStr "Something went wrong")];
                 JNull] eq_refl eq_refl) as [H _].
    apply (H [JDict [("type", JStr "image")]]
             [("type", JStr "text"); ("text", JStr "Something went wrong")]
             [JNull]); [reflexivity| |reflexivity].
    constructor; [|constructor]. eexists. split; [reflexivity|discriminate].
  - destruct (format_tool_result_error Scenario.str
                [("isError", JBool true)] [] eq_refl eq_refl) as [_ H].
    apply H. constructor.
Defined.

(** ** Telling the model about the tools *)

Section Amending.
Import Integration.

(** Once the system message was found, the loop copies the remaining
    messages as they are. *)
Lemma amend_found text messages :
  Forall is_message messages →
  amend text true messages = (messages, Ok (messages, true)).
Proof.
  induction 1 as [|message messages [kv ->] _ IH]; [done|].
  cbn [amend get]. rewrite andb_false_r. by rewrite IH.
Qed.

(** Until then it copies the messages whose role is not ["system"]. *)
Lemma amend_plain text before rest :
  Forall plain_message before →
  amend text false (before ++ rest)
  = ((before ++ (amend text false rest).1),
     match (amend text false rest).2 with
     | Ok (modified, found) => Ok (before ++ modified, found)
     | Raise e => Raise e
     end).
Proof.
  induction 1 as [|message before (kv & -> & Hr) _ IH].
  - cbn [app]. destruct (amend text false rest) as [ms [[mm found]|e]]; done.
  - cbn [app amend get]. rewrite eq_str_role_false by done. cbn [andb].
    rewrite IH. by destruct (amend text false rest) as [ms [[mm found]|e]].
Qed.

Lemma amend_system text kv content content' after :
  dict_get "role" kv = Some (JStr "system") →
  default (JStr "") (dict_get "content" kv) = content →
  iadd content text = Ok content' →
  Forall is_message after →
  amend text false (JDict kv :: after)
  = (match content with
     | JList _ => JDict (dict_set "content" content' kv)
     | _ => JDict kv
     end :: after,
     Ok (JDict (dict_set "content" content' kv) :: after, true)).
Proof.
  intros Hr Hc Hi Ha. cbn [amend get]. rewrite Hr, Hc.
  change (default JNull (Some (JStr "system"))) with (JStr "system").
  change (eq_str (JStr "system") "system") with true. cbn [andb negb].
  rewrite Hi. rewrite (amend_found text after Ha). cbn [assigned].
  by destruct content.
Qed.

(** After [has_tools] has answered [True], the cache is valid and not
    empty, so [get_tools_for_llm] returns it without a refresh. *)
Lemma has_tools_then_get t t1 :
  has_tools t = (t1, true) →
  get_tools_for_llm t1 = (t1, _tools_cache t1) ∧ _tools_cache t1 ≠ [].
Proof.
  unfold has_tools, get_tools_for_llm.
  destruct (mcp_server_manager t) as [m|] eqn:Hm; [|done].
  destruct (_tools_cache_valid t) eqn:Hv; cbn [negb].
  - intros [= <- Hb]. rewrite Hm, Hv. split; [done|].
    intros E. by rewrite E in Hb.
  - intros [= <- Hb].
    destruct (refresh_manager_some t) as [m' Hm']; [by eexists|].
    rewrite Hm'.
    destruct (_tools_cache_valid (_refresh_tools_cache t)) eqn:Hv'.
    + split; [done|]. intros E. by rewrite E in Hb.
    + by rewrite refresh_valid_or_empty in Hb.
Qed.

End Amending.

(** X23.  When the integration has tools, [add_mcp_tools_to_messages]
    returns the messages with the description of the tools added to the
    content of the first message whose role is ["system"], every other
    message being the same and in the same place.  A content that is a
    string is extended by the text, in a copy of the message: the messages
    passed in are not changed.  A content that is a list is extended by the
    characters of the text, one element each, in the list the message
    passed in holds. *)
Theorem add_tools_amends_first_system
    (format : Json → string) (t t1 : Integration.McpToolsIntegration)
    (lines : string) (before after : list Json)
    (kv : list (string * Json)) (content content' : Json) :
  Integration.has_tools t = (t1, true) →
  Integration.tool_lines format (Integration._tools_cache t1) = Ok lines →
  Forall plain_message before →
  dict_get "role" kv = Some (JStr "system") →
  default (JStr "") (dict_get "content" kv) = content →
  Integration.iadd content
    (Integration.newline +:+ Integration.newline
     +:+ Integration.tools_description lines) = Ok content' →
  Forall is_message after →
  Integration.add_mcp_tools_to_messages format
    (before ++ JDict kv :: after) (Some t)
  = (Some t1,
     before ++ match content with
               | JList _ => JDict (dict_set "content" content' kv)
               | _ => JDict kv
               end :: after,
     Ok (before ++ JDict (dict_set "content" content' kv) :: after)).
Proof.
  intros Hh Hl Hb Hr Hc Hi Ha. unfold Integration.add_mcp_tools_to_messages.
  destruct (has_tools_then_get t t1 Hh) as [Hg Hne].
  rewrite Hh. cbn [negb]. rewrite Hg.
  destruct (Integration._tools_cache t1) as [|tool tools] eqn:Ec; [done|].
  cbn [truthy negb]. rewrite Hl.
  rewrite (amend_plain _ before _ Hb).
  by rewrite (amend_system _ kv content content' after Hr Hc Hi Ha).
Qed.

Lemma add_tools_amends_first_system_witness :
  let messages := [Scenario.user_message "hi";
                   JDict Scenario.system_message;
                   Scenario.user_message "list the files"] in
  let r := Integration.add_mcp_tools_to_messages Scenario.str messages
             (Some Scenario.assistant) in
  r.1.2 = messages
  ∧ ∃ first amended last,
      r.2 = Ok [first; JDict amended; last]
      ∧ first = Scenario.user_message "hi"
      ∧ last = Scenario.user_message "list the files"
      ∧ dict_get "content" amended
        = Some (JStr ("Be brief." +:+ Integration.newline
                      +:+ Integration.newline
                      +:+ Integration.tools_description
                            ("- x: " +:+ Integration.newline))).
Proof.
  cbn zeta.
  pose proof (add_tools_amends_first_system Scenario.str Scenario.assistant
                Scenario.informed ("- x: " +:+ Integration.newline)
                [Scenario.user_message "hi"]
                [Scenario.user_message "list the files"]
                Scenario.system_message (JStr "Be brief.")
                (JStr ("Be brief." +:+ Integration.newline
                       +:+ Integration.newline
                       +:+ Integration.tools_description
                             ("- x: " +:+ Integration.newline)))) as H.
  cbn [app] in H. rewrite H.
  - split; [reflexivity|]. eexists _, _, _. split; [reflexivity|].
    split; [reflexivity|]. split; [reflexivity|]. vm_compute. reflexivity.
  - vm_compute. reflexivity.
  - vm_compute. reflexivity.
  - constructor; [|constructor]. eexists. split; [reflexivity|discriminate].
  - reflexivity.
  - reflexivity.
  - vm_compute. reflexivity.
  - constructor; [|constructor]. by eexists.
Defined.

(** X24.  Without an integration, or when the integration has no tools,
    [add_mcp_tools_to_messages] returns the messages it was given.  When it
    has tools and no message has the role ["system"], it returns the
    messages with a new system message in front, whose content is the
    description of the tools. *)
Theorem add_tools_without_system
    (format : Json → string) (messages : list Json) :
  Integration.add_mcp_tools_to_messages format messages None
  = (None, messages, Ok messages)
  ∧ (∀ t t1,
       Integration.has_tools t = (t1, false) →
       Integration.add_mcp_tools_to_messages format messages (Some t)
       = (Some t1, messages, Ok messages))
  ∧ (∀ t t1 lines,
       Integration.has_tools t = (t1, true) →
       Integration.tool_lines format (Integration._tools_cache t1) = Ok lines →
       Forall plain_message messages →
       Integration.add_mcp_tools_to_messages format messages (Some t)
       = (Some t1, messages,
          Ok (JDict [("role", JStr "system");
                     ("content",
                      JStr (Integration.tools_description lines))]
              :: messages))).
Proof.
  split; [done|]. split.
  - intros t t1 Hh. unfold Integration.add_mcp_tools_to_messages.
    by rewrite Hh.
  - intros t t1 lines Hh Hl Hp. unfold Integration.add_mcp_tools_to_messages.
    destruct (has_tools_then_get t t1 Hh) as [Hg Hne].
    rewrite Hh. cbn [negb]. rewrite Hg.
    destruct (Integration._tools_cache t1) as [|tool tools] eqn:Ec; [done|].
    cbn [truthy negb]. rewrite Hl.
    rewrite <- (app_nil_r messages) at 1.
    rewrite (amend_plain _ messages [] Hp). cbn. by rewrite !app_nil_r.
Qed.

Lemma add_tools_without_system_witness :
  let messages := [Scenario.user_message "hi"] in
  Integration.add_mcp_tools_to_messages Scenario.str messages
    (Some (Integration.__init__ None true))
  = (Some (Integration.__init__ None true), messages, Ok messages)
  ∧ (Integration.add_mcp_tools_to_messages Scenario.str messages
       (Some Scenario.assistant)).2
    = Ok [JDict [("role", JStr "system");
                 ("content",
                  JStr (Integration.tools_description
                          ("- x: " +:+ Integration.newline)))];
          Scenario.user_message "hi"].
Proof.
  cbn zeta.
  destruct (add_tools_without_system Scenario.str
              [Scenario.user_message "hi"]) as (_ & H1 & H2).
  split.
  - apply H1. reflexivity.
  - rewrite (H2 Scenario.assistant Scenario.informed
               ("- x: " +:+ Integration.newline)); [reflexivity|..].
    + vm_compute. reflexivity.
    + vm_compute. reflexivity.
    + constructor; [|constructor]. eexists. split; [reflexivity|discriminate].
Defined.
